(** * AiDA: metrics cache, rule evaluator, rightsizing engine and resize
  orchestrator, embedded from the Python sources.

  Conventions of the embedding.
  - Python [int] is [Z]; Python [float] is an exact rational [Q] (rounding
    of binary floating point is not modelled); [math.exp] is the real
    exponential, so the one function that calls it lives in [R].
  - A Python exception is a value of [exn]; code that can raise returns
    [result].  Code that talks to the document store or to the cloud API
    threads an explicit world through a state-and-exception monad.
  - [datetime] values are integers (seconds on the UTC time line).
  - The document store and the cloud APIs are external collaborators: their
    answers are inputs of the model ([Env] records, oracles), the requests
    the code builds and what it does with the answers are modelled. *)

From Stdlib Require Import ZArith QArith Qround Reals Zfloor Lra Lia Ascii.
From stdpp Require Import gmap strings list sorting.

Set Warnings "-register-all".

Local Open Scope Z_scope.
Local Open Scope string_scope.
Local Open Scope list_scope.

(** ** Python runtime: exceptions and results *)

Module Py.

(** [ClientError] is botocore's; it carries the provider's error code
    ([e.response["Error"]["Code"]], possibly absent) and its text.  Every
    other exception is kept as its class name and its text. *)
Inductive exn : Type :=
| ClientError (code : option string) (text : string)
| PyError (cls : string) (text : string).

(** [str(e)] *)
Definition str (e : exn) : string :=
  match e with
  | ClientError _ t => t
  | PyError _ t => t
  end.

Inductive result (A : Type) : Type :=
| Ok (a : A)
| Raise (e : exn).
Arguments Ok {A} a.
Arguments Raise {A} e.

Definition bind {A B} (r : result A) (k : A -> result B) : result B :=
  match r with
  | Ok a => k a
  | Raise e => Raise e
  end.

Definition KeyError (k : string) : exn := PyError "KeyError" k.
Definition TypeError (t : string) : exn := PyError "TypeError" t.
Definition ValueError (t : string) : exn := PyError "ValueError" t.
Definition AttributeError (t : string) : exn := PyError "AttributeError" t.
Definition ZeroDivisionError : exn := PyError "ZeroDivisionError" "float division by zero".

End Py.

Import Py.

Declare Scope result_scope.
Delimit Scope result_scope with result.
Notation "x <- r ;; k" := (Py.bind r (fun x => k))
(at level 100, r at next level, right associativity) : result_scope.

(** ** src/ec2_scaling.py: the stop / modify / start orchestrator *)

Module Ec2Scaling.

Definition ES_INDEX : string := "scale_status_log".

(** One entry of [steps] as [append_step] builds it. *)
Record Step : Type := mkStep {
  step_timestamp : Z;
  step_name : string;
  percent_complete : Z;
  step_status : string;
  message : string
}.

(** A [scale_status_log] document.  [steps] may be null (the script tests
    it), [lastUpdated] is absent until the first step is appended. *)
Record LogDoc : Type := mkLogDoc {
  instance_id : string;
  timestamp : Z;
  status : string;
  steps : option (list Step);
  lastUpdated : option Z
}.

(** The calls made on [EC2_CLIENT]. *)
Inductive Ec2Call : Type :=
| StopInstances (instance : string)
| WaitInstanceStopped (instance : string)
| ModifyInstanceType (instance : string) (instance_type : string)
| StartInstances (instance : string)
| WaitInstanceRunning (instance : string).

(** What the run cannot control: the clock, the answers of the cloud
    control API ([None] is success), and the writes other actors make to
    the index; [external n] is applied just before the [n]-th request this
    run sends to the document store. *)
Record Env : Type := mkEnv {
  clock : nat -> Z;
  ec2_fault : Ec2Call -> option exn;
  external : nat -> gmap string LogDoc -> gmap string LogDoc
}.

(** What the run changes: the index, the number of store requests sent so
    far, and the cloud calls issued so far (oldest first). *)
Record World : Type := mkWorld {
  store : gmap string LogDoc;
  requests : nat;
  calls : list Ec2Call
}.

(** State and exception monad: the world survives an exception, as the
    [except] clause of [scale_instance] observes it. *)
Definition M (A : Type) : Type := World -> result A * World.

Definition ret {A} (a : A) : M A := fun w => (Ok a, w).
Definition raise {A} (e : exn) : M A := fun w => (Raise e, w).
Definition bind {A B} (m : M A) (k : A -> M B) : M B :=
  fun w => match m w with
           | (Ok a, w') => k a w'
           | (Raise e, w') => (Raise e, w')
           end.
(** [try: m  except Exception as e: h e] *)
Definition try_except {A} (m : M A) (h : exn -> M A) : M A :=
  fun w => match m w with
           | (Ok a, w') => (Ok a, w')
           | (Raise e, w') => h e w'
           end.

Notation "m ;;; k" := (bind m (fun _ => k)) (at level 100, right associativity).

Section Run.
Variable env : Env.

(** The painless script of [append_step], applied to [_source]. *)
Definition append_script (st : Step) (new_status : string) (d : LogDoc) : LogDoc :=
  let old := match steps d with None => [] | Some l => l end in
  {| instance_id := instance_id d;
     timestamp := timestamp d;
     status := new_status;
     steps := Some (old ++ [st]);
     lastUpdated := Some (step_timestamp st) |}.

(** [es_client.update(index, id, body={"script": ...})]: a scripted update
    without upsert; the store answers 404 when the document is missing. *)
Definition append_step (doc_id step : string) (percent : Z)
    (new_status : string) (msg : string) : M unit :=
  fun w =>
    let n := requests w in
    let s := external env n (store w) in
    let st := {| step_timestamp := clock env n; step_name := step;
                 percent_complete := percent; step_status := new_status;
                 message := msg |} in
    match s !! doc_id with
    | Some d =>
        (Ok tt, {| store := <[doc_id := append_script st new_status d]> s;
                   requests := S n; calls := calls w |})
    | None =>
        (Raise (PyError "NotFoundError" "document_missing_exception"),
         {| store := s; requests := S n; calls := calls w |})
    end.

(** A call on the cloud control client: recorded, then it returns or
    raises as the provider decides. *)
Definition ec2_call (c : Ec2Call) : M unit :=
  fun w =>
    let w' := {| store := store w; requests := requests w;
                 calls := calls w ++ [c] |} in
    match ec2_fault env c with
    | None => (Ok tt, w')
    | Some e => (Raise e, w')
    end.

Definition stop_instance (doc_id instance : string) : M unit :=
  append_step doc_id "Stopping instance" 10 "in_progress" EmptyString ;;;
  ec2_call (StopInstances instance) ;;;
  ec2_call (WaitInstanceStopped instance) ;;;
  append_step doc_id "Instance stopped" 30 "in_progress" EmptyString.

Definition change_instance_type (doc_id instance instance_type : string) : M unit :=
  append_step doc_id "Changing instance type" 40 "in_progress" EmptyString ;;;
  ec2_call (ModifyInstanceType instance instance_type) ;;;
  append_step doc_id "Instance type changed" 60 "in_progress" EmptyString.

Definition start_instance (doc_id instance : string) : M unit :=
  append_step doc_id "Starting instance" 70 "in_progress" EmptyString ;;;
  ec2_call (StartInstances instance) ;;;
  ec2_call (WaitInstanceRunning instance) ;;;
  append_step doc_id "Instance running" 100 "completed" EmptyString.

Definition scale_instance (instance new_instance_type region es_doc_update_id : string)
    : M unit :=
  try_except
    (stop_instance es_doc_update_id instance ;;;
     change_instance_type es_doc_update_id instance new_instance_type ;;;
     start_instance es_doc_update_id instance)
    (fun e =>
       append_step es_doc_update_id "Error occurred" 0 "failed" (str e) ;;;
       raise e).

End Run.

End Ec2Scaling.

(** ** src/instance_scaling.py: the safety gate of [scale_using_recommendation] *)

Module InstanceScaling.

(** One entry of [programs] in the inventory configuration. *)
Record Program : Type := mkProgram {
  scale_as_group_tag : option string
}.

(** One entry of [status_checks.environments].  A field read with
    [env.get] is optional; [region] and [programs] are read with
    [env[...]], which raises when the key is absent. *)
Record Environment : Type := mkEnvironment {
  project : option string;
  environment : option string;
  region : option string;
  programs : option (gmap string Program)
}.

(** What the gate reads of [current_state]. *)
Record HostState : Type := mkHostState {
  Tags : gmap string string;
  Region : option string;
  InstanceType : option string
}.

(** The [must] terms of the peer search on [monitoring_data]. *)
Record PeerQuery : Type := mkPeerQuery {
  tags_field : string;
  tags_value : option string;
  term_project : option string;
  term_environment : option string;
  term_state : string;
  term_region : option string;
  term_program : option string;
  term_instance_type : string
}.

(** [_source] of one hit of the peer search. *)
Record Hit : Type := mkHit {
  InstanceId : string;
  name : option string
}.

(** The three lists the gate fills. *)
Record Gate : Type := mkGate {
  safe_to_scale : list string;
  safe_to_scale_names : list string;
  not_safe_to_scale_names : list string
}.

Definition hit_name (h : Hit) : string :=
  match name h with
  | Some n => n
  | None => "Name not Assigned"
  end.

(** The [bool] query of [es.count] on [scale_status_log], for a document:
    [must] instance_id, status in_progress, lastUpdated >= now-30m;
    [must_not] status canceled. *)
Definition count_query (now : Z) (id : string) (d : Ec2Scaling.LogDoc) : bool :=
  bool_decide (Ec2Scaling.instance_id d = id)
  && bool_decide (Ec2Scaling.status d = "in_progress")
  && match Ec2Scaling.lastUpdated d with
     | Some t => bool_decide (now - 1800 <= t)
     | None => false
     end
  && negb (bool_decide (Ec2Scaling.status d = "canceled")).

(** [es.count(index="scale_status_log", query=...)["count"]] *)
Definition in_progress_count (now : Z) (log : gmap string Ec2Scaling.LogDoc)
    (id : string) : nat :=
  length (filter (fun kd => count_query now id (snd kd) = true) (map_to_list log)).

Section Gate.
Variable now : Z.
Variable log : gmap string Ec2Scaling.LogDoc.
(** The answer of [es.search] on [monitoring_data] to a peer query. *)
Variable search : PeerQuery -> result (list Hit).

(** Body of [for instance in other_instances['hits']['hits']]. *)
Definition gate_instance (g : Gate) (instance : Hit) : Gate :=
  let id := InstanceId instance in
  if bool_decide (id ∈ safe_to_scale g) then g
  else if Nat.eqb (in_progress_count now log id) 0 then
    {| safe_to_scale := safe_to_scale g ++ [id];
       safe_to_scale_names := safe_to_scale_names g ++ [hit_name instance];
       not_safe_to_scale_names := not_safe_to_scale_names g |}
  else
    {| safe_to_scale := safe_to_scale g;
       safe_to_scale_names := safe_to_scale_names g;
       not_safe_to_scale_names := not_safe_to_scale_names g ++ [hit_name instance] |}.

(** The condition of the [if] on one configured environment, evaluated left
    to right with short-circuit [and]. *)
Definition env_matches (current_state : HostState) (env : Environment) : result bool :=
  let tag_environment := Tags current_state !! "Environment" in
  let tag_project := Tags current_state !! "Project" in
  if negb (bool_decide (project env = tag_project)) then Ok false
  else if negb (bool_decide (environment env = tag_environment)) then Ok false
  else
    match Region current_state with
    | None => Raise (KeyError "Region")
    | Some r =>
        match region env with
        | None => Raise (KeyError "region")
        | Some er =>
            if negb (bool_decide (r = er)) then Ok false
            else Ok (bool_decide (Region current_state = Some er))
        end
    end.

(** [env['programs'][tag_progrm]] *)
Definition program_of (env : Environment) (tag_progrm : option string) : result Program :=
  match programs env with
  | None => Raise (KeyError "programs")
  | Some ps =>
      match tag_progrm with
      | None => Raise (KeyError "None")
      | Some p =>
          match ps !! p with
          | Some prog => Ok prog
          | None => Raise (KeyError p)
          end
      end
  end.

(** The query built for one environment, or [None] when the environment
    does not apply or has no (non-empty) group tag. *)
Definition peer_query (current_state : HostState) (env : Environment)
    : result (option PeerQuery) :=
  (m <- env_matches current_state env ;;
   if negb m then Ok None
   else
     prog <- program_of env (Tags current_state !! "Program") ;;
     match scale_as_group_tag prog with
     | None => Ok None
     | Some scale_in_tag =>
         if bool_decide (scale_in_tag = EmptyString) then Ok None
         else
           match InstanceType current_state with
           | None => Raise (KeyError "InstanceType")
           | Some ty =>
               Ok (Some {| tags_field := "Tags." +:+ scale_in_tag +:+ ".keyword";
                           tags_value := Tags current_state !! scale_in_tag;
                           term_project := Tags current_state !! "Project";
                           term_environment := Tags current_state !! "Environment";
                           term_state := "running";
                           term_region := Region current_state;
                           term_program := Tags current_state !! "Program";
                           term_instance_type := ty |})
           end
     end)%result.

(** [for env in status_checks_environments: ...] (lines 307-367). *)
Fixpoint gate_environments (current_state : HostState) (envs : list Environment)
    (g : Gate) : result Gate :=
  match envs with
  | [] => Ok g
  | env :: rest =>
      (q <- peer_query current_state env ;;
       match q with
       | None => gate_environments current_state rest g
       | Some query =>
           other_instances <- search query ;;
           gate_environments current_state rest
             (fold_left gate_instance other_instances g)
       end)%result
  end.

Definition safety_gate (current_state : HostState) (envs : list Environment)
    : result Gate :=
  gate_environments current_state envs
    {| safe_to_scale := []; safe_to_scale_names := [];
       not_safe_to_scale_names := [] |}.

End Gate.

End InstanceScaling.

(** ** src/monitoring_status.py: the rule evaluator [server_status_check] *)

Module RuleEvaluator.

(** The values a snapshot and the rule document are made of: what YAML and
    JSON give, plus [datetime] (CloudWatch timestamps).  A dict keeps its
    insertion order and has string keys. *)
Inductive value : Type :=
| VNone
| VBool (b : bool)
| VNum (q : Q)
| VStr (s : string)
| VTime (t : Z)
| VList (l : list value)
| VDict (d : list (string * value)).

Definition dict : Type := list (string * value).

(** [d.get(k)] on a dict *)
Fixpoint dict_get (d : dict) (k : string) : option value :=
  match d with
  | [] => None
  | (k', v) :: rest => if String.eqb k' k then Some v else dict_get rest k
  end.

(** [int], [float] and [bool] (a subclass of [int]) as numbers. *)
Definition as_number (v : value) : option Q :=
  match v with
  | VNum q => Some q
  | VBool true => Some 1%Q
  | VBool false => Some 0%Q
  | _ => None
  end.

(** Python [==] *)
Fixpoint py_eq (a b : value) : bool :=
  match a, b with
  | VNone, VNone => true
  | VStr s, VStr t => String.eqb s t
  | VTime s, VTime t => Z.eqb s t
  | VList l1, VList l2 =>
      (fix all2 (l1 l2 : list value) : bool :=
         match l1, l2 with
         | [], [] => true
         | x :: xs, y :: ys => py_eq x y && all2 xs ys
         | _, _ => false
         end) l1 l2
  | VDict d1, VDict d2 =>
      Nat.eqb (length d1) (length d2)
      && (fix sub (d : list (string * value)) : bool :=
            match d with
            | [] => true
            | (k, v) :: rest =>
                match dict_get d2 k with
                | Some v' => py_eq v v' && sub rest
                | None => false
                end
            end) d1
  | _, _ =>
      match as_number a, as_number b with
      | Some x, Some y => Qeq_bool x y
      | _, _ => false
      end
  end.

(** Python [a > b]; ordering between unlike types raises. *)
Fixpoint py_gt (a b : value) : result bool :=
  match a, b with
  | VStr s, VStr t => Ok (String.ltb t s)
  | VTime s, VTime t => Ok (Z.ltb t s)
  | VList l1, VList l2 =>
      (fix lex (l1 l2 : list value) : result bool :=
         match l1, l2 with
         | [], _ => Ok false
         | _ :: _, [] => Ok true
         | x :: xs, y :: ys => if py_eq x y then lex xs ys else py_gt x y
         end) l1 l2
  | _, _ =>
      match as_number a, as_number b with
      | Some x, Some y => Ok (negb (Qle_bool x y))
      | _, _ => Raise (TypeError "'>' not supported")
      end
  end.

(** Truth value of an object *)
Definition truthy (v : value) : bool :=
  match v with
  | VNone => false
  | VBool b => b
  | VNum q => negb (Qeq_bool q 0)
  | VStr s => negb (String.eqb s EmptyString)
  | VTime _ => true
  | VList l => negb (Nat.eqb (length l) 0)
  | VDict d => negb (Nat.eqb (length d) 0)
  end.

(** The characters of a string, as iteration yields them. *)
Fixpoint chars (s : string) : list value :=
  match s with
  | EmptyString => []
  | String c rest => VStr (String c EmptyString) :: chars rest
  end.

(** [for x in v] *)
Definition py_iter (v : value) : result (list value) :=
  match v with
  | VList l => Ok l
  | VDict d => Ok (map (fun kv => VStr (fst kv)) d)
  | VStr s => Ok (chars s)
  | _ => Raise (TypeError "object is not iterable")
  end.

(** [v.items()] *)
Definition py_items (v : value) : result dict :=
  match v with
  | VDict d => Ok d
  | _ => Raise (AttributeError "items")
  end.

(** [v.get(k)]; [None] stands for both an absent key and a null value. *)
Definition py_get (v : value) (k : string) : result (option value) :=
  match v with
  | VDict d =>
      Ok (match dict_get d k with
          | Some VNone => None
          | o => o
          end)
  | _ => Raise (AttributeError "get")
  end.

(** [v.get(k, default)] *)
Definition py_get_default (v : value) (k : string) (default : value) : result value :=
  match v with
  | VDict d =>
      Ok (match dict_get d k with
          | Some x => x
          | None => default
          end)
  | _ => Raise (AttributeError "get")
  end.

(** [v[k]] with a string key *)
Definition py_getitem (v : value) (k : string) : result value :=
  match v with
  | VDict d =>
      match dict_get d k with
      | Some x => Ok x
      | None => Raise (KeyError k)
      end
  | _ => Raise (TypeError "indices must be integers or object is not subscriptable")
  end.

(** [compare(val, logic, threshold)] *)
Definition compare (val logic threshold : value) : result bool :=
  (val_comp <-
     match val with
     | VNum _ | VBool _ =>
         match as_number val with
         | Some q => Ok q
         | None => Raise (TypeError "Unsupported type for comparison")
         end
     | VList l => Ok (inject_Z (Z.of_nat (length l)))
     | VStr s => Ok (inject_Z (Z.of_nat (String.length s)))
     | _ => Raise (TypeError "Unsupported type for comparison")
     end ;;
   if py_eq logic (VStr "gte") then
     match as_number threshold with
     | Some t => Ok (Qle_bool t val_comp)
     | None => Raise (TypeError "'>=' not supported")
     end
   else if py_eq logic (VStr "lte") then
     match as_number threshold with
     | Some t => Ok (Qle_bool val_comp t)
     | None => Raise (TypeError "'<=' not supported")
     end
   else if py_eq logic (VStr "equals") then
     Ok (py_eq val threshold || py_eq (VNum val_comp) threshold)
   else if py_eq logic (VStr "not_equals") then
     Ok (negb (py_eq val threshold) || negb (py_eq (VNum val_comp) threshold))
   else Raise (ValueError "Unknown compare_logic"))%result.

(** The description of a recorded failure: the configured one, or the
    text [f"{metric} {logic} {threshold}"] kept unformatted. *)
Inductive Description : Type :=
| Given (v : value)
| Formatted (metric : string) (logic threshold : value).

(** [{"description": ..., "result": True, "detail": val}] *)
Record Entry : Type := mkEntry {
  description : Description;
  result_flag : bool;
  detail : value
}.

(** [final_result]: service -> key -> entry.  The inner keys are metric
    names, or the [partition] selector of a disk condition. *)
Definition Final : Type := list (string * list (value * Entry)).

Definition hashable (v : value) : bool :=
  match v with
  | VList _ | VDict _ => false
  | _ => true
  end.

(** [inner[key] = e] *)
Fixpoint inner_set (inner : list (value * Entry)) (key : value) (e : Entry)
    : list (value * Entry) :=
  match inner with
  | [] => [(key, e)]
  | (k, x) :: rest =>
      if py_eq k key then (k, e) :: rest else (k, x) :: inner_set rest key e
  end.


(** [final_result.setdefault(service, {})[key] = e] once the key is known
    to be hashable. *)
Fixpoint final_set (fr : Final) (service : string) (key : value) (e : Entry) : Final :=
  match fr with
  | [] => [(service, [(key, e)])]
  | (s, inner) :: rest =>
      if String.eqb s service then (s, inner_set inner key e) :: rest
      else (s, inner) :: final_set rest service key e
  end.


Definition record (fr : Final) (service : string) (key : value)
    (desc : Description) (val : value) : result Final :=
  if hashable key
  then Ok (final_set fr service key
             {| description := desc; result_flag := true; detail := val |})
  else Raise (TypeError "unhashable type").

(** A [for] loop whose body may raise. *)
Fixpoint foldM {S A : Type} (f : S -> A -> result S) (l : list A) (s : S) : result S :=
  match l with
  | [] => Ok s
  | x :: rest => (s' <- f s x ;; foldM f rest s')%result
  end.

(** *** 1. the [default] bucket *)

(** [for service_dict in snapshot: if metric in service_dict: ...]: the
    value of the last blob that has the field. *)
Definition find_default (snapshot : list dict) (metric : string) : option value :=
  fold_left (fun found service_dict =>
               match dict_get service_dict metric with
               | Some v => Some v
               | None => found
               end) snapshot None.

Definition default_condition (metric : string) (val : value) (fr : Final)
    (condition : value) : result Final :=
  (logic <- py_getitem condition "compare_logic" ;;
   threshold <- py_getitem condition "value" ;;
   hit <- compare val logic threshold ;;
   if hit then
     desc <- py_get_default condition "description" (VStr EmptyString) ;;
     record fr "default" (VStr metric) (Given desc) val
   else Ok fr)%result.

Definition default_metric (snapshot : list dict) (fr : Final)
    (item : string * value) : result Final :=
  let (metric, conditions) := item in
  match find_default snapshot metric with
  | None => Ok fr
  | Some val =>
      (conds <- py_iter conditions ;;
       foldM (default_condition metric val) conds fr)%result
  end.

(** *** 2a. the CloudWatch special case *)

(** [max(datapoints, key=lambda d: d.get("Timestamp", ""))]: the first
    point whose key is not exceeded by a later one. *)
Definition timestamp_key (d : value) : result value :=
  py_get_default d "Timestamp" (VStr EmptyString).

Fixpoint max_from (best best_key : value) (l : list value) : result value :=
  match l with
  | [] => Ok best
  | d :: rest =>
      (k <- timestamp_key d ;;
       later <- py_gt k best_key ;;
       if later then max_from d k rest else max_from best best_key rest)%result
  end.

Definition latest_datapoint (datapoints : value) : result value :=
  (l <- py_iter datapoints ;;
   match l with
   | [] => Raise (ValueError "max() arg is an empty sequence")
   | d :: rest => (k <- timestamp_key d ;; max_from d k rest)
   end)%result.

Definition cloudwatch_condition (service metric : string) (val : value) (fr : Final)
    (condition : value) : result Final :=
  (logic <- py_getitem condition "compare_logic" ;;
   threshold <- py_getitem condition "value" ;;
   hit <- compare val logic threshold ;;
   if hit then
     desc <- match condition with
             | VDict d =>
                 Ok (match dict_get d "description" with
                     | Some x => Given x
                     | None => Formatted metric logic threshold
                     end)
             | _ => Raise (AttributeError "get")
             end ;;
     record fr service (VStr metric) desc val
   else Ok fr)%result.

Definition cloudwatch_metric (service : string) (data : value) (fr : Final)
    (item : string * value) : result Final :=
  let (metric, conditions) := item in
  (datapoints <- py_get_default data metric (VList []) ;;
   if negb (truthy datapoints) then Ok fr
   else
     latest_point <- latest_datapoint datapoints ;;
     val <- py_get latest_point "Average" ;;
     match val with
     | None => Ok fr
     | Some val =>
         conds <- py_iter conditions ;;
         foldM (cloudwatch_condition service metric val) conds fr
     end)%result.

(** *** 2b. case A: list-shaped rules (disk, ram) *)

Definition disk_entry (partition logic threshold : value) (desc : value)
    (fr : Final) (d : value) : result Final :=
  (p <- py_get_default d "partition" VNone ;;
   if py_eq p partition then
     val <- py_get_default d "percent" VNone ;;
     hit <- compare val logic threshold ;;
     if hit then record fr "disk" partition (Given desc) val else Ok fr
   else Ok fr)%result.

Definition list_condition (service : string) (data : value) (fr : Final)
    (condition : value) : result Final :=
  (logic <- py_getitem condition "compare_logic" ;;
   threshold <- py_getitem condition "value" ;;
   desc <- py_get_default condition "description" (VStr EmptyString) ;;
   if String.eqb service "disk" then
     partition <- py_get_default condition "partition" VNone ;;
     ds <- py_iter data ;;
     foldM (disk_entry partition logic threshold desc) ds fr
   else if String.eqb service "ram" then
     val <- match data with
            | VDict _ => py_get data "percentage"
            | VNone => Ok None
            | _ => Ok (Some data)
            end ;;
     match val with
     | None => Ok fr
     | Some val =>
         hit <- compare val logic threshold ;;
         if hit then record fr service (VStr "percentage") (Given desc) val else Ok fr
     end
   else Ok fr)%result.

(** *** 2c. case B: dict-shaped rules *)

Definition dict_condition (service metric : string) (data : value) (fr : Final)
    (condition : value) : result Final :=
  (logic <- py_getitem condition "compare_logic" ;;
   threshold <- py_getitem condition "value" ;;
   desc <- match condition with
           | VDict d =>
               Ok (match dict_get d "description" with
                   | Some x => Given x
                   | None => Formatted metric logic threshold
                   end)
           | _ => Raise (AttributeError "get")
           end ;;
   val <- py_get data metric ;;
   match val with
   | None => Ok fr
   | Some val =>
       hit <- compare val logic threshold ;;
       if hit then record fr service (VStr metric) desc val else Ok fr
   end)%result.

Definition dict_metric (service : string) (data : value) (fr : Final)
    (item : string * value) : result Final :=
  let (metric, conditions) := item in
  (conds <- py_iter conditions ;;
   foldM (dict_condition service metric data) conds fr)%result.

(** *** the two passes over one snapshot *)

(** Body of [for service, conf in fail_state.items()] for one blob. *)
Definition check_service (service_dict : dict) (fr : Final)
    (item : string * value) : result Final :=
  let (service, conf) := item in
  if String.eqb service "default" then Ok fr
  else
    match dict_get service_dict service with
    | None => Ok fr
    | Some data =>
        match conf with
        | VDict metrics =>
            if String.eqb service "cloudwatch"
            then foldM (cloudwatch_metric service data) metrics fr
            else foldM (dict_metric service data) metrics fr
        | VList conditions => foldM (list_condition service data) conditions fr
        | _ => Ok fr
        end
    end.

Definition check_snapshot (fail_state : dict) (fr : Final) (snapshot : list dict)
    : result Final :=
  (defaults <- match dict_get fail_state "default" with
               | Some v => py_items v
               | None => Ok []
               end ;;
   fr1 <- foldM (default_metric snapshot) defaults fr ;;
   foldM (fun fr service_dict => foldM (check_service service_dict) fail_state fr)
         snapshot fr1)%result.

(** [server_status_check(tasks)], with
    [fail_state = base_config["status_checks"]["fail_state"]]. *)
Definition server_status_check (fail_state : dict) (tasks : list (list dict))
    : result Final :=
  foldM (check_snapshot fail_state) tasks [].

End RuleEvaluator.

(** ** src/monitoring_status.py: the gap-filling fetch [get_instance_metrics] *)

Module MetricsCache.

(** One datapoint of a series: [{"Timestamp", "Value", "Unit"}], with
    [volume_id] and [partition] on the per-volume series. *)
Record Point : Type := mkPoint {
  Timestamp : Z;
  Value : Q;
  Unit : string;
  volume_id : option string;
  partition : option string
}.

(** [_source] of a hit of the [ec2_metrics] index. *)
Record Source : Type := mkSource {
  src_timestamp : Z;
  src_value : Q;
  src_unit : string;
  src_volume_id : option string;
  src_partition : option string
}.

(** One search of the msearch body built by [build_msearch_body]: index
    [ec2_metrics], size 10000, sorted by ascending timestamp, [must] terms
    on instance and metric and a range on the timestamp. *)
Record SearchQuery : Type := mkSearchQuery {
  q_index : string;
  q_size : Z;
  q_instance_id : string;
  q_metric : string;
  q_gte : Z;
  q_lte : Z
}.

(** A call of [cw_client.get_metric_statistics]. *)
Record Request : Type := mkRequest {
  Namespace : string;
  MetricName : string;
  Dimensions : list (string * string);
  StartTime : Z;
  EndTime : Z;
  Period : Z;
  Statistics : string;
  RequestUnit : string
}.

(** A datapoint of the response, with the value of the requested
    statistic. *)
Record Datapoint : Type := mkDatapoint {
  dp_timestamp : Z;
  dp_stat : Q
}.

(** One action of the bulk request that persists new points. *)
Record Action : Type := mkAction {
  a_index : string;
  a_timestamp : Z;
  a_value : Q;
  a_unit : string;
  a_instance_id : string;
  a_metric : string;
  a_volume_id : option string;
  a_partition : option string
}.

(** One entry of [BlockDeviceMappings]. *)
Record Mapping : Type := mkMapping {
  DeviceName : string;
  VolumeId : string
}.

(** The external collaborators.  [describe_instances] answers with the
    reservations, each a list of instances, each instance given by its
    block device mappings; [bandwidth_gbps] stands for
    [INSTANCE_BW_CACHE.get(t) or await lookup_bandwidth_gbps(t, region)]. *)
Record Env : Type := mkEnv {
  describe_instances : string -> result (list (list (list Mapping)));
  msearch : list SearchQuery -> result (list (list Source));
  get_metric_statistics : Request -> result (list Datapoint);
  bandwidth_gbps : string -> result Q
}.

(** What a run leaves behind: the metric requests it sent and the bulk
    requests it sent, oldest first. *)
Record World : Type := mkWorld {
  fetches : list Request;
  bulk_requests : list (list Action)
}.

Definition G (A : Type) : Type := World -> result A * World.

Definition ret {A} (a : A) : G A := fun w => (Ok a, w).
Definition raise {A} (e : exn) : G A := fun w => (Raise e, w).
Definition bind {A B} (m : G A) (k : A -> G B) : G B :=
  fun w => match m w with
           | (Ok a, w') => k a w'
           | (Raise e, w') => (Raise e, w')
           end.
Definition lift {A} (r : result A) : G A := fun w => (r, w).

Declare Scope metrics_scope.
Delimit Scope metrics_scope with metrics.
Notation "x <-- m ;; k" := (bind m (fun x => k))
  (at level 100, m at next level, right associativity) : metrics_scope.

(** A loop whose body talks to the outside. *)
Fixpoint foldG {S A : Type} (f : S -> A -> G S) (l : list A) (s : S) : G S :=
  match l with
  | [] => ret s
  | x :: rest => bind (f s x) (fun s' => foldG f rest s')
  end.

(** *** es_bulk_load *)

Definition build_msearch_body (labels : list string) (instance_id : string)
    (start_iso end_iso : Z) : list SearchQuery :=
  map (fun label =>
         {| q_index := "ec2_metrics"; q_size := 10000;
            q_instance_id := instance_id; q_metric := label;
            q_gte := start_iso; q_lte := end_iso |}) labels.

Definition doc_of_source (src : Source) : result Point :=
  match src_volume_id src with
  | Some v =>
      match src_partition src with
      | Some p => Ok {| Timestamp := src_timestamp src; Value := src_value src;
                        Unit := src_unit src; volume_id := Some v;
                        partition := Some p |}
      | None => Raise (KeyError "partition")
      end
  | None => Ok {| Timestamp := src_timestamp src; Value := src_value src;
                  Unit := src_unit src; volume_id := None; partition := None |}
  end.

Fixpoint docs_of_hits (hits : list Source) : result (list Point) :=
  match hits with
  | [] => Ok []
  | h :: rest =>
      (doc <- doc_of_source h ;;
       docs <- docs_of_hits rest ;;
       Ok (doc :: docs))%result
  end.

(** [for label, sub in zip(labels, responses): out[label] = docs] *)
Fixpoint collect_responses (labels : list string) (responses : list (list Source))
    (out : gmap string (list Point)) : result (gmap string (list Point)) :=
  match labels, responses with
  | label :: labels', sub :: responses' =>
      (docs <- docs_of_hits sub ;;
       collect_responses labels' responses' (<[label := docs]> out))%result
  | _, _ => Ok out
  end.

Definition es_bulk_load (env : Env) (labels : list string) (instance_id : string)
    (start_iso end_iso : Z) : result (gmap string (list Point)) :=
  (responses <- msearch env (build_msearch_body labels instance_id start_iso end_iso) ;;
   collect_responses labels responses ∅)%result.

(** *** es_bulk_index *)

(** [all_actions[i : i + 500] for i in range(0, len(all_actions), 500)] *)
Definition chunks (all_actions : list Action) : list (list Action) :=
  map (fun i => firstn 500 (skipn (i * 500) all_actions))
      (seq 0 ((length all_actions + 499) / 500)).

Definition es_bulk_index (all_actions : list Action) : G unit :=
  fun w =>
    (Ok tt, {| fetches := fetches w;
               bulk_requests := bulk_requests w ++ chunks all_actions |}).

(** *** fetch_metric *)

(** [sorted(..., key=lambda d: d["Timestamp"])], stable. *)
Fixpoint insert_by_timestamp (p : Point) (l : list Point) : list Point :=
  match l with
  | [] => [p]
  | q :: rest =>
      if Z.leb (Timestamp p) (Timestamp q) then p :: q :: rest
      else q :: insert_by_timestamp p rest
  end.

Definition sort_by_timestamp (l : list Point) : list Point :=
  fold_right insert_by_timestamp [] l.

Definition fetch_metric (env : Env) (period : Z)
    (namespace name : string) (dims : list (string * string))
    (unit stat : string) (fetch_start fetch_end : Z) : G (list Point) :=
  fun w =>
    let request := {| Namespace := namespace; MetricName := name;
                      Dimensions := dims; StartTime := fetch_start;
                      EndTime := fetch_end; Period := period;
                      Statistics := stat; RequestUnit := unit |} in
    let w' := {| fetches := fetches w ++ [request];
                 bulk_requests := bulk_requests w |} in
    match get_metric_statistics env request with
    | Ok dps =>
        (Ok (sort_by_timestamp
               (map (fun dp => {| Timestamp := dp_timestamp dp; Value := dp_stat dp;
                                  Unit := unit; volume_id := None;
                                  partition := None |}) dps)), w')
    | Raise e => (Raise e, w')
    end.

(** *** the merge of cached and fetched points *)

(** [max(d["Timestamp"] for d in existing) + timedelta(seconds=period)
    if existing else start_time] *)
Definition fetch_start_of (existing : list Point) (start_time period : Z) : Z :=
  match existing with
  | [] => start_time
  | d :: rest => fold_left Z.max (map Timestamp rest) (Timestamp d) + period
  end.

Definition action_of (instance_id label : string) (dp : Point) : Action :=
  {| a_index := "ec2_metrics"; a_timestamp := Timestamp dp; a_value := Value dp;
     a_unit := Unit dp; a_instance_id := instance_id; a_metric := label;
     a_volume_id := volume_id dp; a_partition := partition dp |}.

(** The five per-volume CloudWatch metrics and their fields in [vol_data]
    ([key_map]). *)
Inductive VolumeMetric : Type :=
| VolumeReadBytes | VolumeWriteBytes | VolumeReadOps | VolumeWriteOps | VolumeIdleTime.

Definition volume_metrics : list VolumeMetric :=
  [VolumeReadBytes; VolumeWriteBytes; VolumeReadOps; VolumeWriteOps; VolumeIdleTime].

Definition cw_name (m : VolumeMetric) : string :=
  match m with
  | VolumeReadBytes => "VolumeReadBytes"
  | VolumeWriteBytes => "VolumeWriteBytes"
  | VolumeReadOps => "VolumeReadOps"
  | VolumeWriteOps => "VolumeWriteOps"
  | VolumeIdleTime => "VolumeIdleTime"
  end.

(** ["Seconds" if "IdleTime" in cw_metric else "Count" if "Ops" in
    cw_metric else "Bytes"] *)
Definition volume_unit (m : VolumeMetric) : string :=
  match m with
  | VolumeIdleTime => "Seconds"
  | VolumeReadOps | VolumeWriteOps => "Count"
  | VolumeReadBytes | VolumeWriteBytes => "Bytes"
  end.

(** An entry of [vol_data]. *)
Record VolEntry : Type := mkVolEntry {
  device : string;
  entry_volume_id : string;
  read_bytes : list Point;
  write_bytes : list Point;
  read_ops : list Point;
  write_ops : list Point;
  idle_time : list Point
}.

(** [entry[key_map[cw_metric]] = combined] *)
Definition set_field (m : VolumeMetric) (combined : list Point) (e : VolEntry) : VolEntry :=
  match m with
  | VolumeReadBytes =>
      {| device := device e; entry_volume_id := entry_volume_id e;
         read_bytes := combined; write_bytes := write_bytes e;
         read_ops := read_ops e; write_ops := write_ops e; idle_time := idle_time e |}
  | VolumeWriteBytes =>
      {| device := device e; entry_volume_id := entry_volume_id e;
         read_bytes := read_bytes e; write_bytes := combined;
         read_ops := read_ops e; write_ops := write_ops e; idle_time := idle_time e |}
  | VolumeReadOps =>
      {| device := device e; entry_volume_id := entry_volume_id e;
         read_bytes := read_bytes e; write_bytes := write_bytes e;
         read_ops := combined; write_ops := write_ops e; idle_time := idle_time e |}
  | VolumeWriteOps =>
      {| device := device e; entry_volume_id := entry_volume_id e;
         read_bytes := read_bytes e; write_bytes := write_bytes e;
         read_ops := read_ops e; write_ops := combined; idle_time := idle_time e |}
  | VolumeIdleTime =>
      {| device := device e; entry_volume_id := entry_volume_id e;
         read_bytes := read_bytes e; write_bytes := write_bytes e;
         read_ops := read_ops e; write_ops := write_ops e; idle_time := combined |}
  end.

(** [vol_data.setdefault(part, {...})] followed by the field update; the
    dict keeps the order in which the mount points first appear. *)
Fixpoint stash (vol_data : list (string * VolEntry)) (part dev vol : string)
    (m : VolumeMetric) (combined : list Point) : list (string * VolEntry) :=
  match vol_data with
  | [] =>
      [(part, set_field m combined
                {| device := dev; entry_volume_id := vol; read_bytes := [];
                   write_bytes := []; read_ops := []; write_ops := [];
                   idle_time := [] |})]
  | (p, e) :: rest =>
      if String.eqb p part then (p, set_field m combined e) :: rest
      else (p, e) :: stash rest part dev vol m combined
  end.

(** One element of [vol_tasks]: (dev, vol, cw_metric, label, dims). *)
Record VolTask : Type := mkVolTask {
  task_dev : string;
  task_vol : string;
  task_metric : VolumeMetric;
  task_label : string;
  task_dims : list (string * string)
}.

(** The state of the function between its numbered parts. *)
Record Merge : Type := mkMerge {
  results : gmap string (list Point);
  all_actions : list Action;
  vol_data : list (string * VolEntry)
}.

Section GetInstanceMetrics.
Variable env : Env.
Variable instance_id : string.
Variable start_time end_time : Z.
Variable instance_type : string.
Variable active_fetch_cloudwatch : bool.
Variable period : Z.
Variable partition_map : option (gmap string string).

(** [METRICS]: label -> (namespace, name, dims, unit, stat) *)
Definition METRICS : list (string * (string * string * list (string * string) * string * string)) :=
  [("cpu", ("AWS/EC2", "CPUUtilization", [("InstanceId", instance_id)], "Percent", "Average"));
   ("network_in", ("AWS/EC2", "NetworkIn", [("InstanceId", instance_id)], "Bytes", "Average"));
   ("network_out", ("AWS/EC2", "NetworkOut", [("InstanceId", instance_id)], "Bytes", "Average"))].

(** [vol_tasks] for the block device mappings of the instance. *)
Definition vol_tasks_of (mappings : list Mapping) : list VolTask :=
  flat_map (fun mapping =>
              map (fun cw_metric =>
                     {| task_dev := DeviceName mapping; task_vol := VolumeId mapping;
                        task_metric := cw_metric;
                        task_label := VolumeId mapping +:+ "__" +:+ cw_name cw_metric;
                        task_dims := [("VolumeId", VolumeId mapping)] |})
                  volume_metrics)
           mappings.

(** 1: body of [for label, (ns, name, dims, unit, stat) in METRICS.items()] *)
Definition merge_instance_metric (loaded : gmap string (list Point)) (st : Merge)
    (item : string * (string * string * list (string * string) * string * string))
    : G Merge :=
  let '(label, (ns, name, dims, unit, stat)) := item in
  let existing := default [] (loaded !! label) in
  let st1 := {| results := <[label := existing]> (results st);
                all_actions := all_actions st; vol_data := vol_data st |} in
  if active_fetch_cloudwatch then
    let fetch_start := fetch_start_of existing start_time period in
    if Z.ltb fetch_start end_time then
      (new_pts <-- fetch_metric env period ns name dims unit stat fetch_start end_time ;;
       ret {| results := <[label := existing ++ new_pts]> (results st);
              all_actions := all_actions st ++ map (action_of instance_id label) new_pts;
              vol_data := vol_data st |})%metrics
    else ret st1
  else ret st1.

(** The mount point of a volume. *)
Definition part_of (dev vol : string) : string :=
  if String.eqb dev "/dev/sda1" then "/"
  else
    match partition_map with
    | Some pm =>
        match pm !! vol with
        | Some part => part
        | None => dev
        end
    | None => dev
    end.

(** 2: body of [for dev, vol, cw_metric, label, dims in vol_tasks] *)
Definition merge_volume_metric (loaded : gmap string (list Point)) (st : Merge)
    (task : VolTask) : G Merge :=
  let dev := task_dev task in
  let vol := task_vol task in
  let cw_metric := task_metric task in
  let label := task_label task in
  let existing := default [] (loaded !! label) in
  let part := part_of dev vol in
  let finish (combined : list Point) (actions : list Action) : Merge :=
    {| results := results st; all_actions := actions;
       vol_data := stash (vol_data st) part dev vol cw_metric combined |} in
  if active_fetch_cloudwatch then
    let fetch_start := fetch_start_of existing start_time period in
    if Z.ltb fetch_start end_time then
      (new_pts <-- fetch_metric env period "AWS/EBS" (cw_name cw_metric) (task_dims task)
                     (volume_unit cw_metric) "Sum" fetch_start end_time ;;
       let tagged := map (fun dp => {| Timestamp := Timestamp dp; Value := Value dp;
                                       Unit := Unit dp; volume_id := Some vol;
                                       partition := Some part |}) new_pts in
       ret (finish (existing ++ tagged)
              (all_actions st ++ map (action_of instance_id label) tagged)))%metrics
    else ret (finish existing (all_actions st))
  else ret (finish existing (all_actions st)).

(** [{d["Timestamp"]: d for d in series}] *)
Definition by_timestamp (series : list Point) : gmap Z Point :=
  fold_left (fun m d => <[Timestamp d := d]> m) series ∅.

(** [sorted(a.keys() & b.keys())] *)
Definition common_timestamps (a b : gmap Z Point) : list Z :=
  merge_sort Z.le (elements (dom a ∩ dom b)).

(** [round(x, 3)]: to the nearest thousandth, ties to even. *)
Definition round_half_even (x : Q) : Z :=
  let f := Qfloor x in
  let r := (x - inject_Z f)%Q in
  if negb (Qle_bool (1 # 2) r) then f
  else if negb (Qle_bool r (1 # 2)) then f + 1
  else if Z.even f then f else f + 1.

Definition round3 (x : Q) : Q :=
  (inject_Z (round_half_even (x * 1000)) / 1000)%Q.

(** 4: the derived network series. *)
Definition network_totals (in_series out_series : list Point) (bw_bps : option Q)
    : list Point * list Point :=
  let in_map := by_timestamp in_series in
  let out_map := by_timestamp out_series in
  let common_ts := common_timestamps in_map out_map in
  fold_left
    (fun acc ts =>
       match in_map !! ts, out_map !! ts with
       | Some i, Some o =>
           let s := (Value i + Value o)%Q in
           let raw := fst acc ++ [{| Timestamp := ts; Value := s; Unit := "Bytes";
                                     volume_id := None; partition := None |}] in
           match bw_bps with
           | Some bw =>
               if Qeq_bool bw 0 then (raw, snd acc)
               else (raw, snd acc ++
                          [{| Timestamp := ts;
                              Value := round3 (s * 8 / bw * 100);
                              Unit := "Percent"; volume_id := None;
                              partition := None |}])
           | None => (raw, snd acc)
           end
       | _, _ => acc
       end)
    common_ts ([], []).

Definition derive_network (res : gmap string (list Point))
    : result (gmap string (list Point)) :=
  let in_series := default [] (res !! "network_in") in
  let out_series := default [] (res !! "network_out") in
  match in_series, out_series with
  | _ :: _, _ :: _ =>
      (bw_bps <- (if String.eqb instance_type EmptyString then Ok None
                  else (gbps <- bandwidth_gbps env instance_type ;;
                        Ok (Some (gbps * 1000000000)%Q))) ;;
       let (total_raw, total_pct) := network_totals in_series out_series bw_bps in
       let res1 := <["network_total" := total_raw]> res in
       Ok (match total_pct with
           | [] => res1
           | _ :: _ => <["network_total_pct" := total_pct]> res1
           end))%result
  | _, _ => Ok res
  end.

(** 5: the derived per-mount series. *)
Definition derived_point (ts : Z) (v : Q) (unit vol_id part : string) : Point :=
  {| Timestamp := ts; Value := v; Unit := unit;
     volume_id := Some vol_id; partition := Some part |}.

(** [(a[ts]["Value"] + b[ts]["Value"]) / period] for the common
    timestamps; the division raises when the period is zero. *)
Definition rate_series (a b : list Point) (unit vol_id part : string)
    : result (list Point) :=
  let am := by_timestamp a in
  let bm := by_timestamp b in
  match common_timestamps am bm with
  | [] => Ok []
  | tss =>
      if Z.eqb period 0 then Raise ZeroDivisionError
      else Ok (omap (fun ts =>
                       match am !! ts, bm !! ts with
                       | Some x, Some y =>
                           Some (derived_point ts
                                   ((Value x + Value y) / inject_Z period)%Q
                                   unit vol_id part)
                       | _, _ => None
                       end) tss)
  end.

Definition idle_series (it : list Point) (vol_id part : string) : result (list Point) :=
  let im := by_timestamp it in
  match merge_sort Z.le (elements (dom im)) with
  | [] => Ok []
  | tss =>
      if Z.eqb period 0 then Raise ZeroDivisionError
      else Ok (omap (fun ts =>
                       match im !! ts with
                       | Some x =>
                           Some (derived_point ts
                                   (round3 (Value x / inject_Z period * 100))%Q
                                   "Percent" vol_id part)
                       | None => None
                       end) tss)
  end.

Definition derive_mount (res : gmap string (list Point)) (item : string * VolEntry)
    : result (gmap string (list Point)) :=
  let (part, data) := item in
  let vol_id := entry_volume_id data in
  (throughput <- rate_series (read_bytes data) (write_bytes data) "Bytes" vol_id part ;;
   operations <- rate_series (read_ops data) (write_ops data) "Ops/s" vol_id part ;;
   idle <- idle_series (idle_time data) vol_id part ;;
   Ok (<[part +:+ "_idle_time_pct" := idle]>
         (<[part +:+ "_operations" := operations]>
            (<[part +:+ "_throughput" := throughput]> res))))%result.

Fixpoint derive_mounts (res : gmap string (list Point)) (vd : list (string * VolEntry))
    : result (gmap string (list Point)) :=
  match vd with
  | [] => Ok res
  | item :: rest => (res' <- derive_mount res item ;; derive_mounts res' rest)%result
  end.

(** [desc["Reservations"][0]["Instances"][0]["BlockDeviceMappings"]], or
    the empty list on [IndexError]. *)
Definition mappings_of (desc : list (list (list Mapping))) : list Mapping :=
  match desc with
  | (mappings :: _) :: _ => mappings
  | _ => []
  end.

(** What the function does once the instance is described. *)
Definition merge_and_derive (mappings : list Mapping) : G (gmap string (list Point)) :=
  let vol_tasks := vol_tasks_of mappings in
  let metric_labels := map fst METRICS ++ map task_label vol_tasks in
  (loaded <-- lift (es_bulk_load env metric_labels instance_id start_time end_time) ;;
   st1 <-- foldG (merge_instance_metric loaded) METRICS
             {| results := ∅; all_actions := []; vol_data := [] |} ;;
   st2 <-- foldG (merge_volume_metric loaded) vol_tasks st1 ;;
   _ <-- (if active_fetch_cloudwatch && negb (Nat.eqb (length (all_actions st2)) 0)
          then es_bulk_index (all_actions st2) else ret tt) ;;
   res4 <-- lift (derive_network (results st2)) ;;
   lift (derive_mounts res4 (vol_data st2)))%metrics.

Definition get_instance_metrics : G (gmap string (list Point)) :=
  fun w =>
    match describe_instances env instance_id with
    | Raise (ClientError code text) =>
        if bool_decide (code = Some "InvalidInstanceID.NotFound")
        then (Ok ∅, w)
        else (Raise (ClientError code text), w)
    | Raise e => (Raise e, w)
    | Ok desc => merge_and_derive (mappings_of desc) w
    end.

End GetInstanceMetrics.

End MetricsCache.

(** ** src/instance_usage_measurement.py: the sizing decision [recommend_instance] *)

Module InstanceUsage.

Local Open Scope Q_scope.

Definition BYTES_PER_MIB : Q := inject_Z (1024 * 1024).

(** A float with a fractional part. *)
Definition has_fraction (q : Q) : bool :=
  negb (Z.eqb (Z.modulo (Qnum q) (Zpos (Qden q))) 0).

(** [_to_mib(val)] *)
Definition _to_mib (val : option Q) : Q :=
  match val with
  | None => 0
  | Some v =>
      if Qeq_bool v 0 then 0
      else if has_fraction v then v
      else if negb (Qle_bool 8192000 v) then v
      else v / BYTES_PER_MIB
  end.

(** What [describe_instance_types] tells about a type. *)
Record Specs : Type := mkSpecs {
  vcpus : Z;
  memory_mib : Z;
  architectures : list string
}.

(** The provider's catalogue of instance types, in the order its paginator
    lists them. *)
Definition Catalog : Type := list (string * Specs).

(** [get_instance_specs(instance_type)]; the caches in front of the API do
    not change its answers. *)
Fixpoint get_instance_specs (catalog : Catalog) (instance_type : string) : result Specs :=
  match catalog with
  | [] => Raise (ClientError (Some "InvalidInstanceType") instance_type)
  | (it, specs) :: rest =>
      if String.eqb it instance_type then Ok specs
      else get_instance_specs rest instance_type
  end.

(** [list_instance_types(family_prefix)] *)
Definition list_instance_types (catalog : Catalog) (family_prefix : string) : list string :=
  filter (fun it => String.prefix (family_prefix +:+ ".") it = true) (map fst catalog).

(** [get_dynamic_itil_swap(memory_mib, max_factor, min_factor,
    decay_scale_mib)]; the exponential is the real one. *)
Definition get_dynamic_itil_swap (memory_mib : Z) (max_factor min_factor : R)
    (decay_scale_mib : Z) : Z :=
  let interp := exp (- IZR memory_mib / IZR decay_scale_mib)%R in
  let factor := (min_factor + (max_factor - min_factor) * interp)%R in
  Zceil (IZR memory_mib * factor)%R.

(** The call [get_dynamic_itil_swap(total_ram_mib)] with the defaults
    2.0, 1.0 and 16 * 1024. *)
Definition recommended_swap (total_ram_mib : Z) : Z :=
  get_dynamic_itil_swap total_ram_mib 2%R 1%R (16 * 1024).

(** The [ram] blob of an agent report and one entry of its [disk] list;
    an absent or null field is [None]. *)
Record RamInfo : Type := mkRamInfo {
  ram_total : option Q;
  ram_used : option Q;
  ram_percentage : option Q
}.

Record DiskEntry : Type := mkDiskEntry {
  disk_partition : option string;
  disk_used : option Q;
  disk_total : option Q
}.

(** A blob of a task: a dict with its [ram] and [disk] fields, or
    something that is not a dict. *)
Inductive Blob : Type :=
| BlobDict (ram : option RamInfo) (disk : option (list DiskEntry))
| BlobOther.

(** A task: a list (or tuple) of blobs, or something else. *)
Inductive Task : Type :=
| TaskBlobs (blobs : list Blob)
| TaskOther.

(** A CloudWatch datapoint of the host; [Value] may be null. *)
Record CwPoint : Type := mkCwPoint {
  Value : option Q
}.

Record Host : Type := mkHost {
  InstanceType : string;
  cloudwatch_cpu : list CwPoint;
  cloudwatch_network_total_pct : list CwPoint;
  tasks : list Task
}.

(** [_extract_ram_from_tasks(tasks)]: (total_mib, used_mib, pct) of the
    first blob with a [ram] field. *)
Definition ram_of (r : RamInfo) : Q * Q * Q :=
  let total := _to_mib (ram_total r) in
  let used := _to_mib (ram_used r) in
  let computed := if Qeq_bool total 0 then 0 else used / total * 100 in
  let pct := match ram_percentage r with
             | Some p => if Qeq_bool p 0 then computed else p
             | None => computed
             end in
  (total, used, pct).

Fixpoint first_ram (blobs : list Blob) : option RamInfo :=
  match blobs with
  | [] => None
  | BlobDict (Some r) _ :: _ => Some r
  | _ :: rest => first_ram rest
  end.

Fixpoint _extract_ram_from_tasks (tasks : list Task) : Q * Q * Q :=
  match tasks with
  | [] => (0, 0, 0)
  | TaskBlobs blobs :: rest =>
      match first_ram blobs with
      | Some r => ram_of r
      | None => _extract_ram_from_tasks rest
      end
  | TaskOther :: rest => _extract_ram_from_tasks rest
  end.

(** [statistics.mean] of a non-empty list *)
Definition mean (vals : list Q) : Q :=
  fold_right Qplus 0 vals / inject_Z (Z.of_nat (length vals)).

(** [_mean_cpu_pct(points)] *)
Definition _mean_cpu_pct (points : list CwPoint) : Q :=
  let vals := omap Value points in
  match vals with
  | [] => 0
  | _ :: _ =>
      let m := mean vals in
      if Qle_bool m 1 then m * 100 else m
  end.

(** The locals of the SWAP block: (used_swap_mib, configured_swap_mib,
    swap_pct). *)
Record Swap : Type := mkSwap {
  used_swap_mib : Q;
  configured_swap_mib : Q;
  swap_pct : Q
}.

(** [for d in t[1].get("disk", []) or []]: the first entry of the swap
    partition, if any, sets the locals and ends the loop. *)
Fixpoint scan_disk (ds : list DiskEntry) (s : Swap) : Swap :=
  match ds with
  | [] => s
  | d :: rest =>
      if bool_decide (disk_partition d = Some "swap") then
        let used := _to_mib (disk_used d) in
        let configured := _to_mib (disk_total d) in
        {| used_swap_mib := used; configured_swap_mib := configured;
           swap_pct := if Qeq_bool configured 0 then swap_pct s
                       else used / configured * 100 |}
      else scan_disk rest s
  end.

(** [for t in host.get("tasks", [])]; [t[1].get] raises when the second
    blob is not a dict. *)
Fixpoint scan_tasks (tasks : list Task) (s : Swap) : result Swap :=
  match tasks with
  | [] => Ok s
  | TaskBlobs (_ :: BlobDict _ disk :: _) :: rest =>
      let s' := scan_disk (default [] disk) s in
      if Qeq_bool (configured_swap_mib s') 0 then scan_tasks rest s' else Ok s'
  | TaskBlobs (_ :: BlobOther :: _) :: _ => Raise (AttributeError "get")
  | _ :: rest => scan_tasks rest s
  end.

(** [min(rec_swap_mib, configured_swap_mib) if configured_swap_mib else
    rec_swap_mib] *)
Definition effective_swap (rec_swap_mib : Z) (configured : Q) : Q :=
  if Qeq_bool configured 0 then inject_Z rec_swap_mib
  else if negb (Qle_bool (inject_Z rec_swap_mib) configured)
       then configured else inject_Z rec_swap_mib.

(** [statistics.mean(net_vals) if net_vals else 0.0]; a null value makes
    the mean raise. *)
Fixpoint values_of (points : list CwPoint) : result (list Q) :=
  match points with
  | [] => Ok []
  | p :: rest =>
      match Value p with
      | Some v => (vs <- values_of rest ;; Ok (v :: vs))%result
      | None => Raise (TypeError "can't convert type 'NoneType' to numerator/denominator")
      end
  end.

Definition net_pct_of (points : list CwPoint) : result Q :=
  (net_vals <- values_of points ;;
   Ok (match net_vals with
       | [] => 0
       | _ :: _ => mean net_vals
       end))%result.

(** [re.match(r"^(.*?)\.", current).group(1)]: what precedes the first
    dot, when no newline precedes it. *)
Fixpoint family_of (current : string) : option string :=
  match current with
  | EmptyString => None
  | String c rest =>
      if Ascii.eqb c "."%char then Some EmptyString
      else if Ascii.eqb c "010"%char then None
      else option_map (String c) (family_of rest)
  end.

(** [sorted(..., key=lambda it: (vcpus, memory_mib))], stable. *)
Definition key_le (a b : Z * Z) : bool :=
  Z.ltb (fst a) (fst b) || (Z.eqb (fst a) (fst b) && Z.leb (snd a) (snd b)).

Fixpoint insert_by_size (x : string * Specs) (l : list (string * Specs))
    : list (string * Specs) :=
  match l with
  | [] => [x]
  | y :: rest =>
      if key_le (vcpus (snd x), memory_mib (snd x)) (vcpus (snd y), memory_mib (snd y))
      then x :: y :: rest
      else y :: insert_by_size x rest
  end.

(** The candidate types with their specs: the types of the family that
    share an architecture with the current one, by ascending size. *)
Fixpoint with_specs (catalog : Catalog) (names : list string)
    : result (list (string * Specs)) :=
  match names with
  | [] => Ok []
  | it :: rest =>
      (sp <- get_instance_specs catalog it ;;
       more <- with_specs catalog rest ;;
       Ok ((it, sp) :: more))%result
  end.

Definition shares_architecture (arch_curr : list string) (sp : Specs) : bool :=
  existsb (fun a => bool_decide (a ∈ architectures sp)) arch_curr.

Definition candidates (catalog : Catalog) (family : string) (arch_curr : list string)
    : result (list (string * Specs)) :=
  (all <- with_specs catalog (list_instance_types catalog family) ;;
   Ok (fold_right insert_by_size []
         (filter (fun x => shares_architecture arch_curr (snd x) = true) all)))%result.

(** [pick_smallest(v_need, m_need)] *)
Fixpoint first_fit (cands : list (string * Specs)) (v_need : Z) (m_need : Q)
    : option string :=
  match cands with
  | [] => None
  | (it, sp) :: rest =>
      if Z.leb v_need (vcpus sp) && Qle_bool m_need (inject_Z (memory_mib sp))
      then Some it else first_fit rest v_need m_need
  end.

Definition pick_smallest (cands : list (string * Specs)) (v_need : Z) (m_need : Q)
    : result string :=
  match first_fit cands v_need m_need with
  | Some it => Ok it
  | None =>
      match last cands with
      | Some (it, _) => Ok it
      | None => Raise (PyError "IndexError" "list index out of range")
      end
  end.

(** [_cmp_size(a, b)] *)
Definition _cmp_size (catalog : Catalog) (a b : string) : result Z :=
  (sa <- get_instance_specs catalog a ;;
   sb <- get_instance_specs catalog b ;;
   let sign (x y : Z) : Z :=
     ((if Z.ltb y x then 1 else 0) - (if Z.ltb x y then 1 else 0))%Z in
   Ok (if negb (Z.eqb (vcpus sa) (vcpus sb)) then sign (vcpus sa) (vcpus sb)
       else sign (memory_mib sa) (memory_mib sb)))%result.

(** [x / y] on floats *)
Definition py_div (x y : Q) : result Q :=
  if Qeq_bool y 0 then Raise ZeroDivisionError else Ok (x / y).

(** The six thresholds. *)
Record Thresholds : Type := mkThresholds {
  cpu_upper : Q;
  cpu_lower : Q;
  swap_upper : Q;
  swap_lower : Q;
  net_upper : Q;
  net_lower : Q
}.

Definition default_thresholds : Thresholds :=
  {| cpu_upper := 75; cpu_lower := 25; swap_upper := 75; swap_lower := 25;
     net_upper := 75; net_lower := 25 |}.

(** The lines of [Reason], with the numbers they interpolate. *)
Inductive ReasonLine : Type :=
| ScaleUp (req_vcpus : Z) (req_mem_up : Q) (mem_total_mib : Q)
| ScaleDown (target : string) (req_mem_min : Q)
| NoChange
| RamUsage (mem_used_mib mem_total_mib mem_pct : Q).

Record Recommendation : Type := mkRecommendation {
  NewInstanceType : string;
  Reason : list ReasonLine;
  changed : bool;
  MemoryUsedMiB : Q;
  MemoryTotalMiB : Q;
  MemoryPct : Q
}.

(** The locals of [recommend_instance] up to the choice of the target. *)
Record Sizing : Type := mkSizing {
  cpu_pct : Q;
  req_vcpus : Z;
  mem_total_mib : Q;
  mem_used_mib : Q;
  mem_pct : Q;
  swap : Swap;
  rec_swap_mib : Z;
  effective_swap_mib : Q;
  net_pct : Q;
  cands : list (string * Specs);
  over : bool;
  under : bool;
  req_mem_up : Q;
  req_mem_min : Q
}.

Definition sizing (catalog : Catalog) (host : Host) (th : Thresholds) : result Sizing :=
  let current := InstanceType host in
  (specs <- get_instance_specs catalog current ;;
   let total_ram_mib := memory_mib specs in
   let cpu := _mean_cpu_pct (cloudwatch_cpu host) in
   let req_v := Z.max 1 (Qceiling (inject_Z (vcpus specs) * cpu / 100 * 2)) in
   let '(mem_total, mem_used, mem_p) := _extract_ram_from_tasks (tasks host) in
   sw <- scan_tasks (tasks host)
           {| used_swap_mib := 0; configured_swap_mib := 0; swap_pct := 0 |} ;;
   let rec_swap := recommended_swap total_ram_mib in
   let effective := effective_swap rec_swap (configured_swap_mib sw) in
   net <- net_pct_of (cloudwatch_network_total_pct host) ;;
   family <- match family_of current with
             | Some f => Ok f
             | None => Raise (AttributeError "'NoneType' object has no attribute 'group'")
             end ;;
   cs <- candidates catalog family (architectures specs) ;;
   let ov := negb (Qle_bool cpu (cpu_upper th))
             || negb (Qle_bool (swap_pct sw) (swap_upper th))
             || negb (Qle_bool net (net_upper th)) in
   let un := negb (Qle_bool (cpu_lower th) cpu)
             && negb (Qle_bool (swap_lower th) (swap_pct sw))
             && negb (Qle_bool (net_lower th) net) in
   required_ram_up <-
     (if Qeq_bool (configured_swap_mib sw) 0 then Ok (inject_Z total_ram_mib)
      else
        x <- py_div (used_swap_mib sw * 100) (swap_upper th) ;;
        let r := inject_Z (Qceiling x) - configured_swap_mib sw in
        Ok (if negb (Qle_bool (inject_Z total_ram_mib) r) then inject_Z total_ram_mib
            else r)) ;;
   _ <- (if Qeq_bool (configured_swap_mib sw) 0 then Ok (inject_Z total_ram_mib)
         else
           x <- py_div (used_swap_mib sw * 100) (swap_lower th) ;;
           Ok (inject_Z (Qceiling x) - configured_swap_mib sw)) ;;
   Ok {| cpu_pct := cpu; req_vcpus := req_v;
         mem_total_mib := mem_total; mem_used_mib := mem_used; mem_pct := mem_p;
         swap := sw; rec_swap_mib := rec_swap; effective_swap_mib := effective;
         net_pct := net; cands := cs; over := ov; under := un;
         req_mem_up := required_ram_up + effective;
         req_mem_min := inject_Z (Qceiling mem_used) + effective |})%result.

(** [recommend_instance(host, cpu_upper, cpu_lower, swap_upper,
    swap_lower, net_upper, net_lower)] *)
Definition recommend_instance (catalog : Catalog) (host : Host) (th : Thresholds)
    : result Recommendation :=
  let current := InstanceType host in
  (s <- sizing catalog host th ;;
   target <- (if over s then pick_smallest (cands s) (req_vcpus s) (req_mem_up s)
              else if under s then pick_smallest (cands s) (req_vcpus s) (req_mem_min s)
              else Ok current) ;;
   cmp <- _cmp_size catalog target current ;;
   let first_line :=
     if Z.eqb cmp 1 then ScaleUp (req_vcpus s) (req_mem_up s) (mem_total_mib s)
     else if Z.eqb cmp (-1) then ScaleDown target (req_mem_min s)
     else NoChange in
   Ok {| NewInstanceType := target;
         Reason := [first_line;
                    RamUsage (mem_used_mib s) (mem_total_mib s) (mem_pct s)];
         changed := negb (Z.eqb cmp 0);
         MemoryUsedMiB := mem_used_mib s;
         MemoryTotalMiB := mem_total_mib s;
         MemoryPct := mem_pct s |})%result.

End InstanceUsage.

(** ** src/monitoring_status.py: [parse_es_shorthand] *)

Module TimeShorthand.

(** [datetime.min] and [datetime.max], in seconds on the UTC time line
    (year 1 to year 9999); arithmetic that leaves the range raises
    OverflowError. *)
Definition DATETIME_MIN : Z := -62135596800.
Definition DATETIME_MAX : Z := 253402300799.

(** [timedelta] accepts at most this many days. *)
Definition MAX_DELTA_DAYS : Z := 999999999.

Definition OverflowError (t : string) : exn := PyError "OverflowError" t.

(** [now + delta] on a [datetime] *)
Definition shift (now delta : Z) : result Z :=
  let t := now + delta in
  if Z.leb DATETIME_MIN t && Z.leb t DATETIME_MAX then Ok t
  else Raise (OverflowError "date value out of range").

(** [\d] on an ASCII string *)
Definition is_digit (c : ascii) : bool :=
  (48 <=? nat_of_ascii c)%nat && (nat_of_ascii c <=? 57)%nat.

Definition digit_value (c : ascii) : Z := Z.of_nat (nat_of_ascii c) - 48.

(** [int(value)], on a string of digits *)
Definition int_of_digits (ds : list ascii) : Z :=
  fold_left (fun acc c => acc * 10 + digit_value c) ds 0.

(** [(\d+)] is greedy: the longest run of digits at the head. *)
Fixpoint span_digits (s : string) : list ascii * string :=
  match s with
  | String c rest =>
      if is_digit c then
        let (ds, tail) := span_digits rest in (c :: ds, tail)
      else ([], s)
  | EmptyString => ([], s)
  end.

(** The seconds of one unit: the entry of the dict
    [{'s': timedelta(seconds=value), 'm': ..., 'h': ..., 'd': ...}]. *)
Definition unit_seconds (unit : ascii) : option Z :=
  if Ascii.eqb unit "s" then Some 1
  else if Ascii.eqb unit "m" then Some 60
  else if Ascii.eqb unit "h" then Some 3600
  else if Ascii.eqb unit "d" then Some 86400
  else None.

(** [re.match(r"now([-+])(\d+)([smhd])", time_str)]: the groups (sign,
    value, unit) when the head of the string has that shape; what follows
    the unit is not looked at. *)
Definition match_shorthand (time_str : string) : option (ascii * list ascii * ascii) :=
  match time_str with
  | String "n" (String "o" (String "w" (String sign rest))) =>
      if Ascii.eqb sign "-" || Ascii.eqb sign "+" then
        match span_digits rest with
        | (d :: ds, String unit _) =>
            match unit_seconds unit with
            | Some _ => Some (sign, d :: ds, unit)
            | None => None
            end
        | _ => None
        end
      else None
  | _ => None
  end.

(** [parse_es_shorthand(time_str)], with [now = datetime.utcnow()].  The
    dict of the four deltas is built before one is picked, so the value
    must be a valid number of days whatever the unit. *)
Definition parse_es_shorthand (now : Z) (time_str : string) : result Z :=
  if String.eqb time_str "now" then Ok now
  else
    match match_shorthand time_str with
    | None => Raise (ValueError ("Unsupported time format: " +:+ time_str))
    | Some (sign, digits, unit) =>
        let value := int_of_digits digits in
        if Z.ltb MAX_DELTA_DAYS value
        then Raise (OverflowError "days; must have magnitude <= 999999999")
        else
          match unit_seconds unit with
          | Some k =>
              if Ascii.eqb sign "-" then shift now (- (value * k))
              else shift now (value * k)
          | None => Raise (KeyError (String unit EmptyString))
          end
    end.

End TimeShorthand.

(** ** src/monitoring_status.py: [_process_host], the merge of a host's
    documents and the CloudWatch health check *)

Module ProcessHost.
Import RuleEvaluator.

Definition single_fields : list string :=
  [ "name"; "ip"; "Tags"; "Program"; "InstanceType"; "InstanceId"; "Region";
    "Provider"; "State"; "LaunchTime" ].

(** [aggregated.setdefault(field, val)]: a key that is there keeps its
    value, a new key goes to the end. *)
Fixpoint setdefault (d : dict) (k : string) (v : value) : dict :=
  match d with
  | [] => [(k, v)]
  | (k', v') :: rest =>
      if String.eqb k' k then d else (k', v') :: setdefault rest k v
  end.

(** [aggregated.setdefault(field, []).append(val)] *)
Fixpoint append_field (d : dict) (k : string) (v : value) : result dict :=
  match d with
  | [] => Ok [(k, VList [v])]
  | (k', v') :: rest =>
      if String.eqb k' k then
        match v' with
        | VList l => Ok ((k', VList (l ++ [v])) :: rest)
        | _ => Raise (AttributeError "append")
        end
      else (rest' <- append_field rest k v ;; Ok ((k', v') :: rest'))%result
  end.

(** Body of [for field, val in doc.items()]. *)
Definition aggregate_field (aggregated : dict) (item : string * value) : result dict :=
  let (field, val) := item in
  if existsb (String.eqb field) single_fields
  then Ok (setdefault aggregated field val)
  else append_field aggregated field val.

(** The merge loop: [aggregated] after [for doc in docs]. *)
Definition aggregate (ip : value) (docs : list dict) : result dict :=
  foldM (fun aggregated doc => foldM aggregate_field doc aggregated) docs [("ip", ip)].

(** A point of a series [get_instance_metrics] returns, as the dict it
    is. *)
Definition point_value (p : MetricsCache.Point) : value :=
  VDict ([ ("Timestamp", VTime (MetricsCache.Timestamp p));
           ("Value", VNum (MetricsCache.Value p));
           ("Unit", VStr (MetricsCache.Unit p)) ]
         ++ match MetricsCache.volume_id p with
            | Some v => [("volume_id", VStr v)]
            | None => []
            end
         ++ match MetricsCache.partition p with
            | Some v => [("partition", VStr v)]
            | None => []
            end).

(** The map of series [get_instance_metrics] returns, as a dict. *)
Definition metrics_value (res : gmap string (list MetricsCache.Point)) : value :=
  VDict (map (fun kv => (fst kv, VList (map point_value (snd kv)))) (map_to_list res)).

(** [aggregated["cloudwatch"]]: the series, or [{}] when loading them
    raised ([except Exception]). *)
Definition cloudwatch_of (loaded : result (gmap string (list MetricsCache.Point))) : value :=
  match loaded with
  | Ok res => metrics_value res
  | Raise _ => VDict []
  end.

(** [cloudwatch_result = server_status_check([[{"cloudwatch":
    aggregated["cloudwatch"]}]])] *)
Definition cloudwatch_result (fail_state : dict)
    (loaded : result (gmap string (list MetricsCache.Point))) : result Final :=
  server_status_check fail_state [ [ [("cloudwatch", cloudwatch_of loaded)] ] ].

End ProcessHost.

(** ** src/monitoring_status.py: [cluster_status], the scroll over the
    monitoring documents and the hand-off per host *)

Module ClusterStatus.
Import RuleEvaluator.

(** A hit of the [monitoring_data] index: the document and its sort
    values. *)
Record Hit : Type := mkHit {
  hit_source : dict;
  hit_sort : value
}.

(** The search body: [size], the time window, the optional match on
    [InstanceId], the sort order and the optional [search_after]. *)
Record Query : Type := mkQuery {
  q_size : Z;
  q_gte : Z;
  q_lte : Z;
  q_instance : option string;
  q_sort : list (string * string);
  q_search_after : option value
}.

(** The document store: the answer ([resp["hits"]["hits"]]) to the n-th
    search of a run. *)
Definition Search : Type := nat -> Query -> result (list Hit).

Definition base_query (start_iso end_iso : Z) (instance_id : option string) : Query :=
  {| q_size := 1000;
     q_gte := start_iso;
     q_lte := end_iso;
     q_instance := match instance_id with
                   | Some i => if String.eqb i EmptyString then None else Some i
                   | None => None
                   end;
     q_sort := [("ip", "asc"); ("timestamp", "desc")];
     q_search_after := None |}.

(** [query = deepcopy(base_query); if search_after: query["search_after"]
    = search_after] *)
Definition page_query (base : Query) (search_after : value) : Query :=
  if truthy search_after
  then {| q_size := q_size base; q_gte := q_gte base; q_lte := q_lte base;
          q_instance := q_instance base; q_sort := q_sort base;
          q_search_after := Some search_after |}
  else base.

(** The hand-off state: the tasks created so far (the address and the
    documents each one was given), the documents held back, and the
    address of the last document seen. *)
Record Scan : Type := mkScan {
  tasks : list (value * list dict);
  host_buffer : list dict;
  current_ip : value
}.

(** [doc.get("ip")] *)
Definition doc_ip (doc : dict) : value :=
  match dict_get doc "ip" with
  | Some ip => ip
  | None => VNone
  end.

(** Body of [for hit in hits]. *)
Definition take_hit (st : Scan) (hit : Hit) : Scan :=
  let doc := hit_source hit in
  let ip := doc_ip doc in
  let st1 :=
    if truthy (current_ip st) && negb (py_eq ip (current_ip st))
    then {| tasks := tasks st ++ [(current_ip st, host_buffer st)];
            host_buffer := [];
            current_ip := current_ip st |}
    else st in
  {| tasks := tasks st1;
     host_buffer := host_buffer st1 ++ [doc];
     current_ip := ip |}.

(** [while page_count < 100]; [left] is [100 - page_count]. *)
Fixpoint scroll (search : Search) (base : Query) (left page_count : nat)
    (search_after : value) (st : Scan) : result Scan :=
  match left with
  | O => Ok st
  | S left' =>
      (hits <- search page_count (page_query base search_after) ;;
       match last hits with
       | None => Ok st
       | Some last_hit =>
           scroll search base left' (S page_count) (hit_sort last_hit)
                  (fold_left take_hit hits st)
       end)%result
  end.

(** [if host_buffer and current_ip: tasks.append(...)] *)
Definition dispatch_last (st : Scan) : list (value * list dict) :=
  if negb (Nat.eqb (length (host_buffer st)) 0) && truthy (current_ip st)
  then tasks st ++ [(current_ip st, host_buffer st)]
  else tasks st.

(** [cluster_status] up to the gather: the time window, the scroll and the
    last hand-off; the result is the list of [_process_host] calls, each
    with its address and its documents. *)
Definition cluster_status_tasks (search : Search) (now : Z)
    (start_date end_date : option Z) (instance_id : option string)
    : result (list (value * list dict)) :=
  let end_date := match end_date with Some e => e | None => now end in
  (start_date <- match start_date with
                 | Some s => Ok s
                 | None => TimeShorthand.shift end_date (- (30 * 60))
                 end ;;
   st <- scroll search (base_query start_date end_date instance_id) 100 0 VNone
           {| tasks := []; host_buffer := []; current_ip := VNone |} ;;
   Ok (dispatch_last st))%result.

End ClusterStatus.

(** ** src/instance_scaling.py: [scale_using_recommendation], around the
    safety gate *)

Module ScaleConfirm.
Import InstanceScaling.

(** What is read of the token's user. *)
Record User : Type := mkUser {
  is_mfa_login : bool;
  sub : string
}.

(** How a request ends: with a [JSONResponse] that is returned, or with an
    [HTTPException] that is raised. *)
Inductive Reply : Type :=
| JSONResponse (status_code : Z) (detail : string)
| HTTPException (status_code : Z) (detail : string).

(** The reply, and the instances given to the background task that
    [asyncio.create_task] starts (none when no task is started). *)
Record Outcome : Type := mkOutcome {
  reply : Reply;
  scaled : list string
}.

(** [sep.join(l)] *)
Fixpoint join (sep : string) (l : list string) : string :=
  match l with
  | [] => EmptyString
  | x :: rest =>
      match rest with
      | [] => x
      | _ :: _ => x +:+ sep +:+ join sep rest
      end
  end.

(** The reply built from the three lists of the gate (lines 406-432). *)
Definition respond (g : Gate) : Outcome :=
  let blocked_message :=
    if (0 <? length (not_safe_to_scale_names g))%nat
    then [ "You've recently performed a scale up activity on the following hosts "
           +:+ join ", " (not_safe_to_scale_names g)
           +:+ ". Please allow 30 minutes before scaling again." ]
    else [] in
  if (0 <? length (safe_to_scale_names g))%nat then
    let names_str := join ", " (safe_to_scale_names g) in
    let started_message :=
      if (1 <? length (safe_to_scale_names g))%nat
      then "We've started scaling these resources " +:+ names_str
           +:+ " since they are configured for group scaling. This will continue in the background-no further action needed. Track status in Notifications."
      else "We've started scaling this resource " +:+ names_str
           +:+ ". This will continue in the background-no further action needed. Track status in Notifications." in
    {| reply := JSONResponse 200 (join " " (blocked_message ++ [started_message]));
       scaled := safe_to_scale g |}
  else
    {| reply := JSONResponse
                  (if (0 <? length (not_safe_to_scale_names g))%nat then 403 else 200)
                  (join " " blocked_message);
       scaled := [] |}.

Section Confirm.
Variable now : Z.
Variable log : gmap string Ec2Scaling.LogDoc.
Variable search : PeerQuery -> result (list Hit).
(** [inventory_config["status_checks"]["environments"]] *)
Variable environments : list Environment.
(** [read_current_user(...)] *)
Variable user : result User.
(** [previous_recommendation(instance_id)]: the stored recommendation (its
    new type), if there is one. *)
Variable previous_recommendation : result (option string).
(** [cluster_status(..., instance_id=instance_id)]: the state of the host;
    [None] when the answer has no [Tags]. *)
Variable current_state : result (option HostState).

(** The body of the [try]. *)
Definition confirm (instance_id : string) : result Outcome :=
  (u <- user ;;
   if negb (is_mfa_login u) then Raise (PyError "HTTPException" "MFA required")
   else
     current_scale_recommendation <- previous_recommendation ;;
     match current_scale_recommendation with
     | None =>
         Ok {| reply := JSONResponse 404
                 ("Sorry, we couldn't find a valid recommendation for instance "
                  +:+ instance_id
                  +:+ ". Please try requesting a recommendation again.");
               scaled := [] |}
     | Some _ =>
         state <- current_state ;;
         match state with
         | None =>
             Ok {| reply := JSONResponse 403
                     "Scaling not allowed: unable to perform safety check on Instance Tags.";
                   scaled := [] |}
         | Some st =>
             match Tags st !! "aws:autoscaling:groupName" with
             | Some (String _ _) =>
                 Ok {| reply := JSONResponse 403
                         "Scaling not allowed: this instance belongs to an Auto Scaling group.";
                       scaled := [] |}
             | _ =>
                 g <- safety_gate now log search st environments ;;
                 Ok (respond g)
             end
         end
     end)%result.

(** [scale_using_recommendation]: every exception of the body, the
    [HTTPException] it raises itself included, is caught by
    [except Exception] and replaced. *)
Definition scale_using_recommendation (instance_id : string) : Outcome :=
  match confirm instance_id with
  | Ok out => out
  | Raise _ =>
      {| reply := HTTPException 500
                    "Internal server error while preparing scaling operation.";
         scaled := [] |}
  end.

End Confirm.

End ScaleConfirm.

(** ** Properties of the orchestrator *)

Module Ec2ScalingFacts.
Import Ec2Scaling.

(** The step list and the status a reader of the log sees. *)
Definition log_steps (w : World) (doc_id : string) : option (list Step) :=
  match store w !! doc_id with
  | Some d => Some (match steps d with None => [] | Some l => l end)
  | None => None
  end.

Definition log_status (w : World) (doc_id : string) : option string :=
  match store w !! doc_id with
  | Some d => Some (status d)
  | None => None
  end.

(** Other actors may write anything to the document (in particular set its
    status to canceled) but neither delete it nor rewrite its steps. *)
Definition keeps_history (env : Env) (doc_id : string) : Prop :=
  forall n s d, s !! doc_id = Some d ->
    exists d', external env n s !! doc_id = Some d' /\ steps d' = steps d.

(** The entry the [n]-th store request of a run appends. *)
Definition entry (env : Env) (n : nat) (name : string) (pct : Z)
    (st msg : string) : Step :=
  {| step_timestamp := clock env n; step_name := name;
     percent_complete := pct; step_status := st; message := msg |}.

(** Steps written once the cloud call they report has returned. *)
Definition reports_completion (s : Step) : bool :=
  bool_decide (step_name s = "Instance stopped")
  || bool_decide (step_name s = "Instance type changed")
  || bool_decide (step_name s = "Instance running").

Lemma append_step_spec env doc_id name pct st msg w l :
  keeps_history env doc_id ->
  log_steps w doc_id = Some l ->
  exists w',
    append_step env doc_id name pct st msg w = (Ok tt, w')
    /\ log_steps w' doc_id = Some (l ++ [entry env (requests w) name pct st msg])
    /\ log_status w' doc_id = Some st
    /\ requests w' = S (requests w)
    /\ calls w' = calls w.
Proof.
  intros Hk Hl. unfold log_steps in Hl.
  destruct (store w !! doc_id) as [d|] eqn:Hd; [|discriminate].
  destruct (Hk (requests w) (store w) d Hd) as (d' & Hd' & Hsteps).
  unfold append_step. rewrite Hd'.
  eexists. split; [reflexivity|].
  unfold log_steps, log_status; cbn.
  rewrite lookup_insert_eq. cbn. rewrite Hsteps.
  injection Hl as <-. auto.
Qed.

Lemma ec2_call_ok env c w :
  ec2_fault env c = None ->
  ec2_call env c w
  = (Ok tt, {| store := store w; requests := requests w; calls := calls w ++ [c] |}).
Proof. intros H. unfold ec2_call. now rewrite H. Qed.

Lemma ec2_call_fails env c e w :
  ec2_fault env c = Some e ->
  ec2_call env c w
  = (Raise e, {| store := store w; requests := requests w; calls := calls w ++ [c] |}).
Proof. intros H. unfold ec2_call. now rewrite H. Qed.

(** One store request of the run, symbolically. *)
Ltac step_append Hk :=
  match goal with
  | Hl : log_steps _ ?id = Some _ |- context [append_step ?env ?id ?nm ?p ?st ?msg ?w] =>
      let w' := fresh "w" in
      let Hrun := fresh "Hrun" in
      let Hl' := fresh "Hl" in
      let Hst := fresh "Hst" in
      let Hrq := fresh "Hrq" in
      let Hc := fresh "Hc" in
      destruct (append_step_spec env id nm p st msg w _ Hk Hl)
        as (w' & Hrun & Hl' & Hst & Hrq & Hc);
      rewrite Hrun; clear Hrun Hl; cbv beta iota; cbn [store requests calls] in *
  end.

Ltac step_call :=
  match goal with
  | H : ec2_fault ?env ?c = None |- context [ec2_call ?env ?c ?w] =>
      rewrite (ec2_call_ok env c w H); clear H; cbv beta iota
  | H : ec2_fault ?env ?c = Some ?e |- context [ec2_call ?env ?c ?w] =>
      rewrite (ec2_call_fails env c e w H); clear H; cbv beta iota
  end.

(** A log already marked canceled when the resize starts, a quiet store
    and a healthy cloud API. *)
Definition canceled_doc : LogDoc :=
  {| instance_id := "i-0abc"; timestamp := 100; status := "canceled";
     steps := Some [ {| step_timestamp := 100; step_name := "Scale operation initiated";
                        percent_complete := 0; step_status := "in_progress";
                        message := EmptyString |} ];
     lastUpdated := Some 100 |}.

Definition quiet_env : Env :=
  {| clock := fun n => 200 + Z.of_nat n;
     ec2_fault := fun _ => None;
     external := fun _ s => s |}.

Definition canceled_world : World :=
  {| store := {[ "doc-1" := canceled_doc ]}; requests := 0; calls := [] |}.

(** The claim of C1 at one run: a log that is canceled when a step
    transition is due stops the run, so nothing is appended and no cloud
    call is made. *)
Definition respects_cancellation (env : Env) (w : World)
    (instance new_type region doc_id : string) : Prop :=
  log_status w doc_id = Some "canceled" ->
  (forall n s, external env n s = s) ->
  let w' := snd (scale_instance env instance new_type region doc_id w) in
  calls w' = calls w /\ log_steps w' doc_id = log_steps w doc_id.

(** The cloud API answers every call of the resize. *)
Definition cloud_healthy (env : Env) (instance new_type : string) : Prop :=
  ec2_fault env (StopInstances instance) = None
  /\ ec2_fault env (WaitInstanceStopped instance) = None
  /\ ec2_fault env (ModifyInstanceType instance new_type) = None
  /\ ec2_fault env (StartInstances instance) = None
  /\ ec2_fault env (WaitInstanceRunning instance) = None.

(** C1, counterexample: the log is canceled before the run starts and
    nobody else writes; the run still issues all five cloud calls, appends
    six steps and overwrites the status with completed. *)
Lemma scale_instance_ignores_canceled :
  ~ respects_cancellation quiet_env canceled_world "i-0abc" "m5.large" "us-east-1" "doc-1"
  /\ calls (snd (scale_instance quiet_env "i-0abc" "m5.large" "us-east-1" "doc-1" canceled_world))
     = [StopInstances "i-0abc"; WaitInstanceStopped "i-0abc";
        ModifyInstanceType "i-0abc" "m5.large";
        StartInstances "i-0abc"; WaitInstanceRunning "i-0abc"]
  /\ log_status (snd (scale_instance quiet_env "i-0abc" "m5.large" "us-east-1" "doc-1" canceled_world))
       "doc-1" = Some "completed".
Proof.
  split; [|split]; [|vm_compute; reflexivity..].
  intros H. destruct H as [Hcalls _]; [reflexivity | reflexivity |].
  vm_compute in Hcalls. discriminate.
Qed.

(** C1, amended: the orchestrator never reads the log.  Whatever other
    actors write to the document between steps (a canceled status
    included), as long as the document stays and the cloud calls succeed,
    the run issues stop, wait, modify, start, wait in this order, appends
    its six steps and leaves the status completed. *)
Theorem scale_instance_runs_to_completion
    (env : Env) (w : World) (instance new_type region doc_id : string)
    (l : list Step) :
  keeps_history env doc_id ->
  cloud_healthy env instance new_type ->
  log_steps w doc_id = Some l ->
  let n := requests w in
  let out := scale_instance env instance new_type region doc_id w in
  fst out = Ok tt
  /\ calls (snd out)
     = calls w ++ [StopInstances instance; WaitInstanceStopped instance;
                   ModifyInstanceType instance new_type;
                   StartInstances instance; WaitInstanceRunning instance]
  /\ log_steps (snd out) doc_id
     = Some (l ++ [entry env n "Stopping instance" 10 "in_progress" EmptyString;
                   entry env (n + 1) "Instance stopped" 30 "in_progress" EmptyString;
                   entry env (n + 2) "Changing instance type" 40 "in_progress" EmptyString;
                   entry env (n + 3) "Instance type changed" 60 "in_progress" EmptyString;
                   entry env (n + 4) "Starting instance" 70 "in_progress" EmptyString;
                   entry env (n + 5) "Instance running" 100 "completed" EmptyString])
  /\ log_status (snd out) doc_id = Some "completed".
Proof.
  intros Hk (H1 & H2 & H3 & H4 & H5) Hl n out. subst out n.
  unfold scale_instance, try_except, stop_instance, change_instance_type,
    start_instance, bind.
  step_append Hk. step_call. step_call. step_append Hk.
  step_append Hk. step_call. step_append Hk.
  step_append Hk. step_call. step_call. step_append Hk.
  cbn [fst snd].
  repeat match goal with H : requests _ = _ |- _ => rewrite H in * end.
  repeat match goal with H : calls _ = _ |- _ => rewrite H in * end.
  split; [reflexivity|]. split.
  { rewrite <- !app_assoc. reflexivity. }
  split; [|assumption].
  match goal with H : log_steps _ _ = Some _ |- _ => rewrite H end.
  rewrite <- !app_assoc. cbn [app].
  replace (requests w + 1)%nat with (S (requests w)) by lia.
  replace (requests w + 2)%nat with (S (S (requests w))) by lia.
  replace (requests w + 3)%nat with (S (S (S (requests w)))) by lia.
  replace (requests w + 4)%nat with (S (S (S (S (requests w))))) by lia.
  replace (requests w + 5)%nat with (S (S (S (S (S (requests w)))))) by lia.
  reflexivity.
Qed.

(** Witness for C1 amended: the canceled log of the counterexample. *)
Lemma scale_instance_runs_to_completion_witness :
  log_status canceled_world "doc-1" = Some "canceled"
  /\ log_status
       (snd (scale_instance quiet_env "i-0abc" "m5.large" "us-east-1" "doc-1" canceled_world))
       "doc-1" = Some "completed".
Proof.
  split; [reflexivity|].
  refine (proj2 (proj2 (proj2
    (scale_instance_runs_to_completion quiet_env canceled_world
       "i-0abc" "m5.large" "us-east-1" "doc-1" _ _ _ _)))).
  - intros n s d Hd. exists d. split; [exact Hd | reflexivity].
  - repeat split.
  - reflexivity.
Defined.

(** C6: the modify call fails after a successful stop.  The exception
    reaches the caller; the cloud calls are stop, wait, modify and nothing
    else; the log gains exactly the stop steps (10, 30), the marker written
    before the modify call (40) and a last step with status failed whose
    message is the text of the error, non-empty when that text is; the last
    step reporting a finished operation is the 30 percent one; no step and
    no call of the start phase follows. *)
Theorem scale_instance_modify_failure
    (env : Env) (w : World) (instance new_type region doc_id : string)
    (l : list Step) (e : exn) :
  keeps_history env doc_id ->
  log_steps w doc_id = Some l ->
  ec2_fault env (StopInstances instance) = None ->
  ec2_fault env (WaitInstanceStopped instance) = None ->
  ec2_fault env (ModifyInstanceType instance new_type) = Some e ->
  str e <> EmptyString ->
  let n := requests w in
  let out := scale_instance env instance new_type region doc_id w in
  let failed := entry env (n + 3) "Error occurred" 0 "failed" (str e) in
  let stopped := entry env (n + 1) "Instance stopped" 30 "in_progress" EmptyString in
  fst out = Raise e
  /\ calls (snd out)
     = calls w ++ [StopInstances instance; WaitInstanceStopped instance;
                   ModifyInstanceType instance new_type]
  /\ log_steps (snd out) doc_id
     = Some (l ++ [entry env n "Stopping instance" 10 "in_progress" EmptyString;
                   stopped;
                   entry env (n + 2) "Changing instance type" 40 "in_progress" EmptyString;
                   failed])
  /\ log_status (snd out) doc_id = Some "failed"
  /\ message failed <> EmptyString
  /\ (forall new, log_steps (snd out) doc_id = Some (l ++ new) ->
        last (filter (fun s => reports_completion s = true) new) = Some stopped
        /\ last new = Some failed
        /\ forall s, s ∈ new ->
             step_name s <> "Starting instance" /\ step_name s <> "Instance running").
Proof.
  intros Hk Hl H1 H2 H3 Hne n out failed stopped. subst out n failed stopped.
  unfold scale_instance, try_except, stop_instance, change_instance_type,
    start_instance, bind.
  step_append Hk. step_call. step_call. step_append Hk.
  step_append Hk. step_call.
  cbn [store requests calls].
  match goal with
  | Hl : log_steps ?w1 doc_id = Some _ |- _ =>
      set (wf := {| store := store w1; requests := requests w1;
                    calls := calls w1 ++ [ModifyInstanceType instance new_type] |})
  end.
  assert (Hlf : log_steps wf doc_id = Some
            (((l ++ [entry env (requests w) "Stopping instance" 10 "in_progress" EmptyString])
               ++ [entry env (requests w0) "Instance stopped" 30 "in_progress" EmptyString])
               ++ [entry env (requests w1) "Changing instance type" 40 "in_progress" EmptyString]))
    by assumption.
  destruct (append_step_spec env doc_id "Error occurred" 0 "failed" (str e) wf _ Hk Hlf)
    as (wz & Hrunz & Hlz & Hstz & Hrqz & Hcz).
  rewrite Hrunz. unfold raise. cbn [fst snd].
  subst wf. cbn [store requests calls] in *.
  repeat match goal with H : requests _ = _ |- _ => rewrite H in * end.
  repeat match goal with H : calls _ = _ |- _ => rewrite H in * end.
  replace (requests w + 1)%nat with (S (requests w)) by lia.
  replace (requests w + 2)%nat with (S (S (requests w))) by lia.
  replace (requests w + 3)%nat with (S (S (S (requests w)))) by lia.
  assert (Hfinal : log_steps wz doc_id = Some
            (l ++ [entry env (requests w) "Stopping instance" 10 "in_progress" EmptyString;
                   entry env (S (requests w)) "Instance stopped" 30 "in_progress" EmptyString;
                   entry env (S (S (requests w))) "Changing instance type" 40 "in_progress" EmptyString;
                   entry env (S (S (S (requests w)))) "Error occurred" 0 "failed" (str e)])).
  { rewrite Hlz. rewrite <- !app_assoc. reflexivity. }
  split; [reflexivity|].
  split; [rewrite <- !app_assoc; reflexivity|].
  split; [exact Hfinal|].
  split; [exact Hstz|].
  split; [exact Hne|].
  intros new Hnew. rewrite Hfinal in Hnew.
  injection Hnew as Hnew. apply app_inv_head in Hnew. subst new.
  split; [reflexivity|]. split; [reflexivity|].
  intros s Hs.
  repeat (apply elem_of_cons in Hs as [-> | Hs]); [cbn..|]; try (split; discriminate).
  apply elem_of_nil in Hs. contradiction.
Qed.

Definition stopped_world : World :=
  {| store := {[ "doc-1" := {| instance_id := "i-0abc"; timestamp := 100;
                               status := "in_progress"; steps := Some [];
                               lastUpdated := None |} ]};
     requests := 0; calls := [] |}.

Definition modify_fails_env : Env :=
  {| clock := fun n => 200 + Z.of_nat n;
     ec2_fault := fun c =>
       match c with
       | ModifyInstanceType _ _ =>
           Some (ClientError (Some "InsufficientInstanceCapacity")
                   "An error occurred (InsufficientInstanceCapacity) when calling the ModifyInstanceAttribute operation")
       | _ => None
       end;
     external := fun _ s => s |}.

(** Witness for C6. *)
Lemma scale_instance_modify_failure_witness :
  log_status
    (snd (scale_instance modify_fails_env "i-0abc" "m5.large" "us-east-1" "doc-1" stopped_world))
    "doc-1" = Some "failed".
Proof.
  refine (proj1 (proj2 (proj2 (proj2
    (scale_instance_modify_failure modify_fails_env stopped_world
       "i-0abc" "m5.large" "us-east-1" "doc-1" [] _ _ _ _ _ _ _))))).
  - intros n s d Hd. exists d. split; [exact Hd | reflexivity].
  - reflexivity.
  - reflexivity.
  - reflexivity.
  - reflexivity.
  - discriminate.
Defined.

End Ec2ScalingFacts.

(** ** Properties of the safety gate *)

Module InstanceScalingFacts.
Import InstanceScaling.

(** A log that blocks a peer, in the words of the specification: a
    [scale_status_log] document of that instance with status in_progress,
    lastUpdated within the last 30 minutes, and status not canceled. *)
Definition conflicting_log (now : Z) (log : gmap string Ec2Scaling.LogDoc)
    (id : string) : Prop :=
  exists k d t,
    log !! k = Some d
    /\ Ec2Scaling.instance_id d = id
    /\ Ec2Scaling.status d = "in_progress"
    /\ Ec2Scaling.lastUpdated d = Some t /\ now - 1800 <= t
    /\ Ec2Scaling.status d <> "canceled".

(** The test the gate makes on the count. *)
Definition blocked (now : Z) (log : gmap string Ec2Scaling.LogDoc) (id : string) : bool :=
  negb (Nat.eqb (in_progress_count now log id) 0).

(** The peers the gate examines, in order: the hits of the search of every
    environment that applies. *)
Fixpoint examined_peers (search : PeerQuery -> result (list Hit))
    (current_state : HostState) (envs : list Environment) : result (list Hit) :=
  match envs with
  | [] => Ok []
  | env :: rest =>
      (q <- peer_query current_state env ;;
       match q with
       | None => examined_peers search current_state rest
       | Some query =>
           hits <- search query ;;
           more <- examined_peers search current_state rest ;;
           Ok (hits ++ more)
       end)%result
  end.

Lemma count_query_spec now id d :
  count_query now id d = true <->
  Ec2Scaling.instance_id d = id
  /\ Ec2Scaling.status d = "in_progress"
  /\ (exists t, Ec2Scaling.lastUpdated d = Some t /\ now - 1800 <= t)
  /\ Ec2Scaling.status d <> "canceled".
Proof.
  unfold count_query.
  rewrite !andb_true_iff, negb_true_iff, !bool_decide_eq_true, bool_decide_eq_false.
  destruct (Ec2Scaling.lastUpdated d) as [t|].
  - rewrite bool_decide_eq_true. split.
    + intros [[[H1 H2] H3] H4]. repeat split; eauto.
    + intros (H1 & H2 & (t' & Ht' & Hle) & H4). injection Ht' as <-. tauto.
  - split.
    + intros [[[_ _] H3] _]. discriminate.
    + intros (_ & _ & (t' & Ht' & _) & _). discriminate.
Qed.

Lemma blocked_spec now log id :
  blocked now log id = true <-> conflicting_log now log id.
Proof.
  unfold blocked, in_progress_count, conflicting_log.
  rewrite negb_true_iff, Nat.eqb_neq.
  split.
  - intros Hlen.
    destruct (filter _ (map_to_list log)) as [|[k d] l] eqn:Hf; [contradiction|].
    assert (Hin : (k, d) ∈ filter (fun kd => count_query now id kd.2 = true) (map_to_list log))
      by (rewrite Hf; left).
    apply list_elem_of_filter in Hin as [Hq Hin].
    apply elem_of_map_to_list in Hin. cbn in Hq.
    apply count_query_spec in Hq as (H1 & H2 & (t & Ht & Hle) & H4).
    exists k, d, t. tauto.
  - intros (k & d & t & Hk & H1 & H2 & Ht & Hle & H4) Hlen.
    apply length_zero_iff_nil in Hlen.
    assert (Hin : (k, d) ∈ filter (fun kd => count_query now id kd.2 = true) (map_to_list log)).
    { apply list_elem_of_filter. split.
      - cbn. apply count_query_spec. eauto 10.
      - now apply elem_of_map_to_list. }
    rewrite Hlen in Hin. now apply elem_of_nil in Hin.
Qed.

Section Partition.
Variable now : Z.
Variable log : gmap string Ec2Scaling.LogDoc.
Variable search : PeerQuery -> result (list Hit).

(** What the loop over the hits maintains. *)
Lemma gate_instances_spec (hits : list Hit) :
  forall g : Gate,
    (forall id, id ∈ safe_to_scale g -> blocked now log id = false) ->
    NoDup (safe_to_scale g) ->
    let g' := fold_left (gate_instance now log) hits g in
    not_safe_to_scale_names g'
    = not_safe_to_scale_names g ++ (hit_name <$> filter (fun h => blocked now log (InstanceId h) = true) hits)
    /\ (forall id, id ∈ safe_to_scale g' <->
          id ∈ safe_to_scale g
          \/ exists h, h ∈ hits /\ InstanceId h = id /\ blocked now log id = false)
    /\ NoDup (safe_to_scale g')
    /\ exists placed,
         sublist placed hits
         /\ safe_to_scale g' = safe_to_scale g ++ (InstanceId <$> placed)
         /\ safe_to_scale_names g' = safe_to_scale_names g ++ (hit_name <$> placed).
Proof.
  induction hits as [|h hits IH]; intros g Hsafe Hnd; cbn zeta.
  - cbn. rewrite !app_nil_r. repeat split; auto.
    + intros [H | (h & Hh & _)]; [assumption | now apply elem_of_nil in Hh].
    + exists []. rewrite !app_nil_r. repeat split; constructor.
  - cbn [fold_left].
    unfold gate_instance at 2 4 6 8 10.
    destruct (bool_decide (InstanceId h ∈ safe_to_scale g)) eqn:Hmem.
    + (* already safe: skipped *)
      apply bool_decide_eq_true in Hmem.
      destruct (IH g Hsafe Hnd) as (Hn & Hs & Hd & placed & Hsub & Hp1 & Hp2).
      rewrite filter_cons_False by (rewrite (Hsafe _ Hmem); discriminate).
      split; [exact Hn|]. split.
      { intros id. rewrite Hs. split.
        - intros [H | (h' & Hh' & Heq & Hb)]; [now left|].
          right. exists h'. split; [now right | auto].
        - intros [H | (h' & Hh' & Heq & Hb)]; [now left|].
          apply elem_of_cons in Hh' as [-> | Hh'].
          + left. now rewrite <- Heq.
          + right. eauto. }
      split; [exact Hd|].
      exists placed. split; [now apply sublist_cons | auto].
    + apply bool_decide_eq_false in Hmem.
      destruct (Nat.eqb (in_progress_count now log (InstanceId h)) 0) eqn:Hc.
      * (* no conflicting log: placed in the safe lists *)
        assert (Hb : blocked now log (InstanceId h) = false)
          by (unfold blocked; now rewrite Hc).
        match goal with
        | |- context [fold_left _ hits ?g1] =>
            destruct (IH g1) as (Hn & Hs & Hd & placed & Hsub & Hp1 & Hp2)
        end.
        { cbn. intros id Hid. apply elem_of_app in Hid as [Hid | Hid]; [auto|].
          apply list_elem_of_singleton in Hid. now subst. }
        { cbn. apply NoDup_app. repeat split; [assumption | | apply NoDup_singleton].
          intros x Hx Hx'. apply list_elem_of_singleton in Hx'. now subst. }
        cbn in Hn, Hs, Hp1, Hp2.
        rewrite filter_cons_False by (rewrite Hb; discriminate).
        split; [exact Hn|]. split.
        { intros id. rewrite Hs, elem_of_app, list_elem_of_singleton. split.
          - intros [[H | ->] | (h' & Hh' & Heq & Hb')]; [now left | |].
            + right. exists h. split; [left | auto].
            + right. exists h'. split; [now right | auto].
          - intros [H | (h' & Hh' & Heq & Hb')]; [now left; left|].
            apply elem_of_cons in Hh' as [-> | Hh'].
            + left; right. now rewrite <- Heq.
            + right. eauto. }
        split; [exact Hd|].
        exists (h :: placed). split; [now apply sublist_skip|].
        rewrite Hp1, Hp2, <- !app_assoc. split; reflexivity.
      * (* a conflicting log: only the name is recorded *)
        assert (Hb : blocked now log (InstanceId h) = true)
          by (unfold blocked; now rewrite Hc).
        match goal with
        | |- context [fold_left _ hits ?g1] =>
            destruct (IH g1 Hsafe Hnd) as (Hn & Hs & Hd & placed & Hsub & Hp1 & Hp2)
        end.
        cbn in Hn, Hs, Hp1, Hp2.
        rewrite filter_cons_True by exact Hb.
        split; [rewrite Hn, <- app_assoc; reflexivity|]. split.
        { intros id. rewrite Hs. split.
          - intros [H | (h' & Hh' & Heq & Hb')]; [now left|].
            right. exists h'. split; [now right | auto].
          - intros [H | (h' & Hh' & Heq & Hb')]; [now left|].
            apply elem_of_cons in Hh' as [-> | Hh'].
            + rewrite <- Heq in Hb'. congruence.
            + right. eauto. }
        split; [exact Hd|].
        exists placed. split; [now apply sublist_cons | auto].
Qed.

(** The gate is the partition of the examined peers: the searches of the
    later environments do not depend on the lists filled so far. *)
Lemma gate_environments_peers current_state envs :
  forall g,
    gate_environments now log search current_state envs g
    = (peers <- examined_peers search current_state envs ;;
       Ok (fold_left (gate_instance now log) peers g))%result.
Proof.
  induction envs as [|env rest IH]; intros g; cbn; [reflexivity|].
  destruct (peer_query current_state env) as [[q|]|e]; cbn; auto.
  destruct (search q) as [hits|e]; cbn; [|reflexivity].
  rewrite IH.
  destruct (examined_peers search current_state rest) as [more|e]; cbn; [|reflexivity].
  now rewrite fold_left_app.
Qed.

End Partition.

(** C2: when the peer searches answer, the gate returns, and it partitions
    the peers by the log alone.  The names recorded as not safe are exactly
    those of the peers with a conflicting log (a document of that instance,
    in_progress, updated within the last 30 minutes, not canceled); a peer
    is in the safe list if and only if it has no such log; the safe list has
    no duplicates and the safe names are those of the peers placed in it. *)
Theorem safety_gate_partition
    (now : Z) (log : gmap string Ec2Scaling.LogDoc)
    (search : PeerQuery -> result (list Hit))
    (current_state : HostState) (envs : list Environment) (peers : list Hit) :
  examined_peers search current_state envs = Ok peers ->
  exists g,
    safety_gate now log search current_state envs = Ok g
    /\ not_safe_to_scale_names g
       = hit_name <$> filter (fun h => blocked now log (InstanceId h) = true) peers
    /\ (forall h, h ∈ peers ->
          (blocked now log (InstanceId h) = true <-> conflicting_log now log (InstanceId h))
          /\ (InstanceId h ∈ safe_to_scale g <-> ~ conflicting_log now log (InstanceId h)))
    /\ (forall id, id ∈ safe_to_scale g -> exists h, h ∈ peers /\ InstanceId h = id)
    /\ NoDup (safe_to_scale g)
    /\ exists placed,
         sublist placed peers
         /\ safe_to_scale g = InstanceId <$> placed
         /\ safe_to_scale_names g = hit_name <$> placed.
Proof.
  intros Hpeers. unfold safety_gate.
  rewrite gate_environments_peers, Hpeers. cbn.
  eexists. split; [reflexivity|].
  match goal with
  | |- context [fold_left _ peers ?g0] =>
      destruct (gate_instances_spec now log peers g0)
        as (Hn & Hs & Hd & placed & Hsub & Hp1 & Hp2)
  end.
  { cbn. intros id Hid. now apply elem_of_nil in Hid. }
  { cbn. constructor. }
  cbn in Hn, Hs, Hp1, Hp2.
  split; [exact Hn|]. split.
  { intros h Hh. split; [apply blocked_spec|].
    rewrite Hs, <- blocked_spec. split.
    - intros [Hnil | (h' & _ & Heq & Hb)]; [now apply elem_of_nil in Hnil|].
      rewrite <- Heq in Hb. rewrite Heq in Hb. congruence.
    - intros Hb. right. exists h. repeat split; auto.
      destruct (blocked now log (InstanceId h)); [now contradiction Hb | reflexivity]. }
  split.
  { intros id Hid. apply Hs in Hid as [Hnil | (h & Hh & Heq & _)];
      [now apply elem_of_nil in Hnil | eauto]. }
  split; [exact Hd|].
  exists placed. auto.
Qed.

(** The scenario of the specification: A and B share the group tag,
    project, environment, region and type; A has an in_progress log updated
    five minutes ago, B has none. *)
Definition group_state : HostState :=
  {| Tags := {[ "Environment" := "prod"; "Project" := "aida"; "Program" := "api";
                "scaleGroup" := "blue" ]};
     Region := Some "us-east-1";
     InstanceType := Some "m5.large" |}.

Definition group_envs : list Environment :=
  [ {| project := Some "aida"; environment := Some "prod"; region := Some "us-east-1";
       programs := Some {[ "api" := {| scale_as_group_tag := Some "scaleGroup" |} ]} |} ].

Definition group_search (q : PeerQuery) : result (list Hit) :=
  Ok [ {| InstanceId := "i-A"; name := Some "host-a" |};
       {| InstanceId := "i-B"; name := Some "host-b" |} ].

Definition group_log : gmap string Ec2Scaling.LogDoc :=
  {[ "doc-A" := {| Ec2Scaling.instance_id := "i-A"; Ec2Scaling.timestamp := 9000;
                   Ec2Scaling.status := "in_progress"; Ec2Scaling.steps := Some [];
                   Ec2Scaling.lastUpdated := Some 9700 |} ]}.

(** Witness for C2, with now = 10000 and A's log updated at now - 300. *)
Lemma safety_gate_partition_witness :
  exists g,
    safety_gate 10000 group_log group_search group_state group_envs = Ok g
    /\ not_safe_to_scale_names g = ["host-a"]
    /\ safe_to_scale g = ["i-B"].
Proof.
  destruct (safety_gate_partition 10000 group_log group_search group_state group_envs
              [ {| InstanceId := "i-A"; name := Some "host-a" |};
                {| InstanceId := "i-B"; name := Some "host-b" |} ] eq_refl)
    as (g & Hg & _).
  exists g. split; [exact Hg|].
  vm_compute in Hg. injection Hg as <-. split; reflexivity.
Defined.

End InstanceScalingFacts.

(** ** Properties of the rule evaluator *)

Module RuleEvaluatorFacts.
Import RuleEvaluator.






(** *** Equality against a string *)




(** *** Reading after writing *)




(** *** Loops: the last write wins *)

Section LastWrite.
Context {A : Type}.
Variable service : string.
(** [W a k e]: item [a] of the loop writes entry [e] under key [k]. *)
Variable W : A -> string -> Entry -> Prop.
Variable step : Final -> A -> result Final.



End LastWrite.


(** *** The steps of the condition loops *)











(** *** Entries and matches *)





Tactic Notation "step_bind" hyp(H) "as" ident(x) :=
  lazymatch type of H with
  | Py.bind ?r _ = Ok _ =>
      let E := fresh "E" x in
      destruct r as [x|] eqn:E;
      cbv beta iota delta [Py.bind] in H; [|discriminate H]
  | match ?r with Ok _ => _ | Raise _ => _ end = Ok _ =>
      let E := fresh "E" x in
      destruct r as [x|] eqn:E; cbv beta iota in H; [|discriminate H]
  end.


(** *** The metric loops *)





(** *** List-shaped rules *)






(** *** Disk rules: a loop over the entries inside the loop over the rules *)







(** *** The passes over a snapshot *)



(** *** C3 *)









End RuleEvaluatorFacts.

(** ** Properties of the gap-filling fetch *)

Module MetricsCacheFacts.
Import MetricsCache.

(** *** Runs *)

Lemma bind_ok {A B : Type} (m : G A) (k : A -> G B) w b w' :
  bind m k w = (Ok b, w') ->
  exists a w1, m w = (Ok a, w1) /\ k a w1 = (Ok b, w').
Proof.
  unfold bind. destruct (m w) as [[a|e] w1]; [eauto | discriminate].
Qed.

Lemma lift_ok {A : Type} (r : result A) w a w' :
  lift r w = (Ok a, w') -> r = Ok a /\ w' = w.
Proof. unfold lift. now intros [= -> <-]. Qed.

(** *** C8 *)

(** The provider's resource-not-found error of [describe_instances]. *)
Definition not_found (e : exn) : Prop :=
  exists text, e = ClientError (Some "InvalidInstanceID.NotFound") text.

(** C8: when describing the instance fails with the provider's
    InvalidInstanceID.NotFound error the function returns the empty map and
    sends nothing; any other exception of the describe call reaches the
    caller unchanged. *)
Theorem get_instance_metrics_describe_error
    (env : Env) (instance_id : string) (start_time end_time : Z)
    (instance_type : string) (active_fetch_cloudwatch : bool) (period : Z)
    (partition_map : option (gmap string string)) (w : World) (e : exn) :
  describe_instances env instance_id = Raise e ->
  let run := get_instance_metrics env instance_id start_time end_time instance_type
               active_fetch_cloudwatch period partition_map w in
  (not_found e -> run = (Ok ∅, w))
  /\ (~ not_found e -> run = (Raise e, w)).
Proof.
  intros Hd run. subst run. unfold get_instance_metrics. rewrite Hd.
  split.
  - intros (text & ->). reflexivity.
  - intros Hnf. destruct e as [code text | cls text]; [|reflexivity].
    destruct (bool_decide (code = Some "InvalidInstanceID.NotFound")) eqn:Hc;
      [|reflexivity].
    apply bool_decide_eq_true in Hc. subst code.
    exfalso. apply Hnf. now exists text.
Qed.

Definition gone_env : Env :=
  {| describe_instances := fun _ =>
       Raise (ClientError (Some "InvalidInstanceID.NotFound")
                "An error occurred (InvalidInstanceID.NotFound) when calling the DescribeInstances operation");
     msearch := fun _ => Ok [];
     get_metric_statistics := fun _ => Ok [];
     bandwidth_gbps := fun _ => Ok 0%Q |}.

(** Witness for C8. *)
Lemma get_instance_metrics_describe_error_witness :
  get_instance_metrics gone_env "i-0abc" 0 1800 "m5.large" true 300 None
    {| fetches := []; bulk_requests := [] |}
  = (Ok ∅, {| fetches := []; bulk_requests := [] |}).
Proof.
  refine (proj1 (get_instance_metrics_describe_error gone_env "i-0abc" 0 1800
                   "m5.large" true 300 None {| fetches := []; bulk_requests := [] |}
                   _ eq_refl) _).
  eexists. reflexivity.
Defined.

(** *** Series indexed by timestamp *)

Lemma by_timestamp_acc (series : list Point) :
  forall (m0 : gmap Z Point) ts,
    (is_Some (fold_left (fun m d => <[Timestamp d := d]> m) series m0 !! ts)
     <-> In ts (map Timestamp series) \/ is_Some (m0 !! ts))
    /\ (forall p,
          fold_left (fun m d => <[Timestamp d := d]> m) series m0 !! ts = Some p ->
          (In p series /\ Timestamp p = ts) \/ m0 !! ts = Some p).
Proof.
  induction series as [|d series IH]; intros m0 ts; cbn.
  - split; [tauto | auto].
  - destruct (IH (<[Timestamp d := d]> m0) ts) as [IH1 IH2]. split.
    + rewrite IH1. destruct (decide (Timestamp d = ts)) as [Heq | Hne].
      * rewrite Heq, lookup_insert_eq. split; [intros _; auto | intros _; right; eauto].
      * rewrite lookup_insert_ne by exact Hne. tauto.
    + intros p Hp. destruct (IH2 p Hp) as [[Hin Ht] | Hm]; [auto|].
      destruct (decide (Timestamp d = ts)) as [Heq | Hne].
      * rewrite Heq, lookup_insert_eq in Hm. injection Hm as <-. auto.
      * rewrite lookup_insert_ne in Hm by exact Hne. auto.
Qed.

Lemma by_timestamp_dom series ts :
  ts ∈ dom (by_timestamp series) <-> In ts (map Timestamp series).
Proof.
  rewrite elem_of_dom. unfold by_timestamp.
  rewrite (proj1 (by_timestamp_acc series ∅ ts)), lookup_empty.
  split; [intros [H | [x Hx]]; [exact H | discriminate] | auto].
Qed.

Lemma by_timestamp_lookup series ts p :
  by_timestamp series !! ts = Some p -> In p series /\ Timestamp p = ts.
Proof.
  intros H. destruct (proj2 (by_timestamp_acc series ∅ ts) p H) as [Hp | Hm];
    [exact Hp | now rewrite lookup_empty in Hm].
Qed.

Lemma common_timestamps_spec (a b : gmap Z Point) :
  NoDup (common_timestamps a b)
  /\ Sorted Z.le (common_timestamps a b)
  /\ forall ts, In ts (common_timestamps a b) <-> ts ∈ dom a /\ ts ∈ dom b.
Proof.
  unfold common_timestamps. split; [|split].
  - rewrite merge_sort_Permutation. apply NoDup_elements.
  - apply Sorted_merge_sort; apply _.
  - intros ts. rewrite <- list_elem_of_In, merge_sort_Permutation.
    rewrite elem_of_elements. apply elem_of_intersection.
Qed.

(** *** network_total *)

Lemma omap_cons {A B : Type} (f : A -> option B) (x : A) (l : list A) :
  omap f (x :: l)
  = match f x with
    | Some y => y :: omap f l
    | None => omap f l
    end.
Proof. reflexivity. Qed.

(** The point of [network_total] at a timestamp. *)
Definition total_point (in_map out_map : gmap Z Point) (ts : Z) : option Point :=
  match in_map !! ts, out_map !! ts with
  | Some i, Some o =>
      Some {| Timestamp := ts; Value := (Value i + Value o)%Q; Unit := "Bytes";
              volume_id := None; partition := None |}
  | _, _ => None
  end.

Lemma network_totals_raw in_series out_series bw_bps :
  fst (network_totals in_series out_series bw_bps)
  = omap (total_point (by_timestamp in_series) (by_timestamp out_series))
         (common_timestamps (by_timestamp in_series) (by_timestamp out_series)).
Proof.
  unfold network_totals.
  generalize (common_timestamps (by_timestamp in_series) (by_timestamp out_series)).
  intros tss.
  set (f := fun (acc : list Point * list Point) (ts : Z) => _).
  assert (H : forall acc,
             fst (fold_left f tss acc)
             = fst acc ++ omap (total_point (by_timestamp in_series)
                                  (by_timestamp out_series)) tss).
  { induction tss as [|ts tss IH]; intros acc; cbn [fold_left omap].
    - now rewrite app_nil_r.
    - rewrite IH. unfold f, total_point.
      destruct (by_timestamp in_series !! ts) as [i|] eqn:Hi;
        [|cbn; now rewrite Hi].
      destruct (by_timestamp out_series !! ts) as [o|] eqn:Ho;
        [|cbn; now rewrite Hi, Ho].
      destruct bw_bps as [bw|]; [destruct (Qeq_bool bw 0)|];
        cbn; rewrite Hi, Ho; now rewrite <- app_assoc. }
  now rewrite H.
Qed.

Lemma total_points_timestamps in_map out_map tss :
  (forall ts, In ts tss -> ts ∈ dom in_map /\ ts ∈ dom out_map) ->
  map Timestamp (omap (total_point in_map out_map) tss) = tss.
Proof.
  induction tss as [|ts tss IH]; intros H; [reflexivity|].
  rewrite omap_cons. unfold total_point at 1.
  destruct (H ts (or_introl eq_refl)) as [Hi Ho].
  apply elem_of_dom in Hi as [i Hi]. apply elem_of_dom in Ho as [o Ho].
  rewrite Hi, Ho. cbn [map Timestamp]. f_equal. apply IH. intros t Ht. apply H. now right.
Qed.

(** The derived series, read from its two inputs. *)
Definition network_total_of (in_series out_series : list Point) : list Point :=
  omap (total_point (by_timestamp in_series) (by_timestamp out_series))
       (common_timestamps (by_timestamp in_series) (by_timestamp out_series)).

Lemma network_total_of_spec in_series out_series :
  let total := network_total_of in_series out_series in
  NoDup (map Timestamp total)
  /\ Sorted Z.le (map Timestamp total)
  /\ (forall ts, In ts (map Timestamp total) <->
        In ts (map Timestamp in_series) /\ In ts (map Timestamp out_series))
  /\ (forall p, In p total ->
        exists i o,
          by_timestamp in_series !! Timestamp p = Some i
          /\ by_timestamp out_series !! Timestamp p = Some o
          /\ In i in_series /\ In o out_series
          /\ Timestamp i = Timestamp p /\ Timestamp o = Timestamp p
          /\ Value p = (Value i + Value o)%Q
          /\ Unit p = "Bytes").
Proof.
  intros total. subst total. unfold network_total_of.
  destruct (common_timestamps_spec (by_timestamp in_series) (by_timestamp out_series))
    as (Hnd & Hsorted & Hmem).
  rewrite total_points_timestamps by (intros ts Hts; now apply Hmem).
  split; [exact Hnd|]. split; [exact Hsorted|]. split.
  - intros ts. rewrite Hmem, !by_timestamp_dom. tauto.
  - intros p Hp. apply list_elem_of_In, list_elem_of_omap in Hp as (ts & Hts & Hp).
    unfold total_point in Hp.
    destruct (by_timestamp in_series !! ts) as [i|] eqn:Hi; [|discriminate].
    destruct (by_timestamp out_series !! ts) as [o|] eqn:Ho; [|discriminate].
    injection Hp as <-. cbn.
    destruct (by_timestamp_lookup _ _ _ Hi) as [Hi1 Hi2].
    destruct (by_timestamp_lookup _ _ _ Ho) as [Ho1 Ho2].
    exists i, o. repeat split; auto.
Qed.

(** With one point per timestamp, the map holds every point of the
    series. *)
Lemma by_timestamp_NoDup series p :
  NoDup (map Timestamp series) -> In p series ->
  by_timestamp series !! Timestamp p = Some p.
Proof.
  intros Hnd Hin.
  assert (Hts : Timestamp p ∈ dom (by_timestamp series)).
  { apply by_timestamp_dom, in_map, Hin. }
  apply elem_of_dom in Hts as [q Hq].
  destruct (by_timestamp_lookup _ _ _ Hq) as [Hq1 Hq2].
  rewrite Hq. f_equal.
  clear Hq. induction series as [|d series IH]; [destruct Hin|].
  cbn in Hnd. apply NoDup_cons in Hnd as [Hd Hnd].
  destruct Hin as [-> | Hin], Hq1 as [-> | Hq1]; auto.
  - exfalso. apply Hd. rewrite <- Hq2. apply list_elem_of_In, in_map, Hq1.
  - exfalso. apply Hd. rewrite Hq2. apply list_elem_of_In, in_map, Hin.
Qed.

(** *** Keys of the result *)

Definition ends_with (suffix s : string) : bool :=
  let ls := String.list_ascii_of_string s in
  let lx := String.list_ascii_of_string suffix in
  bool_decide (drop (length ls - length lx) ls = lx).

Lemma list_ascii_app (a b : string) :
  String.list_ascii_of_string (a +:+ b)
  = String.list_ascii_of_string a ++ String.list_ascii_of_string b.
Proof.
  induction a as [|c a IH]; [reflexivity|].
  change (String c a +:+ b) with (String c (a +:+ b)).
  cbn [String.list_ascii_of_string app]. f_equal. exact IH.
Qed.

Lemma ends_with_app (p x : string) : ends_with x (p +:+ x) = true.
Proof.
  unfold ends_with. cbv zeta. apply bool_decide_eq_true.
  rewrite list_ascii_app, length_app.
  replace (length (String.list_ascii_of_string p)
           + length (String.list_ascii_of_string x)
           - length (String.list_ascii_of_string x))%nat
    with (length (String.list_ascii_of_string p)) by lia.
  apply drop_app_length.
Qed.

(** The keys the per-mount derivation writes. *)
Definition derived_key (k : string) : Prop :=
  exists part,
    k = part +:+ "_throughput" \/ k = part +:+ "_operations"
    \/ k = part +:+ "_idle_time_pct".

Lemma not_derived_key k :
  ends_with "_throughput" k = false ->
  ends_with "_operations" k = false ->
  ends_with "_idle_time_pct" k = false ->
  ~ derived_key k.
Proof.
  intros H1 H2 H3 (part & [-> | [-> | ->]]);
    rewrite ends_with_app in *; discriminate.
Qed.

Lemma derive_mount_other period res item res' k :
  ~ derived_key k ->
  derive_mount period res item = Ok res' ->
  res' !! k = res !! k.
Proof.
  intros Hk Hrun. destruct item as [part data]. unfold derive_mount in Hrun.
  destruct (rate_series period (read_bytes data) (write_bytes data) "Bytes"
              (entry_volume_id data) part) as [t|]; [|discriminate].
  destruct (rate_series period (read_ops data) (write_ops data) "Ops/s"
              (entry_volume_id data) part) as [o|]; [|discriminate].
  destruct (idle_series period (idle_time data) (entry_volume_id data) part)
    as [i|]; [|discriminate].
  cbn in Hrun. injection Hrun as <-.
  rewrite !lookup_insert_ne; [reflexivity | | |];
    intros <-; apply Hk; exists part; auto.
Qed.

Lemma derive_mounts_other period vd :
  forall res res' k,
    ~ derived_key k ->
    derive_mounts period res vd = Ok res' ->
    res' !! k = res !! k.
Proof.
  induction vd as [|item vd IH]; intros res res' k Hk Hrun; cbn in Hrun.
  - now injection Hrun as <-.
  - destruct (derive_mount period res item) as [res1|] eqn:H1; [|discriminate].
    cbn in Hrun. rewrite (IH res1 res' k Hk Hrun).
    now apply (derive_mount_other period res item).
Qed.

Lemma network_total_of_nil in_series out_series :
  in_series = [] \/ out_series = [] ->
  network_total_of in_series out_series = [].
Proof.
  intros H.
  destruct (network_total_of_spec in_series out_series) as (_ & _ & Hmem & _).
  destruct (network_total_of in_series out_series) as [|p l]; [reflexivity|].
  exfalso. destruct (proj1 (Hmem (Timestamp p)) (or_introl eq_refl)) as [Hi Ho].
  destruct H as [-> | ->]; [destruct Hi | destruct Ho].
Qed.

Lemma derive_network_spec env instance_type res res' :
  derive_network env instance_type res = Ok res' ->
  (forall k, k <> "network_total" -> k <> "network_total_pct" ->
             res' !! k = res !! k)
  /\ (res !! "network_total" = None ->
      default [] (res' !! "network_total")
      = network_total_of (default [] (res !! "network_in"))
                         (default [] (res !! "network_out"))).
Proof.
  unfold derive_network. intros Hrun.
  destruct (default [] (res !! "network_in")) as [|i0 ins] eqn:Hin.
  { injection Hrun as <-. split; [reflexivity|].
    intros ->. cbn. symmetry. apply network_total_of_nil. now left. }
  destruct (default [] (res !! "network_out")) as [|o0 outs] eqn:Hout.
  { injection Hrun as <-. split; [reflexivity|].
    intros ->. cbn. symmetry. apply network_total_of_nil. now right. }
  destruct (if String.eqb instance_type EmptyString then Ok None
            else (gbps <- bandwidth_gbps env instance_type ;;
                  Ok (Some (gbps * 1000000000)%Q))%result) as [bw|];
    [|discriminate].
  cbn [Py.bind] in Hrun.
  pose proof (network_totals_raw (i0 :: ins) (o0 :: outs) bw) as Hraw.
  destruct (network_totals (i0 :: ins) (o0 :: outs) bw) as [total_raw total_pct].
  cbn [fst] in Hraw. injection Hrun as <-.
  split.
  - intros k Hk1 Hk2.
    destruct total_pct; rewrite ?lookup_insert_ne by congruence; reflexivity.
  - intros _. fold (network_total_of (i0 :: ins) (o0 :: outs)) in Hraw.
    rewrite <- Hraw.
    destruct total_pct.
    + now rewrite lookup_insert_eq.
    + rewrite lookup_insert_ne by discriminate. now rewrite lookup_insert_eq.
Qed.

(** *** What the two merge loops do to [results] *)

Section Loops.
Variable env : Env.
Variable instance_id : string.
Variable start_time end_time : Z.
Variable active : bool.
Variable period : Z.
Variable partition_map : option (gmap string string).
Variable loaded : gmap string (list Point).

Lemma merge_instance_metric_results st item w st' w' :
  merge_instance_metric env instance_id start_time end_time active period
    loaded st item w = (Ok st', w') ->
  exists pts,
    results st' = <[fst item := pts]> (results st)
    /\ vol_data st' = vol_data st.
Proof.
  destruct item as [label [[[[ns name] dims] unit] stat]].
  unfold merge_instance_metric. cbn [fst].
  destruct active; [|intros [= <- <-]; eauto].
  destruct (Z.ltb _ end_time); [|intros [= <- <-]; eauto].
  intros Hrun. apply bind_ok in Hrun as (new_pts & w1 & _ & Hret).
  injection Hret as <- <-. eauto.
Qed.

Lemma merge_volume_metric_results st task w st' w' :
  merge_volume_metric env instance_id start_time end_time active period
    partition_map loaded st task w = (Ok st', w') ->
  results st' = results st.
Proof.
  unfold merge_volume_metric.
  destruct active; [|now intros [= <- <-]].
  destruct (Z.ltb _ end_time); [|now intros [= <- <-]].
  intros Hrun. apply bind_ok in Hrun as (new_pts & w1 & _ & Hret).
  now injection Hret as <- <-.
Qed.

Lemma instance_loop_results items :
  forall st w st' w',
    foldG (merge_instance_metric env instance_id start_time end_time active period
             loaded) items st w = (Ok st', w') ->
    (forall k, ~ In k (map fst items) -> results st' !! k = results st !! k)
    /\ vol_data st' = vol_data st.
Proof.
  induction items as [|item items IH]; intros st w st' w' Hrun; cbn in Hrun.
  - injection Hrun as <- <-. auto.
  - apply bind_ok in Hrun as (st1 & w1 & Hstep & Hrest).
    destruct (IH _ _ _ _ Hrest) as [IHr IHv].
    apply merge_instance_metric_results in Hstep as (pts & Hres & Hvd).
    split; [|congruence].
    intros k Hk. rewrite IHr by (intros H; apply Hk; now right).
    rewrite Hres. apply lookup_insert_ne. intros <-. apply Hk. now left.
Qed.

Lemma volume_loop_results tasks :
  forall st w st' w',
    foldG (merge_volume_metric env instance_id start_time end_time active period
             partition_map loaded) tasks st w = (Ok st', w') ->
    results st' = results st.
Proof.
  induction tasks as [|task tasks IH]; intros st w st' w' Hrun; cbn in Hrun.
  - now injection Hrun as <- <-.
  - apply bind_ok in Hrun as (st1 & w1 & Hstep & Hrest).
    rewrite (IH _ _ _ _ Hrest).
    now apply merge_volume_metric_results in Hstep.
Qed.

End Loops.

(** What a successful run is made of. *)
Lemma get_instance_metrics_ok env instance_id start_time end_time instance_type
    active period partition_map w res w' :
  get_instance_metrics env instance_id start_time end_time instance_type
    active period partition_map w = (Ok res, w') ->
  (res = ∅ /\ exists e, describe_instances env instance_id = Raise e)
  \/ exists desc loaded st1 w1 st2 w2 res4,
       describe_instances env instance_id = Ok desc
       /\ es_bulk_load env
            (map fst (METRICS instance_id)
             ++ map task_label (vol_tasks_of (mappings_of desc)))
            instance_id start_time end_time = Ok loaded
       /\ foldG (merge_instance_metric env instance_id start_time end_time active
                   period loaded) (METRICS instance_id)
            {| results := ∅; all_actions := []; vol_data := [] |} w
          = (Ok st1, w1)
       /\ foldG (merge_volume_metric env instance_id start_time end_time active
                   period partition_map loaded)
            (vol_tasks_of (mappings_of desc)) st1 w1
          = (Ok st2, w2)
       /\ derive_network env instance_type (results st2) = Ok res4
       /\ derive_mounts period res4 (vol_data st2) = Ok res.
Proof.
  unfold get_instance_metrics. intros Hrun.
  destruct (describe_instances env instance_id) as [desc|[code text|cls text]] eqn:Hd.
  - right. unfold merge_and_derive in Hrun.
    apply bind_ok in Hrun as (loaded & w0 & Hload & Hrun).
    apply lift_ok in Hload as [Hload ->].
    apply bind_ok in Hrun as (st1 & w1 & H1 & Hrun).
    apply bind_ok in Hrun as (st2 & w2 & H2 & Hrun).
    apply bind_ok in Hrun as (u & w3 & H3 & Hrun).
    apply bind_ok in Hrun as (res4 & w4 & H4 & Hrun).
    apply lift_ok in H4 as [H4 ->]. apply lift_ok in Hrun as [Hrun ->].
    exists desc, loaded, st1, w1, st2, w2, res4. auto 10.
  - destruct (bool_decide (code = Some "InvalidInstanceID.NotFound"));
      [|discriminate].
    injection Hrun as <- <-. left. eauto.
  - discriminate.
Qed.

(** *** C9 *)

(** C9: in the map a run returns, [network_total] has exactly one point
    for each timestamp present in both [network_in] and [network_out] and
    none for any other timestamp, in ascending order; the value of each
    point is the sum of the values the two series hold at its timestamp,
    its unit is Bytes.  (An absent series counts as empty; where a series
    repeats a timestamp, its last point at that timestamp is the one
    summed.) *)
Theorem network_total_join
    (env : Env) (instance_id : string) (start_time end_time : Z)
    (instance_type : string) (active_fetch_cloudwatch : bool) (period : Z)
    (partition_map : option (gmap string string)) (w w' : World)
    (res : gmap string (list Point)) :
  get_instance_metrics env instance_id start_time end_time instance_type
    active_fetch_cloudwatch period partition_map w = (Ok res, w') ->
  let network_in := default [] (res !! "network_in") in
  let network_out := default [] (res !! "network_out") in
  let network_total := default [] (res !! "network_total") in
  NoDup (map Timestamp network_total)
  /\ Sorted Z.le (map Timestamp network_total)
  /\ (forall ts, In ts (map Timestamp network_total) <->
        In ts (map Timestamp network_in) /\ In ts (map Timestamp network_out))
  /\ (forall p, In p network_total ->
        exists i o,
          by_timestamp network_in !! Timestamp p = Some i
          /\ by_timestamp network_out !! Timestamp p = Some o
          /\ In i network_in /\ In o network_out
          /\ Timestamp i = Timestamp p /\ Timestamp o = Timestamp p
          /\ Value p = (Value i + Value o)%Q
          /\ Unit p = "Bytes")
  /\ (NoDup (map Timestamp network_in) -> NoDup (map Timestamp network_out) ->
      forall i o, In i network_in -> In o network_out ->
        Timestamp i = Timestamp o ->
        exists p, In p network_total /\ Timestamp p = Timestamp i
                  /\ Value p = (Value i + Value o)%Q).
Proof.
  intros Hrun network_in network_out network_total.
  assert (Htotal : network_total = network_total_of network_in network_out).
  { subst network_in network_out network_total.
    apply get_instance_metrics_ok in Hrun
      as [[-> _] | (desc & loaded & st1 & w1 & st2 & w2 & res4 & Hd & Hl & H1 & H2 & H4 & H5)].
    - rewrite !lookup_empty. cbn. symmetry. apply network_total_of_nil. now left.
    - assert (Hkeys : forall k, ~ derived_key k -> res !! k = res4 !! k).
      { intros k Hk. now apply (derive_mounts_other period (vol_data st2)). }
      rewrite !Hkeys by (apply not_derived_key; reflexivity).
      destruct (derive_network_spec env instance_type _ _ H4) as [Hother Htot].
      rewrite (Hother "network_in"), (Hother "network_out") by discriminate.
      apply Htot.
      rewrite (volume_loop_results _ _ _ _ _ _ _ _ _ _ _ _ _ H2).
      destruct (instance_loop_results _ _ _ _ _ _ _ _ _ _ _ _ H1) as [Hres _].
      rewrite Hres; [apply lookup_empty|].
      cbn. intros [H | [H | [H | []]]]; discriminate. }
  destruct (network_total_of_spec network_in network_out) as (Hnd & Hs & Hmem & Hval).
  rewrite <- Htotal in Hnd, Hs, Hmem, Hval.
  repeat (split; [assumption|]).
  intros Hni Hno i o Hi Ho Hts.
  assert (Hin : In (Timestamp i) (map Timestamp network_total)).
  { apply Hmem. split; [now apply in_map|]. rewrite Hts. now apply in_map. }
  apply in_map_iff in Hin as (p & Hp & Hpin).
  exists p. split; [exact Hpin|]. split; [exact Hp|].
  destruct (Hval p Hpin) as (i' & o' & Hi' & Ho' & _ & _ & _ & _ & Hv & _).
  rewrite Hp, (by_timestamp_NoDup network_in i Hni Hi) in Hi'.
  rewrite Hp, Hts, (by_timestamp_NoDup network_out o Hno Ho) in Ho'.
  congruence.
Qed.

(** The scenario of the specification: network_in has points at t1 = 300
    and t2 = 600, network_out only at t1. *)
Definition join_env : Env :=
  {| describe_instances := fun _ => Ok [[[]]];
     msearch := fun _ =>
       Ok [ [];
            [ {| src_timestamp := 300; src_value := 100; src_unit := "Bytes";
                 src_volume_id := None; src_partition := None |};
              {| src_timestamp := 600; src_value := 200; src_unit := "Bytes";
                 src_volume_id := None; src_partition := None |} ];
            [ {| src_timestamp := 300; src_value := 50; src_unit := "Bytes";
                 src_volume_id := None; src_partition := None |} ] ];
     get_metric_statistics := fun _ => Ok [];
     bandwidth_gbps := fun _ => Ok 10%Q |}.

Definition join_run : result (gmap string (list Point)) * World :=
  get_instance_metrics join_env "i-0abc" 0 900 "m5.large" false 300 None
    {| fetches := []; bulk_requests := [] |}.

Definition join_result : gmap string (list Point) :=
  match fst join_run with
  | Ok res => res
  | Raise _ => ∅
  end.

(** Witness for C9: the run returns, and its [network_total] is the single
    point (t1, 150). *)
Lemma network_total_join_witness :
  default [] (join_result !! "network_total")
  = [ {| Timestamp := 300; Value := 150; Unit := "Bytes";
         volume_id := None; partition := None |} ]
  /\ NoDup (map Timestamp (default [] (join_result !! "network_total"))).
Proof.
  split; [vm_compute; reflexivity|].
  refine (proj1 (network_total_join join_env "i-0abc" 0 900 "m5.large" false 300 None
                   {| fetches := []; bulk_requests := [] |} (snd join_run)
                   join_result _)).
  vm_compute. reflexivity.
Defined.

(** *** The cached part of a series *)







(** *** The requests a run sends *)








Section GapFetch.
Variable env : Env.
Variable instance_id : string.
Variable start_time end_time : Z.
Variable active : bool.
Variable period : Z.
Variable partition_map : option (gmap string string).
Variable loaded : gmap string (list Point).
Variable vol_tasks : list VolTask.











End GapFetch.

(** *** C7 *)














End MetricsCacheFacts.

(** ** Properties of the sizing decision *)

Module InstanceUsageFacts.
Import InstanceUsage.

(** *** The catalogue *)

Lemma get_instance_specs_listed catalog it :
  In it (map fst catalog) -> exists sp, get_instance_specs catalog it = Ok sp.
Proof.
  induction catalog as [|[it' sp'] rest IH]; intros Hin; [destruct Hin|].
  cbn. destruct (String.eqb it' it) eqn:He; [eauto|].
  destruct Hin as [H | H]; [|auto].
  cbn in H. subst it'. now rewrite String.eqb_refl in He.
Qed.

Lemma with_specs_listed catalog names :
  (forall it, In it names -> In it (map fst catalog)) ->
  exists l, with_specs catalog names = Ok l.
Proof.
  induction names as [|it names IH]; intros H; cbn; [eauto|].
  destruct (get_instance_specs_listed catalog it) as (sp & ->);
    [apply H; now left|].
  destruct IH as (l & ->); [intros x Hx; apply H; now right|].
  cbn. eauto.
Qed.

Lemma candidates_ok catalog family arch_curr :
  exists cs, candidates catalog family arch_curr = Ok cs.
Proof.
  unfold candidates.
  destruct (with_specs_listed catalog (list_instance_types catalog family))
    as (l & ->).
  - unfold list_instance_types. intros it Hit.
    apply list_elem_of_In, list_elem_of_filter in Hit as [_ Hit].
    now apply list_elem_of_In.
  - cbn. eauto.
Qed.


(** *** The locals of recommend_instance *)

Definition no_swap : Swap :=
  {| used_swap_mib := 0; configured_swap_mib := 0; swap_pct := 0 |}.

(** The flags as the code computes them. *)
Definition over_of (th : Thresholds) (cpu swp net : Q) : bool :=
  negb (Qle_bool cpu (cpu_upper th))
  || negb (Qle_bool swp (swap_upper th))
  || negb (Qle_bool net (net_upper th)).

Definition under_of (th : Thresholds) (cpu swp net : Q) : bool :=
  negb (Qle_bool (cpu_lower th) cpu)
  && negb (Qle_bool (swap_lower th) swp)
  && negb (Qle_bool (net_lower th) net).

(** What a successful evaluation of the locals went through. *)
Lemma sizing_inv catalog host th s :
  sizing catalog host th = Ok s ->
  exists specs family,
    get_instance_specs catalog (InstanceType host) = Ok specs
    /\ family_of (InstanceType host) = Some family
    /\ scan_tasks (tasks host) no_swap = Ok (swap s)
    /\ net_pct_of (cloudwatch_network_total_pct host) = Ok (net_pct s)
    /\ candidates catalog family (architectures specs) = Ok (cands s)
    /\ cpu_pct s = _mean_cpu_pct (cloudwatch_cpu host)
    /\ req_vcpus s
       = Z.max 1 (Qceiling (inject_Z (vcpus specs) * cpu_pct s / 100 * 2))
    /\ rec_swap_mib s = recommended_swap (memory_mib specs)
    /\ effective_swap_mib s
       = effective_swap (rec_swap_mib s) (configured_swap_mib (swap s))
    /\ over s = over_of th (cpu_pct s) (swap_pct (swap s)) (net_pct s)
    /\ under s = under_of th (cpu_pct s) (swap_pct (swap s)) (net_pct s)
    /\ (exists required_ram_up, req_mem_up s = (required_ram_up + effective_swap_mib s)%Q)
    /\ req_mem_min s
       = (inject_Z (Qceiling (mem_used_mib s)) + effective_swap_mib s)%Q
    /\ (mem_total_mib s, mem_used_mib s, mem_pct s)
       = _extract_ram_from_tasks (tasks host).
Proof.
  unfold sizing. intros H.
  destruct (get_instance_specs catalog (InstanceType host)) as [specs|] eqn:Hs;
    [|discriminate].
  cbv beta iota delta [Py.bind] in H.
  destruct (_extract_ram_from_tasks (tasks host)) as [[mt mu] mp] eqn:Hram.
  fold no_swap in H.
  destruct (scan_tasks (tasks host) no_swap) as [sw|] eqn:Hsw; [|discriminate].
  destruct (net_pct_of (cloudwatch_network_total_pct host)) as [net|] eqn:Hn;
    [|discriminate].
  destruct (family_of (InstanceType host)) as [family|] eqn:Hf; [|discriminate].
  destruct (candidates catalog family (architectures specs)) as [cs|] eqn:Hc;
    [|discriminate].
  match type of H with
  | match ?r with Ok _ => _ | Raise _ => _ end = _ =>
      destruct r as [up|]; [|discriminate]
  end.
  match type of H with
  | match ?r with Ok _ => _ | Raise _ => _ end = _ =>
      destruct r as [down|]; [|discriminate]
  end.
  injection H as <-. cbn.
  exists specs, family. repeat split; eauto.
Qed.

(** When the lookups succeed and no threshold divides by zero, the locals
    are evaluated. *)
Lemma sizing_ok catalog host th specs family sw net :
  get_instance_specs catalog (InstanceType host) = Ok specs ->
  family_of (InstanceType host) = Some family ->
  scan_tasks (tasks host) no_swap = Ok sw ->
  net_pct_of (cloudwatch_network_total_pct host) = Ok net ->
  (Qeq_bool (configured_swap_mib sw) 0 = true
   \/ (Qeq_bool (swap_upper th) 0 = false /\ Qeq_bool (swap_lower th) 0 = false)) ->
  exists s,
    sizing catalog host th = Ok s
    /\ swap s = sw /\ net_pct s = net
    /\ cpu_pct s = _mean_cpu_pct (cloudwatch_cpu host).
Proof.
  intros Hs Hf Hsw Hn Hth. unfold sizing. rewrite Hs.
  cbv beta iota delta [Py.bind].
  destruct (_extract_ram_from_tasks (tasks host)) as [[mt mu] mp].
  fold no_swap. rewrite Hsw, Hn, Hf.
  destruct (candidates_ok catalog family (architectures specs)) as (cs & ->).
  destruct Hth as [Hz | [Hu Hl]].
  - rewrite Hz. eexists. split; [reflexivity|]. cbn. auto.
  - destruct (Qeq_bool (configured_swap_mib sw) 0).
    + eexists. split; [reflexivity|]. cbn. auto.
    + unfold py_div. rewrite Hu, Hl. eexists. split; [reflexivity|]. cbn. auto.
Qed.

(** *** The flags *)

Lemma Qle_bool_false (x y : Q) : Qle_bool x y = false <-> (y < x)%Q.
Proof.
  split.
  - intros H. apply Qnot_le_lt. intros Hle.
    apply Qle_bool_iff in Hle. congruence.
  - intros H. destruct (Qle_bool x y) eqn:E; [|reflexivity].
    apply Qle_bool_iff in E. now apply Qlt_not_le in H.
Qed.

(** [over] is any-of, [under] is all-of. *)
Lemma over_of_spec th cpu swp net :
  over_of th cpu swp net = true
  <-> (cpu_upper th < cpu \/ swap_upper th < swp \/ net_upper th < net)%Q.
Proof.
  unfold over_of.
  rewrite !orb_true_iff, !negb_true_iff, !Qle_bool_false. tauto.
Qed.

Lemma under_of_spec th cpu swp net :
  under_of th cpu swp net = true
  <-> (cpu < cpu_lower th /\ swp < swap_lower th /\ net < net_lower th)%Q.
Proof.
  unfold under_of.
  rewrite !andb_true_iff, !negb_true_iff, !Qle_bool_false. tauto.
Qed.

(** *** The CPU percentage *)

Lemma omap_all_none (points : list CwPoint) :
  (forall p, p ∈ points -> Value p = None) -> omap Value points = [].
Proof.
  induction points as [|p points IH]; intros H; [reflexivity|].
  cbn. rewrite (H p) by left. apply IH. intros q Hq. apply H. now right.
Qed.

Lemma mean_spec (vals : list Q) :
  vals <> [] ->
  (mean vals * inject_Z (Z.of_nat (length vals)) == fold_right Qplus 0 vals)%Q.
Proof.
  intros Hne. unfold mean.
  assert (Hn : ~ (inject_Z (Z.of_nat (length vals)) == 0)%Q).
  { destruct vals as [|v vals]; [contradiction|].
    unfold Qeq. cbn [length]. cbn -[Z.of_nat]. lia. }
  field. exact Hn.
Qed.

Lemma mean_cpu_pct_cases (points : list CwPoint) :
  let vals := omap Value points in
  (vals = [] -> _mean_cpu_pct points = 0%Q)
  /\ (vals <> [] -> (mean vals <= 1)%Q -> _mean_cpu_pct points = (mean vals * 100)%Q)
  /\ (vals <> [] -> (1 < mean vals)%Q -> _mean_cpu_pct points = mean vals).
Proof.
  cbv zeta. unfold _mean_cpu_pct.
  destruct (omap Value points) as [|v vals] eqn:E.
  - repeat split; intros; congruence.
  - split; [discriminate|]. split; intros _ Hm.
    + apply Qle_bool_iff in Hm. now rewrite Hm.
    + apply Qle_bool_false in Hm. now rewrite Hm.
Qed.


(** *** The swap recommendation *)

Lemma recommended_swap_formula (ram : Z) :
  recommended_swap ram = Zceil (IZR ram * (1 + exp (- IZR ram / 16384)))%R.
Proof.
  unfold recommended_swap, get_dynamic_itil_swap. f_equal.
  change (IZR (16 * 1024)) with 16384%R. ring.
Qed.

Lemma recommended_swap_lower (ram : Z) :
  (0 < ram)%Z -> (ram <= recommended_swap ram)%Z.
Proof.
  intros Hpos. rewrite recommended_swap_formula.
  apply le_IZR.
  eapply Rle_trans; [|apply Zceil_bound].
  pose proof (exp_pos (- IZR ram / 16384)) as He.
  apply IZR_lt in Hpos.
  nra.
Qed.

(** The smaller of two numbers, as [min(a, b)] picks it. *)
Definition smaller (a b : Q) : Q := if Qle_bool a b then a else b.

Lemma effective_swap_configured rec_swap configured :
  Qeq_bool configured 0 = false ->
  effective_swap rec_swap configured = smaller (inject_Z rec_swap) configured
  /\ (effective_swap rec_swap configured <= configured)%Q.
Proof.
  intros Hc. unfold effective_swap, smaller. rewrite Hc.
  destruct (Qle_bool (inject_Z rec_swap) configured) eqn:E; cbn.
  - split; [reflexivity|]. now apply Qle_bool_iff.
  - split; [reflexivity|]. apply Qle_refl.
Qed.

Lemma effective_swap_unconfigured rec_swap configured :
  Qeq_bool configured 0 = true ->
  effective_swap rec_swap configured = inject_Z rec_swap.
Proof. intros Hc. unfold effective_swap. now rewrite Hc. Qed.

(** The claim of C4 at one host: the effective swap is the smaller of the
    recommendation and the configured swap, hence at most the configured
    swap. *)
Definition swap_capped (catalog : Catalog) (host : Host) (th : Thresholds) : Prop :=
  forall s, sizing catalog host th = Ok s ->
    (effective_swap_mib s
     == smaller (inject_Z (rec_swap_mib s)) (configured_swap_mib (swap s)))%Q
    /\ (effective_swap_mib s <= configured_swap_mib (swap s))%Q.

(** *** Hosts *)

Definition m5_catalog : Catalog :=
  [ ("m5.large", {| vcpus := 2; memory_mib := 8192; architectures := ["x86_64"] |});
    ("m5.xlarge", {| vcpus := 4; memory_mib := 16384; architectures := ["x86_64"] |});
    ("c5.large", {| vcpus := 2; memory_mib := 4096; architectures := ["x86_64"] |}) ].

Definition point (v : Q) : CwPoint := {| Value := Some v |}.

Definition report (disk : list DiskEntry) : Task :=
  TaskBlobs [ BlobDict (Some {| ram_total := Some 8192%Q; ram_used := Some 4096%Q;
                                ram_percentage := Some 50%Q |}) None;
              BlobDict None (Some disk) ].

Definition root_disk : DiskEntry :=
  {| disk_partition := Some "/"; disk_used := Some 10240%Q; disk_total := Some 51200%Q |}.

Definition swap_disk (used total : Q) : DiskEntry :=
  {| disk_partition := Some "swap"; disk_used := Some used; disk_total := Some total |}.

(** An m5.large without a swap partition. *)
Definition swapless_host : Host :=
  {| InstanceType := "m5.large";
     cloudwatch_cpu := [point 50%Q];
     cloudwatch_network_total_pct := [point 50%Q];
     tasks := [report [root_disk]] |}.

(** An m5.large with 4096 MiB of swap, half of it used. *)
Definition steady_host : Host :=
  {| InstanceType := "m5.large";
     cloudwatch_cpu := [point 50%Q; point 40%Q; point 60%Q];
     cloudwatch_network_total_pct := [point 50%Q];
     tasks := [report [root_disk; swap_disk 2048%Q 4096%Q]] |}.

(** The swap locals of [steady_host]: 2048 / 4096 * 100, unreduced. *)
Definition steady_swap : Swap :=
  {| used_swap_mib := 2048; configured_swap_mib := 4096; swap_pct := 204800 # 4096 |}.

(** The swap locals of [idle_host]. *)
Definition idle_swap : Swap :=
  {| used_swap_mib := 0; configured_swap_mib := 4096; swap_pct := 0 # 4096 |}.

(** An m5.large whose CPU datapoints are all 1 (percent). *)
Definition idle_host : Host :=
  {| InstanceType := "m5.large";
     cloudwatch_cpu := [point 1%Q; point 1%Q];
     cloudwatch_network_total_pct := [point 10%Q];
     tasks := [report [root_disk; swap_disk 0%Q 4096%Q]] |}.

(** The locals of [swapless_host]. *)
Lemma swapless_host_sizing :
  exists s,
    sizing m5_catalog swapless_host default_thresholds = Ok s
    /\ swap s = no_swap
    /\ rec_swap_mib s = recommended_swap 8192
    /\ effective_swap_mib s = inject_Z (recommended_swap 8192).
Proof.
  destruct (sizing_ok m5_catalog swapless_host default_thresholds
              {| vcpus := 2; memory_mib := 8192; architectures := ["x86_64"] |}
              "m5" no_swap 50%Q)
    as (s & Hs & Hsw & _); [reflexivity.. | left; reflexivity |].
  exists s. split; [exact Hs|]. split; [exact Hsw|].
  destruct (sizing_inv _ _ _ _ Hs)
    as (specs & family & Hspecs & _ & _ & _ & _ & _ & _ & Hrec & Heff & _).
  injection Hspecs as <-. cbn in Hrec.
  split; [exact Hrec|].
  rewrite Heff, Hrec, Hsw. reflexivity.
Qed.

(** C4, counterexample: an m5.large (8192 MiB) that reports no swap
    partition.  The configured swap is 0, the smaller of the recommendation
    and 0 is 0, yet the effective swap is the whole recommendation, which
    is at least 8192 MiB. *)
Lemma effective_swap_exceeds_unconfigured :
  ~ swap_capped m5_catalog swapless_host default_thresholds
  /\ exists s,
       sizing m5_catalog swapless_host default_thresholds = Ok s
       /\ configured_swap_mib (swap s) = 0%Q
       /\ effective_swap_mib s = inject_Z (rec_swap_mib s)
       /\ (8192 <= rec_swap_mib s)%Z
       /\ (smaller (inject_Z (rec_swap_mib s)) (configured_swap_mib (swap s)) == 0)%Q.
Proof.
  destruct swapless_host_sizing as (s & Hs & Hsw & Hrec & Heff).
  assert (Hlow : (8192 <= recommended_swap 8192)%Z)
    by (apply recommended_swap_lower; lia).
  split.
  - intros Hcap. destruct (Hcap s Hs) as [_ Hle].
    rewrite Heff, Hsw in Hle. cbn in Hle.
    unfold Qle in Hle. cbn in Hle. lia.
  - exists s. split; [exact Hs|].
    rewrite Hsw, Hrec, Heff. cbn [configured_swap_mib no_swap].
    split; [reflexivity|]. split; [reflexivity|]. split; [exact Hlow|].
    unfold smaller.
    destruct (Qle_bool (inject_Z (recommended_swap 8192)) 0) eqn:E; [|reflexivity].
    apply Qle_bool_iff in E. unfold Qle in E. cbn in E. lia.
Qed.

(** C4, amended: the recommendation is
    ceil(ram * (1 + exp(-ram / 16384))).  When the host reports a non-zero
    configured swap, the effective swap is the smaller of the recommendation
    and the configured swap, hence never more than what is provisioned.
    When the configured swap is zero (no swap partition found, or one of
    size 0), the effective swap is the whole recommendation, which exceeds
    the configured swap as soon as the type has memory.  Both memory
    requirements add the effective swap. *)
Theorem effective_swap_min_or_recommendation
    (catalog : Catalog) (host : Host) (th : Thresholds) (s : Sizing) :
  sizing catalog host th = Ok s ->
  exists specs,
    get_instance_specs catalog (InstanceType host) = Ok specs
    /\ let ram := memory_mib specs in
       let configured := configured_swap_mib (swap s) in
       rec_swap_mib s = Zceil (IZR ram * (1 + exp (- IZR ram / 16384)))%R
       /\ (~ (configured == 0)%Q ->
           effective_swap_mib s = smaller (inject_Z (rec_swap_mib s)) configured
           /\ (effective_swap_mib s <= configured)%Q)
       /\ ((configured == 0)%Q ->
           effective_swap_mib s = inject_Z (rec_swap_mib s)
           /\ ((0 < ram)%Z -> (configured < effective_swap_mib s)%Q))
       /\ (exists required_ram_up,
             req_mem_up s = (required_ram_up + effective_swap_mib s)%Q)
       /\ req_mem_min s
          = (inject_Z (Qceiling (mem_used_mib s)) + effective_swap_mib s)%Q.
Proof.
  intros Hs.
  destruct (sizing_inv _ _ _ _ Hs)
    as (specs & family & Hspecs & _ & _ & _ & _ & _ & _ & Hrec & Heff & _ & _
        & Hup & Hmin & _).
  exists specs. split; [exact Hspecs|]. cbv zeta.
  split; [rewrite Hrec; apply recommended_swap_formula|].
  split; [|split; [|split; [exact Hup | exact Hmin]]].
  - intros Hnz. rewrite Heff. apply effective_swap_configured.
    destruct (Qeq_bool (configured_swap_mib (swap s)) 0) eqn:E; [|reflexivity].
    apply Qeq_bool_iff in E. contradiction.
  - intros Hz. apply Qeq_bool_iff in Hz as Hzb.
    rewrite Heff, (effective_swap_unconfigured _ _ Hzb).
    split; [reflexivity|].
    intros Hpos. rewrite Hz, Hrec.
    pose proof (recommended_swap_lower _ Hpos) as Hlow.
    unfold Qlt. cbn. lia.
Qed.

(** Witness for C4 amended: [steady_host] has 4096 MiB of swap, and its
    effective swap is the smaller of the recommendation and 4096. *)
Lemma effective_swap_min_or_recommendation_witness :
  exists s,
    sizing m5_catalog steady_host default_thresholds = Ok s
    /\ configured_swap_mib (swap s) = 4096%Q
    /\ effective_swap_mib s = smaller (inject_Z (rec_swap_mib s)) 4096
    /\ (effective_swap_mib s <= 4096)%Q.
Proof.
  destruct (sizing_ok m5_catalog steady_host default_thresholds
              {| vcpus := 2; memory_mib := 8192; architectures := ["x86_64"] |}
              "m5" steady_swap 50%Q)
    as (s & Hs & Hsw & _); [reflexivity.. | right; split; reflexivity |].
  exists s. split; [exact Hs|].
  destruct (effective_swap_min_or_recommendation _ _ _ _ Hs)
    as (specs & _ & _ & Hnz & _).
  rewrite Hsw in Hnz. cbn in Hnz.
  split; [rewrite Hsw; reflexivity|].
  apply Hnz. intros H. discriminate H.
Defined.



(** C10: the CPU percentage of recommend_instance.  With m the arithmetic
    mean of the non-null values of the host's CloudWatch cpu datapoints
    (m times their number is their sum), cpu_pct is 0 when there is no
    such value (no datapoint, or every value null), m * 100 when m <= 1,
    and m otherwise.  This is the number the vCPU requirement and both
    flags are computed from, so a mean of at most 1 is taken for a ratio
    and counts a hundredfold. *)
Theorem cpu_pct_rescaling
    (catalog : Catalog) (host : Host) (th : Thresholds) (s : Sizing) :
  sizing catalog host th = Ok s ->
  let vals := omap Value (cloudwatch_cpu host) in
  let m := mean vals in
  (vals = [] -> cpu_pct s = 0%Q)
  /\ ((forall p, p ∈ cloudwatch_cpu host -> Value p = None) -> cpu_pct s = 0%Q)
  /\ (vals <> [] ->
      (m * inject_Z (Z.of_nat (length vals)) == fold_right Qplus 0 vals)%Q)
  /\ (vals <> [] -> (m <= 1)%Q -> cpu_pct s = (m * 100)%Q)
  /\ (vals <> [] -> (1 < m)%Q -> cpu_pct s = m)
  /\ (exists specs,
        get_instance_specs catalog (InstanceType host) = Ok specs
        /\ req_vcpus s
           = Z.max 1 (Qceiling (inject_Z (vcpus specs) * cpu_pct s / 100 * 2)))
  /\ (over s = true
      <-> (cpu_upper th < cpu_pct s \/ swap_upper th < swap_pct (swap s)
           \/ net_upper th < net_pct s)%Q)
  /\ (under s = true
      <-> (cpu_pct s < cpu_lower th /\ swap_pct (swap s) < swap_lower th
           /\ net_pct s < net_lower th)%Q).
Proof.
  intros Hs.
  destruct (sizing_inv _ _ _ _ Hs)
    as (specs & family & Hspecs & _ & _ & _ & _ & Hcpu & Hreq & _ & _
        & Hover & Hunder & _).
  destruct (mean_cpu_pct_cases (cloudwatch_cpu host)) as (H0 & Hle & Hgt).
  cbv zeta in *. rewrite Hcpu.
  split; [exact H0|].
  split; [intros Hnone; apply H0, omap_all_none, Hnone|].
  split; [apply mean_spec|].
  split; [exact Hle|]. split; [exact Hgt|].
  split; [exists specs; split; [exact Hspecs | now rewrite <- Hcpu]|].
  rewrite <- Hcpu, Hover, Hunder.
  split; [apply over_of_spec | apply under_of_spec].
Qed.

(** Witness for C10: the datapoints of [idle_host] have mean 1, its
    cpu_pct is 100, four vCPUs are required and the over flag is raised. *)
Lemma cpu_pct_rescaling_witness :
  exists s,
    sizing m5_catalog idle_host default_thresholds = Ok s
    /\ (mean (omap Value (cloudwatch_cpu idle_host)) == 1)%Q
    /\ (cpu_pct s == 100)%Q
    /\ req_vcpus s = 4%Z
    /\ over s = true.
Proof.
  destruct (sizing_ok m5_catalog idle_host default_thresholds
              {| vcpus := 2; memory_mib := 8192; architectures := ["x86_64"] |}
              "m5" idle_swap 10%Q)
    as (s & Hs & Hsw & Hnet & _); [reflexivity.. | right; split; reflexivity |].
  exists s. split; [exact Hs|]. split; [reflexivity|].
  destruct (cpu_pct_rescaling _ _ _ _ Hs)
    as (_ & _ & _ & Hle & _ & (specs & Hspecs & Hreq) & Hover & _).
  injection Hspecs as <-.
  assert (Hcpu : cpu_pct s = (mean (omap Value (cloudwatch_cpu idle_host)) * 100)%Q)
    by (apply Hle; [discriminate | intros H; discriminate H]).
  rewrite Hcpu in Hreq |- *.
  split; [reflexivity|]. split; [exact Hreq|].
  apply Hover. left. rewrite Hcpu. reflexivity.
Defined.

(** What the rescaling does to [idle_host], whose CPU runs at 1 percent:
    it is sized as if it ran at 100 percent and moved to the larger type. *)
Lemma idle_host_scaled_up :
  exists r,
    recommend_instance m5_catalog idle_host default_thresholds = Ok r
    /\ NewInstanceType r = "m5.xlarge"
    /\ changed r = true.
Proof.
  destruct (sizing_ok m5_catalog idle_host default_thresholds
              {| vcpus := 2; memory_mib := 8192; architectures := ["x86_64"] |}
              "m5" idle_swap 10%Q)
    as (s & Hs & Hsw & Hnet & Hcpu); [reflexivity.. | right; split; reflexivity |].
  destruct (sizing_inv _ _ _ _ Hs)
    as (specs & family & Hspecs & Hf & _ & _ & Hc & _ & Hreq & _ & _
        & Hover & _).
  injection Hspecs as <-. injection Hf as <-.
  rewrite Hcpu in Hreq, Hover. rewrite Hsw, Hnet in Hover.
  change (req_vcpus s = 4%Z) in Hreq. change (over s = true) in Hover.
  assert (Hcands : cands s
                   = [("m5.large", {| vcpus := 2; memory_mib := 8192;
                                      architectures := ["x86_64"] |});
                      ("m5.xlarge", {| vcpus := 4; memory_mib := 16384;
                                       architectures := ["x86_64"] |})]).
  { change (candidates m5_catalog "m5" ["x86_64"]) with (Ok (A:=list (string * Specs))
             [("m5.large", {| vcpus := 2; memory_mib := 8192;
                              architectures := ["x86_64"] |});
              ("m5.xlarge", {| vcpus := 4; memory_mib := 16384;
                               architectures := ["x86_64"] |})]) in Hc.
    now injection Hc as <-. }
  unfold recommend_instance. rewrite Hs. cbn [Py.bind].
  rewrite Hover, Hcands, Hreq.
  unfold pick_smallest. cbn [first_fit vcpus memory_mib].
  change (4 <=? 2)%Z with false. change (4 <=? 4)%Z with true.
  cbn [andb].
  destruct (Qle_bool (req_mem_up s) (inject_Z 16384)); cbn [last Py.bind];
    (eexists; split; [reflexivity|]; split; reflexivity).
Qed.

End InstanceUsageFacts.

(** ** The orchestrator under arbitrary faults *)

Module Ec2ScalingRuns.
Import Ec2Scaling Ec2ScalingFacts.

(** The cloud calls of a resize, in the order [scale_instance] issues
    them. *)
Definition resize_calls (instance new_type : string) : list Ec2Call :=
  [StopInstances instance; WaitInstanceStopped instance;
   ModifyInstanceType instance new_type;
   StartInstances instance; WaitInstanceRunning instance].

(** Other actors leave the index alone. *)
Definition quiet (env : Env) : Prop := forall n s, external env n s = s.

(** Other actors do not create the document. *)
Definition never_created (env : Env) (doc_id : string) : Prop :=
  forall n s, s !! doc_id = None -> external env n s !! doc_id = None.

(** A computation that writes to no document but [doc_id]. *)
Definition frames (doc_id : string) {A : Type} (m : M A) : Prop :=
  forall w other, other <> doc_id ->
    store (snd (m w)) !! other = store w !! other.

(** A computation that only appends to the steps of [doc_id]. *)
Definition extends (doc_id : string) {A : Type} (m : M A) : Prop :=
  forall w l, log_steps w doc_id = Some l ->
    exists more, log_steps (snd (m w)) doc_id = Some (l ++ more).

Lemma frames_bind doc_id {A B : Type} (m : M A) (k : A -> M B) :
  frames doc_id m -> (forall a, frames doc_id (k a)) ->
  frames doc_id (bind m k).
Proof.
  intros Hm Hk w other Hne. unfold bind.
  specialize (Hm w other Hne).
  destruct (m w) as [[a|e] w1]; cbn in *; [|exact Hm].
  rewrite <- Hm. now apply Hk.
Qed.

Lemma frames_try_except doc_id {A : Type} (m : M A) (h : exn -> M A) :
  frames doc_id m -> (forall e, frames doc_id (h e)) ->
  frames doc_id (try_except m h).
Proof.
  intros Hm Hh w other Hne. unfold try_except.
  specialize (Hm w other Hne).
  destruct (m w) as [[a|e] w1]; cbn in *; [exact Hm|].
  rewrite <- Hm. now apply Hh.
Qed.

Lemma frames_append_step env doc_id name pct st msg :
  quiet env -> frames doc_id (append_step env doc_id name pct st msg).
Proof.
  intros Hq w other Hne. unfold append_step. rewrite Hq.
  destruct (store w !! doc_id); cbn; [|reflexivity].
  now apply lookup_insert_ne.
Qed.

Lemma frames_ec2_call env doc_id c : frames doc_id (ec2_call env c).
Proof.
  intros w other _. unfold ec2_call.
  now destruct (ec2_fault env c).
Qed.

Lemma frames_raise doc_id {A : Type} (e : exn) : frames doc_id (@raise A e).
Proof. now intros w other _. Qed.

Lemma extends_bind doc_id {A B : Type} (m : M A) (k : A -> M B) :
  extends doc_id m -> (forall a, extends doc_id (k a)) ->
  extends doc_id (bind m k).
Proof.
  intros Hm Hk w l Hl. unfold bind.
  destruct (Hm w l Hl) as (more & Hmore).
  destruct (m w) as [[a|e] w1]; cbn in *; [|eauto].
  destruct (Hk a w1 _ Hmore) as (more' & Hmore').
  exists (more ++ more'). now rewrite app_assoc.
Qed.

Lemma extends_try_except doc_id {A : Type} (m : M A) (h : exn -> M A) :
  extends doc_id m -> (forall e, extends doc_id (h e)) ->
  extends doc_id (try_except m h).
Proof.
  intros Hm Hh w l Hl. unfold try_except.
  destruct (Hm w l Hl) as (more & Hmore).
  destruct (m w) as [[a|e] w1]; cbn in *; [eauto|].
  destruct (Hh e w1 _ Hmore) as (more' & Hmore').
  exists (more ++ more'). now rewrite app_assoc.
Qed.

Lemma extends_append_step env doc_id name pct st msg :
  keeps_history env doc_id ->
  extends doc_id (append_step env doc_id name pct st msg).
Proof.
  intros Hk w l Hl.
  destruct (append_step_spec env doc_id name pct st msg w l Hk Hl)
    as (w' & Hrun & Hl' & _).
  rewrite Hrun. eauto.
Qed.

Lemma extends_ec2_call env doc_id c : extends doc_id (ec2_call env c).
Proof.
  intros w l Hl. exists []. rewrite app_nil_r.
  unfold ec2_call. now destruct (ec2_fault env c).
Qed.

Lemma extends_raise doc_id {A : Type} (e : exn) : extends doc_id (@raise A e).
Proof. intros w l Hl. exists []. now rewrite app_nil_r. Qed.

Ltac run_invariant lem_bind lem_try lem_append lem_call lem_raise :=
  unfold scale_instance, stop_instance, change_instance_type, start_instance;
  repeat first
    [ apply lem_try; [|intros ?]
    | apply lem_bind; [|intros ?]
    | apply lem_append; assumption
    | apply lem_call
    | apply lem_raise ].

(** X1: Whatever the cloud API answers, a run writes to no log document but
    its own. *)
Theorem scale_instance_frame
    (env : Env) (w : World) (instance new_type region doc_id other : string) :
  quiet env ->
  other <> doc_id ->
  store (snd (scale_instance env instance new_type region doc_id w)) !! other
  = store w !! other.
Proof.
  intros Hq Hne.
  assert (H : frames doc_id (scale_instance env instance new_type region doc_id)).
  { run_invariant (@frames_bind) (@frames_try_except) frames_append_step
      frames_ec2_call (@frames_raise). }
  exact (H w other Hne).
Qed.

(** X2: Whatever the cloud API answers and whatever status other actors write,
    the steps the log held before a run are a prefix of the steps it holds
    after it: the run only appends. *)
Theorem scale_instance_append_only
    (env : Env) (w : World) (instance new_type region doc_id : string)
    (l : list Step) :
  keeps_history env doc_id ->
  log_steps w doc_id = Some l ->
  exists more,
    log_steps (snd (scale_instance env instance new_type region doc_id w)) doc_id
    = Some (l ++ more).
Proof.
  intros Hk Hl.
  assert (H : extends doc_id (scale_instance env instance new_type region doc_id)).
  { run_invariant (@extends_bind) (@extends_try_except) extends_append_step
      extends_ec2_call (@extends_raise). }
  exact (H w l Hl).
Qed.

(** Two logs in the index: the canceled one of ["doc-1"] and a finished
    one of another instance. *)
Definition finished_doc : LogDoc :=
  {| instance_id := "i-0def"; timestamp := 50; status := "completed";
     steps := Some []; lastUpdated := Some 60 |}.

Definition two_logs : World :=
  {| store := <[ "doc-2" := finished_doc ]> (store canceled_world);
     requests := 0; calls := [] |}.

Lemma scale_instance_frame_witness :
  store (snd (scale_instance quiet_env "i-0abc" "m5.large" "us-east-1" "doc-1" two_logs))
    !! "doc-2" = Some finished_doc.
Proof.
  rewrite (scale_instance_frame quiet_env two_logs "i-0abc" "m5.large" "us-east-1"
             "doc-1" "doc-2").
  - reflexivity.
  - intros n s. reflexivity.
  - discriminate.
Defined.

Lemma scale_instance_append_only_witness :
  exists more,
    log_steps (snd (scale_instance modify_fails_env "i-0abc" "m5.large" "us-east-1"
                      "doc-1" canceled_world)) "doc-1"
    = Some ([ {| step_timestamp := 100; step_name := "Scale operation initiated";
                 percent_complete := 0; step_status := "in_progress";
                 message := EmptyString |} ] ++ more).
Proof.
  apply (scale_instance_append_only modify_fails_env canceled_world).
  - intros n s d Hd. exists d. split; [exact Hd | reflexivity].
  - reflexivity.
Defined.

(** *** The first call that fails *)

Lemma first_call_cases (instance new_type : string) (pre post : list Ec2Call) (c : Ec2Call) :
  resize_calls instance new_type = pre ++ c :: post ->
  (pre = [] /\ c = StopInstances instance)
  \/ (pre = [StopInstances instance] /\ c = WaitInstanceStopped instance)
  \/ (pre = [StopInstances instance; WaitInstanceStopped instance]
      /\ c = ModifyInstanceType instance new_type)
  \/ (pre = [StopInstances instance; WaitInstanceStopped instance;
             ModifyInstanceType instance new_type]
      /\ c = StartInstances instance)
  \/ (pre = [StopInstances instance; WaitInstanceStopped instance;
             ModifyInstanceType instance new_type; StartInstances instance]
      /\ c = WaitInstanceRunning instance).
Proof.
  unfold resize_calls. intros H.
  destruct pre as [|c1 [|c2 [|c3 [|c4 [|c5 pre]]]]]; cbn in H;
    injection H as <-; intros; subst; auto 10.
  destruct pre; discriminate.
Qed.

(** The marker steps written before the operation they announce. *)
Definition announces (s : Step) : bool :=
  bool_decide (step_name s = "Stopping instance")
  || bool_decide (step_name s = "Changing instance type")
  || bool_decide (step_name s = "Starting instance").

(** X3: The first cloud call that fails ends the run.  The exception reaches
    the caller, the calls issued are those before the failing one and the
    failing one, the log keeps what it held, gains the steps written so far
    (all in_progress) and a last step "Error occurred" with 0 percent,
    status failed and the text of the error, and its status is failed. *)
Theorem scale_instance_first_failure
    (env : Env) (w : World) (instance new_type region doc_id : string)
    (l : list Step) (pre post : list Ec2Call) (c : Ec2Call) (e : exn) :
  keeps_history env doc_id ->
  log_steps w doc_id = Some l ->
  resize_calls instance new_type = pre ++ c :: post ->
  (forall c', c' ∈ pre -> ec2_fault env c' = None) ->
  ec2_fault env c = Some e ->
  let out := scale_instance env instance new_type region doc_id w in
  fst out = Raise e
  /\ calls (snd out) = calls w ++ pre ++ [c]
  /\ log_status (snd out) doc_id = Some "failed"
  /\ exists written,
       log_steps (snd out) doc_id
       = Some (l ++ written
                 ++ [entry env (requests w + length written) "Error occurred" 0
                       "failed" (str e)])
       /\ Forall (fun s => step_status s = "in_progress") written
       /\ length (filter (fun s => announces s = true) written)
          = S (length (filter (fun s => reports_completion s = true) written))
       /\ requests (snd out) = (requests w + length written + 1)%nat.
Proof.
  intros Hk Hl Hcalls Hpre Hc out. subst out.
  assert (Hin : forall c', In c' pre -> ec2_fault env c' = None)
    by (intros c' H; apply Hpre, list_elem_of_In, H).
  unfold scale_instance, try_except, stop_instance, change_instance_type,
    start_instance, bind.
  destruct (first_call_cases _ _ _ _ _ Hcalls)
    as [[-> ->] | [[-> ->] | [[-> ->] | [[-> ->] | [-> ->]]]]].
  - step_append Hk. step_call. unfold raise.
    step_append Hk. cbn [fst snd].
    repeat match goal with H : requests _ = _ |- _ => rewrite H in * end.
    repeat match goal with H : calls _ = _ |- _ => rewrite H in * end.
    split; [reflexivity|]. split; [reflexivity|]. split; [assumption|].
    eexists [_]. split; [|split; [|split]].
    + match goal with H : log_steps _ _ = Some _ |- _ => rewrite H end.
      rewrite <- !app_assoc. cbn [app length].
      replace (requests w + 1)%nat with (S (requests w)) by lia. reflexivity.
    + repeat constructor.
    + reflexivity.
    + cbn [length]. lia.
  - pose proof (Hin (StopInstances instance) (or_introl eq_refl)) as H1.
    step_append Hk. step_call. step_call. unfold raise.
    step_append Hk. cbn [fst snd].
    repeat match goal with H : requests _ = _ |- _ => rewrite H in * end.
    repeat match goal with H : calls _ = _ |- _ => rewrite H in * end.
    split; [reflexivity|].
    split; [rewrite <- !app_assoc; reflexivity|]. split; [assumption|].
    eexists [_]. split; [|split; [|split]].
    + match goal with H : log_steps _ _ = Some _ |- _ => rewrite H end.
      rewrite <- !app_assoc. cbn [app length].
      replace (requests w + 1)%nat with (S (requests w)) by lia. reflexivity.
    + repeat constructor.
    + reflexivity.
    + cbn [length]. lia.
  - pose proof (Hin (StopInstances instance) (or_introl eq_refl)) as H1.
    pose proof (Hin (WaitInstanceStopped instance) (or_intror (or_introl eq_refl))) as H2.
    step_append Hk. step_call. step_call. step_append Hk.
    step_append Hk. step_call. unfold raise.
    step_append Hk. cbn [fst snd].
    repeat match goal with H : requests _ = _ |- _ => rewrite H in * end.
    repeat match goal with H : calls _ = _ |- _ => rewrite H in * end.
    split; [reflexivity|].
    split; [rewrite <- !app_assoc; reflexivity|]. split; [assumption|].
    eexists [_; _; _]. split; [|split; [|split]].
    + match goal with H : log_steps _ _ = Some _ |- _ => rewrite H end.
      rewrite <- !app_assoc. cbn [app length].
      replace (requests w + 3)%nat with (S (S (S (requests w)))) by lia. reflexivity.
    + repeat constructor.
    + reflexivity.
    + cbn [length]. lia.
  - pose proof (Hin (StopInstances instance) (or_introl eq_refl)) as H1.
    pose proof (Hin (WaitInstanceStopped instance) (or_intror (or_introl eq_refl))) as H2.
    pose proof (Hin (ModifyInstanceType instance new_type)
                  (or_intror (or_intror (or_introl eq_refl)))) as H3.
    step_append Hk. step_call. step_call. step_append Hk.
    step_append Hk. step_call. step_append Hk.
    step_append Hk. step_call. unfold raise.
    step_append Hk. cbn [fst snd].
    repeat match goal with H : requests _ = _ |- _ => rewrite H in * end.
    repeat match goal with H : calls _ = _ |- _ => rewrite H in * end.
    split; [reflexivity|].
    split; [rewrite <- !app_assoc; reflexivity|]. split; [assumption|].
    eexists [_; _; _; _; _]. split; [|split; [|split]].
    + match goal with H : log_steps _ _ = Some _ |- _ => rewrite H end.
      rewrite <- !app_assoc. cbn [app length].
      replace (requests w + 5)%nat with (S (S (S (S (S (requests w)))))) by lia.
      reflexivity.
    + repeat constructor.
    + reflexivity.
    + cbn [length]. lia.
  - pose proof (Hin (StopInstances instance) (or_introl eq_refl)) as H1.
    pose proof (Hin (WaitInstanceStopped instance) (or_intror (or_introl eq_refl))) as H2.
    pose proof (Hin (ModifyInstanceType instance new_type)
                  (or_intror (or_intror (or_introl eq_refl)))) as H3.
    pose proof (Hin (StartInstances instance)
                  (or_intror (or_intror (or_intror (or_introl eq_refl))))) as H4.
    step_append Hk. step_call. step_call. step_append Hk.
    step_append Hk. step_call. step_append Hk.
    step_append Hk. step_call. step_call. unfold raise.
    step_append Hk. cbn [fst snd].
    repeat match goal with H : requests _ = _ |- _ => rewrite H in * end.
    repeat match goal with H : calls _ = _ |- _ => rewrite H in * end.
    split; [reflexivity|].
    split; [rewrite <- !app_assoc; reflexivity|]. split; [assumption|].
    eexists [_; _; _; _; _]. split; [|split; [|split]].
    + match goal with H : log_steps _ _ = Some _ |- _ => rewrite H end.
      rewrite <- !app_assoc. cbn [app length].
      replace (requests w + 5)%nat with (S (S (S (S (S (requests w)))))) by lia.
      reflexivity.
    + repeat constructor.
    + reflexivity.
    + cbn [length]. lia.
Qed.

(** The waiter for the stopped state gives up. *)
Definition waiter_fails_env : Env :=
  {| clock := fun n => 200 + Z.of_nat n;
     ec2_fault := fun c =>
       match c with
       | WaitInstanceStopped _ =>
           Some (PyError "WaiterError" "Waiter InstanceStopped failed: Max attempts exceeded")
       | _ => None
       end;
     external := fun _ s => s |}.

Lemma scale_instance_first_failure_witness :
  fst (scale_instance waiter_fails_env "i-0abc" "m5.large" "us-east-1" "doc-1" stopped_world)
  = Raise (PyError "WaiterError" "Waiter InstanceStopped failed: Max attempts exceeded")
  /\ calls (snd (scale_instance waiter_fails_env "i-0abc" "m5.large" "us-east-1" "doc-1"
                   stopped_world))
     = [StopInstances "i-0abc"; WaitInstanceStopped "i-0abc"]
  /\ log_status (snd (scale_instance waiter_fails_env "i-0abc" "m5.large" "us-east-1"
                        "doc-1" stopped_world)) "doc-1"
     = Some "failed".
Proof.
  destruct (scale_instance_first_failure waiter_fails_env stopped_world
              "i-0abc" "m5.large" "us-east-1" "doc-1" []
              [StopInstances "i-0abc"]
              [ModifyInstanceType "i-0abc" "m5.large"; StartInstances "i-0abc";
               WaitInstanceRunning "i-0abc"]
              (WaitInstanceStopped "i-0abc")
              (PyError "WaiterError" "Waiter InstanceStopped failed: Max attempts exceeded"))
    as (H1 & H2 & H3 & _).
  - intros n s d Hd. exists d. split; [exact Hd | reflexivity].
  - reflexivity.
  - reflexivity.
  - intros c' Hc'. apply list_elem_of_singleton in Hc'. subst c'. reflexivity.
  - reflexivity.
  - auto.
Defined.

(** *** A run without its log document *)

(** X4: Neither [scale_instance] nor [append_step] creates the document (the
    call of [log_to_elasticsearch] in [scale_instance] is commented out).
    When it is missing, the first append fails, the handler's append fails
    too and its exception is the one the caller gets: no cloud call is
    made, the index is not written, and two requests were sent. *)
Theorem scale_instance_without_log
    (env : Env) (w : World) (instance new_type region doc_id : string) :
  never_created env doc_id ->
  store w !! doc_id = None ->
  let out := scale_instance env instance new_type region doc_id w in
  fst out = Raise (PyError "NotFoundError" "document_missing_exception")
  /\ calls (snd out) = calls w
  /\ store (snd out) !! doc_id = None
  /\ requests (snd out) = (requests w + 2)%nat.
Proof.
  intros Hn Hw out.
  assert (Hrun : out
                 = (Raise (PyError "NotFoundError" "document_missing_exception"),
                    {| store := external env (S (requests w))
                                  (external env (requests w) (store w));
                       requests := S (S (requests w)); calls := calls w |})).
  { subst out.
    unfold scale_instance, try_except, stop_instance, bind.
    unfold append_step at 1.
    rewrite (Hn _ _ Hw). cbv beta iota zeta.
    unfold append_step at 1. cbn [store requests calls].
    rewrite (Hn _ _ (Hn _ _ Hw)). reflexivity. }
  rewrite Hrun. cbn.
  split; [reflexivity|]. split; [reflexivity|].
  split; [apply Hn, Hn, Hw | lia].
Qed.

Definition no_log_world : World :=
  {| store := {[ "doc-2" := finished_doc ]}; requests := 0; calls := [] |}.

Lemma scale_instance_without_log_witness :
  calls (snd (scale_instance quiet_env "i-0abc" "m5.large" "us-east-1" "doc-1" no_log_world))
  = [].
Proof.
  refine (proj1 (proj2 (scale_instance_without_log quiet_env no_log_world
                          "i-0abc" "m5.large" "us-east-1" "doc-1" _ _))).
  - intros n s Hs. exact Hs.
  - reflexivity.
Defined.

End Ec2ScalingRuns.

(** ** More on the sizing decision *)

Module InstanceUsageMore.
Import InstanceUsage InstanceUsageFacts.

(** *** The swap recommendation *)

Lemma exp_neg_le_1 (x : R) : (0 <= x)%R -> (exp (- x) <= 1)%R.
Proof.
  intros Hx. destruct (Req_dec x 0) as [-> | Hne].
  - rewrite Ropp_0, exp_0. lra.
  - rewrite <- exp_0. left. apply exp_increasing. lra.
Qed.

Lemma Zceil_IZR (z : Z) : Zceil (IZR z) = z.
Proof. apply Zceil_eq. lra. Qed.

(** X5: [get_dynamic_itil_swap] interpolates between the two factors: for a
    non-negative amount of memory, a positive decay scale and
    min_factor <= max_factor, the result lies between
    ceil(memory * min_factor) and ceil(memory * max_factor).  With the
    defaults the recommended swap lies between the RAM and twice the RAM,
    and is 0 for no RAM. *)
Theorem get_dynamic_itil_swap_bounds
    (memory : Z) (max_factor min_factor : R) (decay_scale_mib : Z) :
  (0 <= memory)%Z -> (0 < decay_scale_mib)%Z -> (min_factor <= max_factor)%R ->
  (Zceil (IZR memory * min_factor)
   <= get_dynamic_itil_swap memory max_factor min_factor decay_scale_mib
   <= Zceil (IZR memory * max_factor))%Z
  /\ (memory <= recommended_swap memory <= 2 * memory)%Z
  /\ recommended_swap 0 = 0%Z.
Proof.
  intros Hm Hd Hf.
  apply IZR_le in Hm as Hm'. apply IZR_lt in Hd as Hd'.
  assert (Hbound : forall d : Z, (0 < d)%Z ->
            (0 < exp (- IZR memory / IZR d) <= 1)%R).
  { intros d Hdpos. apply IZR_lt in Hdpos. split; [apply exp_pos|].
    replace (- IZR memory / IZR d)%R with (- (IZR memory / IZR d))%R
      by (unfold Rdiv; ring).
    apply exp_neg_le_1. apply Rmult_le_pos; [exact Hm'|].
    left. now apply Rinv_0_lt_compat. }
  split; [|split].
  - unfold get_dynamic_itil_swap.
    destruct (Hbound decay_scale_mib Hd) as [He0 He1].
    set (e := exp (- IZR memory / IZR decay_scale_mib)) in *.
    assert (H1 : (0 <= (max_factor - min_factor) * e)%R) by nra.
    assert (H2 : ((max_factor - min_factor) * e <= max_factor - min_factor)%R) by nra.
    split; apply Zceil_le; apply Rmult_le_compat_l; lra.
  - unfold recommended_swap, get_dynamic_itil_swap.
    destruct (Hbound (16 * 1024)%Z eq_refl) as [He0 He1].
    set (e := exp (- IZR memory / IZR (16 * 1024))) in *.
    split.
    + rewrite <- (Zceil_IZR memory) at 1. apply Zceil_le. nra.
    + rewrite <- (Zceil_IZR (2 * memory)). apply Zceil_le.
      rewrite mult_IZR. nra.
  - unfold recommended_swap, get_dynamic_itil_swap.
    apply Zceil_eq. rewrite Rmult_0_l. lra.
Qed.

Lemma get_dynamic_itil_swap_bounds_witness :
  (8192 <= recommended_swap 8192 <= 16384)%Z.
Proof.
  exact (proj1 (proj2 (get_dynamic_itil_swap_bounds 8192 2 1 (16 * 1024)
                         ltac:(lia) ltac:(lia) ltac:(lra)))).
Defined.

(** *** The candidate list and [pick_smallest] *)

(** The order of the sort key (vcpus, memory_mib). *)
Definition size_le (a b : string * Specs) : Prop :=
  key_le (vcpus (snd a), memory_mib (snd a)) (vcpus (snd b), memory_mib (snd b)) = true.

(** The test of [pick_smallest]. *)
Definition fits (v_need : Z) (m_need : Q) (sp : Specs) : Prop :=
  (v_need <= vcpus sp)%Z /\ (m_need <= inject_Z (memory_mib sp))%Q.

Lemma fits_spec v_need m_need sp :
  Z.leb v_need (vcpus sp) && Qle_bool m_need (inject_Z (memory_mib sp)) = true
  <-> fits v_need m_need sp.
Proof.
  unfold fits. now rewrite andb_true_iff, Z.leb_le, Qle_bool_iff.
Qed.

Lemma key_le_spec (a b : Z * Z) :
  key_le a b = true <-> (a.1 < b.1 \/ (a.1 = b.1 /\ a.2 <= b.2))%Z.
Proof.
  unfold key_le.
  rewrite orb_true_iff, andb_true_iff, Z.ltb_lt, Z.eqb_eq, Z.leb_le. tauto.
Qed.

Lemma size_le_refl x : size_le x x.
Proof. apply key_le_spec. cbn. lia. Qed.

Lemma size_le_trans x y z : size_le x y -> size_le y z -> size_le x z.
Proof. unfold size_le. rewrite !key_le_spec. cbn. lia. Qed.

Lemma size_le_total x y : size_le x y \/ size_le y x.
Proof. unfold size_le. rewrite !key_le_spec. cbn. lia. Qed.

Lemma insert_by_size_elem x l y :
  y ∈ insert_by_size x l <-> y = x \/ y ∈ l.
Proof.
  induction l as [|z l IH]; cbn.
  - rewrite list_elem_of_singleton, elem_of_nil. tauto.
  - destruct (key_le _ _).
    + now rewrite elem_of_cons.
    + rewrite !elem_of_cons, IH. tauto.
Qed.

Lemma insert_by_size_sorted x l :
  StronglySorted size_le l -> StronglySorted size_le (insert_by_size x l).
Proof.
  induction 1 as [|z l Hs IH Hz]; cbn.
  - repeat constructor.
  - destruct (key_le _ _) eqn:E.
    + constructor; [now constructor|].
      constructor; [exact E|].
      eapply Forall_impl; [exact Hz|].
      intros y Hy. now apply (size_le_trans x z y).
    + constructor; [exact IH|].
      apply Forall_forall. intros y Hy.
      apply insert_by_size_elem in Hy as [-> | Hy].
      * destruct (size_le_total z x) as [H | H]; [exact H|].
        unfold size_le in H. congruence.
      * rewrite Forall_forall in Hz. now apply Hz.
Qed.

Lemma sort_by_size_spec (l : list (string * Specs)) :
  StronglySorted size_le (fold_right insert_by_size [] l)
  /\ forall y, y ∈ fold_right insert_by_size [] l <-> y ∈ l.
Proof.
  induction l as [|x l [IHs IHe]]; cbn.
  - split; [constructor | tauto].
  - split; [now apply insert_by_size_sorted|].
    intros y. rewrite insert_by_size_elem, elem_of_cons, IHe. tauto.
Qed.

Lemma with_specs_elem catalog names l it sp :
  with_specs catalog names = Ok l ->
  (it, sp) ∈ l <-> it ∈ names /\ get_instance_specs catalog it = Ok sp.
Proof.
  revert l. induction names as [|n names IH]; intros l H; cbn in H.
  - injection H as <-. rewrite !elem_of_nil. tauto.
  - destruct (get_instance_specs catalog n) as [spn|] eqn:En; [|discriminate].
    cbn in H.
    destruct (with_specs catalog names) as [more|]; [|discriminate].
    cbn in H. injection H as <-.
    rewrite !elem_of_cons, (IH more eq_refl). split.
    + intros [[= -> ->] | [H1 H2]]; auto.
    + intros [[-> | H1] H2]; [left | right; auto].
      rewrite En in H2. now injection H2 as ->.
Qed.

Lemma candidates_sorted_elem (catalog : Catalog) (family : string)
    (arch_curr : list string) :
  exists cs,
    candidates catalog family arch_curr = Ok cs
    /\ StronglySorted size_le cs
    /\ forall it sp,
         (it, sp) ∈ cs
         <-> String.prefix (family +:+ ".") it = true
             /\ it ∈ map fst catalog
             /\ get_instance_specs catalog it = Ok sp
             /\ exists a, a ∈ arch_curr /\ a ∈ architectures sp.
Proof.
  destruct (candidates_ok catalog family arch_curr) as (cs & Hcs).
  exists cs. split; [exact Hcs|].
  unfold candidates in Hcs.
  destruct (with_specs catalog (list_instance_types catalog family)) as [all|] eqn:Hall;
    [|discriminate].
  cbn in Hcs. injection Hcs as <-.
  destruct (sort_by_size_spec
              (filter (fun x => shares_architecture arch_curr x.2 = true) all))
    as [Hs He].
  split; [exact Hs|].
  intros it sp. rewrite He, list_elem_of_filter, (with_specs_elem _ _ _ _ _ Hall).
  unfold list_instance_types. rewrite list_elem_of_filter.
  unfold shares_architecture. cbn.
  rewrite existsb_exists.
  split.
  - intros ((a & Ha & Hb) & (Hp & Hin) & Hsp).
    repeat split; auto.
    exists a. split; [now apply list_elem_of_In|].
    now apply bool_decide_eq_true in Hb.
  - intros (Hp & Hin & Hsp & a & Ha & Hb).
    repeat split; auto.
    exists a. split; [now apply list_elem_of_In|].
    now apply bool_decide_eq_true.
Qed.

(** X6: The candidate list is always built.  It is sorted by (vcpus,
    memory_mib) and holds exactly the types the provider lists under the
    family prefix that share an architecture with the current type, each
    with its specs. *)
Theorem candidates_spec (catalog : Catalog) (family : string) (arch_curr : list string) :
  exists cs,
    candidates catalog family arch_curr = Ok cs
    /\ StronglySorted size_le cs
    /\ forall it sp,
         (it, sp) ∈ cs
         <-> String.prefix (family +:+ ".") it = true
             /\ it ∈ map fst catalog
             /\ get_instance_specs catalog it = Ok sp
             /\ exists a, a ∈ arch_curr /\ a ∈ architectures sp.
Proof. exact (candidates_sorted_elem catalog family arch_curr). Qed.

Lemma first_fit_some cs v_need m_need it :
  first_fit cs v_need m_need = Some it ->
  exists pre sp post,
    cs = pre ++ (it, sp) :: post
    /\ fits v_need m_need sp
    /\ forall x, x ∈ pre -> ~ fits v_need m_need x.2.
Proof.
  induction cs as [|[it' sp'] cs IH]; cbn; [discriminate|].
  destruct (Z.leb v_need (vcpus sp') && Qle_bool m_need (inject_Z (memory_mib sp')))
    eqn:E.
  - intros [= <-]. exists [], sp', cs. split; [reflexivity|].
    split; [now apply fits_spec|]. intros x Hx. now apply elem_of_nil in Hx.
  - intros H. destruct (IH H) as (pre & sp & post & -> & Hf & Hpre).
    exists ((it', sp') :: pre), sp, post. split; [reflexivity|].
    split; [exact Hf|].
    intros x Hx. apply elem_of_cons in Hx as [-> | Hx]; [|auto].
    cbn. intros Hfit. apply fits_spec in Hfit. congruence.
Qed.

Lemma first_fit_none cs v_need m_need :
  first_fit cs v_need m_need = None ->
  forall x, x ∈ cs -> ~ fits v_need m_need x.2.
Proof.
  induction cs as [|[it' sp'] cs IH]; cbn; intros H x Hx.
  - now apply elem_of_nil in Hx.
  - destruct (Z.leb v_need (vcpus sp') && Qle_bool m_need (inject_Z (memory_mib sp')))
      eqn:E; [discriminate|].
    apply elem_of_cons in Hx as [-> | Hx]; [|now apply IH].
    cbn. intros Hfit. apply fits_spec in Hfit. congruence.
Qed.

Lemma sorted_last_greatest (cs : list (string * Specs)) x :
  StronglySorted size_le cs -> last cs = Some x ->
  forall y, y ∈ cs -> size_le y x.
Proof.
  induction 1 as [|z l Hs IH Hz]; [discriminate|].
  intros Hlast y Hy. destruct l as [|z' l].
  - cbn in Hlast. injection Hlast as <-.
    apply list_elem_of_singleton in Hy as ->. apply size_le_refl.
  - change (last (z :: z' :: l)) with (last (z' :: l)) in Hlast.
    apply elem_of_cons in Hy as [-> | Hy]; [|now apply IH].
    rewrite Forall_forall in Hz. apply Hz.
    now apply last_Some_elem_of.
Qed.

(** X7: [pick_smallest] on a sorted, non-empty candidate list returns a
    candidate.  When some candidate has enough vCPUs and memory, the one
    returned has, and no candidate that has is smaller in the sort order;
    when none has, the one returned is the largest candidate.  On an empty
    list it raises IndexError. *)
Theorem pick_smallest_least
    (cs : list (string * Specs)) (v_need : Z) (m_need : Q) :
  StronglySorted size_le cs ->
  cs <> [] ->
  pick_smallest [] v_need m_need = Raise (PyError "IndexError" "list index out of range")
  /\ exists it sp,
       pick_smallest cs v_need m_need = Ok it
       /\ (it, sp) ∈ cs
       /\ ((fits v_need m_need sp
            /\ forall x, x ∈ cs -> fits v_need m_need x.2 -> size_le (it, sp) x)
           \/ ((forall x, x ∈ cs -> ~ fits v_need m_need x.2)
               /\ forall x, x ∈ cs -> size_le x (it, sp))).
Proof.
  intros Hs Hne. split; [reflexivity|].
  unfold pick_smallest.
  destruct (first_fit cs v_need m_need) as [it|] eqn:Hff.
  - destruct (first_fit_some _ _ _ _ Hff) as (pre & sp & post & -> & Hfit & Hpre).
    exists it, sp. split; [reflexivity|].
    split; [apply elem_of_app; right; left|].
    left. split; [exact Hfit|].
    intros x Hx Hxfit.
    apply elem_of_app in Hx as [Hx | Hx]; [now apply Hpre in Hx|].
    apply elem_of_cons in Hx as [-> | Hx]; [apply size_le_refl|].
    apply StronglySorted_app_1_r in Hs.
    apply StronglySorted_inv in Hs as [_ Hall].
    rewrite Forall_forall in Hall. now apply Hall.
  - destruct (last cs) as [[it sp]|] eqn:Hlast.
    + exists it, sp. split; [reflexivity|].
      split.
      { now apply last_Some_elem_of. }
      right. split; [now apply first_fit_none|].
      now apply sorted_last_greatest.
    + apply last_None in Hlast. contradiction.
Qed.

Lemma pick_smallest_least_witness :
  exists it sp,
    pick_smallest
      [("m5.large", {| vcpus := 2; memory_mib := 8192; architectures := ["x86_64"] |});
       ("m5.xlarge", {| vcpus := 4; memory_mib := 16384; architectures := ["x86_64"] |})]
      3 (9000 # 1) = Ok it
    /\ (it, sp) ∈ [("m5.large", {| vcpus := 2; memory_mib := 8192;
                                   architectures := ["x86_64"] |});
                   ("m5.xlarge", {| vcpus := 4; memory_mib := 16384;
                                    architectures := ["x86_64"] |})].
Proof.
  destruct (pick_smallest_least
              [("m5.large", {| vcpus := 2; memory_mib := 8192;
                               architectures := ["x86_64"] |});
               ("m5.xlarge", {| vcpus := 4; memory_mib := 16384;
                                architectures := ["x86_64"] |})]
              3 (9000 # 1))
    as (_ & it & sp & Hp & Hin & _).
  - repeat constructor.
  - discriminate.
  - exists it, sp. split; assumption.
Defined.

(** *** [_cmp_size] *)

(** (vcpus, memory_mib) of [a] is below that of [b], vCPUs first. *)
Definition smaller_than (a b : Specs) : Prop :=
  (vcpus a < vcpus b \/ (vcpus a = vcpus b /\ memory_mib a < memory_mib b))%Z.

Lemma cmp_size_cases (catalog : Catalog) (a b : string) (sa sb : Specs) :
  get_instance_specs catalog a = Ok sa ->
  get_instance_specs catalog b = Ok sb ->
  exists c,
    _cmp_size catalog a b = Ok c
    /\ _cmp_size catalog b a = Ok (- c)%Z
    /\ (c = -1 \/ c = 0 \/ c = 1)%Z
    /\ (c = -1 <-> smaller_than sa sb)%Z
    /\ (c = 0 <-> vcpus sa = vcpus sb /\ memory_mib sa = memory_mib sb)%Z
    /\ (c = 1 <-> smaller_than sb sa)%Z.
Proof.
  intros Ha Hb. unfold _cmp_size, smaller_than. rewrite Ha, Hb. cbn.
  rewrite (Z.eqb_sym (vcpus sb)).
  destruct (Z.eqb_spec (vcpus sa) (vcpus sb)) as [Hv | Hv]; cbn.
  - destruct (Z.ltb_spec (memory_mib sb) (memory_mib sa)),
             (Z.ltb_spec (memory_mib sa) (memory_mib sb));
      eexists; (split; [reflexivity|]); (split; [reflexivity|]); lia.
  - destruct (Z.ltb_spec (vcpus sb) (vcpus sa)),
             (Z.ltb_spec (vcpus sa) (vcpus sb));
      eexists; (split; [reflexivity|]); (split; [reflexivity|]); lia.
Qed.

(** X8: [_cmp_size] is the three-way comparison of (vcpus, memory_mib) in
    lexicographic order: it answers -1, 0 or 1, swapping the arguments
    negates the answer, and 0 means equal vCPUs and equal memory. *)
Theorem cmp_size_order (catalog : Catalog) (a b : string) (sa sb : Specs) :
  get_instance_specs catalog a = Ok sa ->
  get_instance_specs catalog b = Ok sb ->
  exists c,
    _cmp_size catalog a b = Ok c
    /\ _cmp_size catalog b a = Ok (- c)%Z
    /\ (c = -1 \/ c = 0 \/ c = 1)%Z
    /\ (c = -1 <-> smaller_than sa sb)%Z
    /\ (c = 0 <-> vcpus sa = vcpus sb /\ memory_mib sa = memory_mib sb)%Z
    /\ (c = 1 <-> smaller_than sb sa)%Z.
Proof. exact (cmp_size_cases catalog a b sa sb). Qed.

Lemma cmp_size_order_witness :
  _cmp_size m5_catalog "m5.large" "m5.xlarge" = Ok (-1)%Z
  /\ _cmp_size m5_catalog "m5.xlarge" "m5.large" = Ok 1%Z.
Proof.
  destruct (cmp_size_order m5_catalog "m5.large" "m5.xlarge"
              {| vcpus := 2; memory_mib := 8192; architectures := ["x86_64"] |}
              {| vcpus := 4; memory_mib := 16384; architectures := ["x86_64"] |}
              eq_refl eq_refl)
    as (c & H1 & H2 & _ & Hlt & _).
  assert (Hc : c = (-1)%Z) by (apply Hlt; left; reflexivity).
  subst c. split; assumption.
Defined.

(** *** The swap locals *)

(** The three swap locals agree: the percentage is that of used over
    configured, and 0 when no swap is configured. *)
Definition swap_consistent (sw : Swap) : Prop :=
  (Qeq_bool (configured_swap_mib sw) 0 = true /\ swap_pct sw = 0%Q)
  \/ (Qeq_bool (configured_swap_mib sw) 0 = false
      /\ swap_pct sw = (used_swap_mib sw / configured_swap_mib sw * 100)%Q).

Lemma scan_disk_consistent ds s :
  Qeq_bool (configured_swap_mib s) 0 = true -> swap_pct s = 0%Q ->
  swap_consistent (scan_disk ds s).
Proof.
  intros Hc Hp. induction ds as [|d ds IH]; cbn.
  - left. auto.
  - destruct (bool_decide (disk_partition d = Some "swap")); [|exact IH].
    destruct (Qeq_bool (_to_mib (disk_total d)) 0) eqn:E.
    + left. cbn. rewrite E. auto.
    + right. cbn. rewrite E. auto.
Qed.

Lemma scan_tasks_consistent tasks s sw :
  Qeq_bool (configured_swap_mib s) 0 = true -> swap_pct s = 0%Q ->
  scan_tasks tasks s = Ok sw -> swap_consistent sw.
Proof.
  revert s. induction tasks as [|t tasks IH]; intros s Hc Hp H.
  - cbn in H. injection H as <-. left. auto.
  - destruct t as [blobs|]; [|cbn in H; eauto].
    destruct blobs as [|b0 [|b1 blobs]]; [cbn in H; eauto..|].
    destruct b1 as [ram disk|]; [|discriminate].
    cbn in H.
    pose proof (scan_disk_consistent (default [] disk) s Hc Hp) as Hd.
    destruct (Qeq_bool (configured_swap_mib (scan_disk (default [] disk) s)) 0) eqn:E.
    + destruct Hd as [[_ Hp'] | [Hc' _]]; [|congruence].
      apply (IH _ E Hp' H).
    + injection H as <-. exact Hd.
Qed.

(** X9: The swap percentage the decision uses always agrees with the used and
    configured swap it read: it is used / configured * 100 when a swap
    partition of non-zero size was found, and 0 otherwise (whatever the
    used figure says). *)
Theorem sizing_swap_consistent
    (catalog : Catalog) (host : Host) (th : Thresholds) (s : Sizing) :
  sizing catalog host th = Ok s ->
  swap_consistent (swap s).
Proof.
  intros Hs.
  destruct (sizing_inv _ _ _ _ Hs) as (_ & _ & _ & _ & Hscan & _).
  now apply (scan_tasks_consistent (tasks host) no_swap).
Qed.

Lemma sizing_swap_consistent_witness :
  exists s,
    sizing m5_catalog steady_host default_thresholds = Ok s
    /\ swap_consistent (swap s).
Proof.
  destruct (sizing_ok m5_catalog steady_host default_thresholds
              {| vcpus := 2; memory_mib := 8192; architectures := ["x86_64"] |}
              "m5" steady_swap 50%Q)
    as (s & Hs & _); [reflexivity.. | right; split; reflexivity |].
  exists s. split; [exact Hs|].
  exact (sizing_swap_consistent _ _ _ _ Hs).
Defined.

(** *** What [recommend_instance] returns *)

Lemma family_of_prefix (current family : string) :
  family_of current = Some family ->
  String.prefix (family +:+ ".") current = true.
Proof.
  revert family. induction current as [|c rest IH]; intros family; cbn; [discriminate|].
  destruct (Ascii.eqb_spec c ".") as [-> | Hdot].
  - intros [= <-]. cbn. now destruct rest.
  - destruct (Ascii.eqb c "010"); [discriminate|].
    destruct (family_of rest) as [f|]; [|discriminate].
    intros [= <-].
    change (String c f +:+ ".") with (String c (f +:+ ".")). cbn.
    destruct (ascii_dec c c) as [_ | Hne]; [|contradiction].
    now apply IH.
Qed.

(** The run of [recommend_instance] behind a result. *)
Lemma recommend_instance_inv catalog host th r :
  recommend_instance catalog host th = Ok r ->
  exists s cmp,
    sizing catalog host th = Ok s
    /\ (if over s then pick_smallest (cands s) (req_vcpus s) (req_mem_up s)
        else if under s then pick_smallest (cands s) (req_vcpus s) (req_mem_min s)
        else Ok (InstanceType host)) = Ok (NewInstanceType r)
    /\ _cmp_size catalog (NewInstanceType r) (InstanceType host) = Ok cmp
    /\ changed r = negb (Z.eqb cmp 0)
    /\ Reason r
       = [ (if Z.eqb cmp 1 then ScaleUp (req_vcpus s) (req_mem_up s) (mem_total_mib s)
            else if Z.eqb cmp (-1) then ScaleDown (NewInstanceType r) (req_mem_min s)
            else NoChange);
           RamUsage (mem_used_mib s) (mem_total_mib s) (mem_pct s) ]
    /\ MemoryUsedMiB r = mem_used_mib s
    /\ MemoryTotalMiB r = mem_total_mib s
    /\ MemoryPct r = mem_pct s.
Proof.
  unfold recommend_instance. intros H.
  destruct (sizing catalog host th) as [s|] eqn:Hs; [|discriminate].
  cbv beta iota delta [Py.bind] in H.
  match type of H with
  | match ?t with Ok _ => _ | Raise _ => _ end = _ =>
      destruct t as [target|] eqn:Ht; [|discriminate]
  end.
  destruct (_cmp_size catalog target (InstanceType host)) as [cmp|] eqn:Hc;
    [|discriminate].
  injection H as <-. cbn.
  exists s, cmp. repeat split; auto.
Qed.

Lemma pick_smallest_elem cs v_need m_need it :
  pick_smallest cs v_need m_need = Ok it -> exists sp, (it, sp) ∈ cs.
Proof.
  unfold pick_smallest.
  destruct (first_fit cs v_need m_need) as [it'|] eqn:Hff.
  - intros [= <-].
    destruct (first_fit_some _ _ _ _ Hff) as (pre & sp & post & -> & _).
    exists sp. apply elem_of_app. right. left.
  - destruct (last cs) as [[it' sp]|] eqn:Hl; [|discriminate].
    intros [= <-]. exists sp. now apply last_Some_elem_of.
Qed.

(** X10: Whatever [recommend_instance] returns is consistent.  The proposed
    type is in the catalogue and of the family of the current type (it is
    the current type, or a candidate sharing an architecture with it);
    [changed] is false exactly when it has the vCPUs and the memory of the
    current type; the first reason line says up when it is larger, down
    when it is smaller (vCPUs first) and no change when it is equal; the
    memory figures are those of [_extract_ram_from_tasks]. *)
Theorem recommend_instance_result
    (catalog : Catalog) (host : Host) (th : Thresholds) (r : Recommendation) :
  recommend_instance catalog host th = Ok r ->
  exists s cur tgt family,
    sizing catalog host th = Ok s
    /\ get_instance_specs catalog (InstanceType host) = Ok cur
    /\ get_instance_specs catalog (NewInstanceType r) = Ok tgt
    /\ family_of (InstanceType host) = Some family
    /\ String.prefix (family +:+ ".") (NewInstanceType r) = true
    /\ (NewInstanceType r = InstanceType host
        \/ exists a, a ∈ architectures cur /\ a ∈ architectures tgt)
    /\ (changed r = false <-> vcpus tgt = vcpus cur /\ memory_mib tgt = memory_mib cur)
    /\ (smaller_than cur tgt ->
        hd_error (Reason r) = Some (ScaleUp (req_vcpus s) (req_mem_up s) (mem_total_mib s)))
    /\ (smaller_than tgt cur ->
        hd_error (Reason r) = Some (ScaleDown (NewInstanceType r) (req_mem_min s)))
    /\ (vcpus tgt = vcpus cur /\ memory_mib tgt = memory_mib cur ->
        hd_error (Reason r) = Some NoChange)
    /\ (MemoryTotalMiB r, MemoryUsedMiB r, MemoryPct r)
       = _extract_ram_from_tasks (tasks host).
Proof.
  intros Hr.
  destruct (recommend_instance_inv _ _ _ _ Hr)
    as (s & cmp & Hs & Ht & Hc & Hch & Hre & Hmu & Hmt & Hmp).
  destruct (sizing_inv _ _ _ _ Hs)
    as (cur & family & Hcur & Hf & _ & _ & Hcands & _ & _ & _ & _ & _ & _ & _ & _ & Hram).
  destruct (candidates_sorted_elem catalog family (architectures cur))
    as (cs & Hcs & _ & Helem).
  rewrite Hcands in Hcs. injection Hcs as <-.
  assert (Htgt : NewInstanceType r = InstanceType host
                 \/ exists tgt, (NewInstanceType r, tgt) ∈ cands s).
  { destruct (over s); [right; eapply pick_smallest_elem; exact Ht|].
    destruct (under s); [right; eapply pick_smallest_elem; exact Ht|].
    left. now injection Ht as <-. }
  assert (Hspec : exists tgt,
            get_instance_specs catalog (NewInstanceType r) = Ok tgt
            /\ String.prefix (family +:+ ".") (NewInstanceType r) = true
            /\ (NewInstanceType r = InstanceType host
                \/ exists a, a ∈ architectures cur /\ a ∈ architectures tgt)).
  { destruct Htgt as [Heq | (tgt & Hin)].
    - exists cur. rewrite Heq. split; [exact Hcur|].
      split; [now apply family_of_prefix | now left].
    - apply Helem in Hin as (Hp & _ & Hsp & Harch).
      exists tgt. auto. }
  destruct Hspec as (tgt & Htgt_specs & Hprefix & Harch).
  destruct (cmp_size_cases catalog _ _ tgt cur Htgt_specs Hcur)
    as (c & Hc' & _ & Hrange & Hlt & Heq & Hgt).
  rewrite Hc in Hc'. injection Hc' as <-.
  exists s, cur, tgt, family.
  split; [exact Hs|]. split; [exact Hcur|]. split; [exact Htgt_specs|].
  split; [exact Hf|]. split; [exact Hprefix|]. split; [exact Harch|].
  split.
  { rewrite Hch, negb_false_iff, Z.eqb_eq. exact Heq. }
  rewrite Hre. cbn [hd_error].
  split.
  { intros H. apply Hgt in H. subst cmp. reflexivity. }
  split.
  { intros H. apply Hlt in H. subst cmp. reflexivity. }
  split.
  { intros H. apply Heq in H. subst cmp. reflexivity. }
  rewrite Hmu, Hmt, Hmp. exact Hram.
Qed.

Lemma recommend_instance_result_witness :
  exists r,
    recommend_instance m5_catalog idle_host default_thresholds = Ok r
    /\ String.prefix "m5." (NewInstanceType r) = true.
Proof.
  destruct idle_host_scaled_up as (r & Hr & _).
  exists r. split; [exact Hr|].
  destruct (recommend_instance_result _ _ _ _ Hr)
    as (s & cur & tgt & family & _ & _ & _ & Hf & Hp & _).
  injection Hf as <-. exact Hp.
Defined.

(** *** Scaling up *)

(** The memory need of a scale-up is the RAM need, at least the current
    RAM, plus the effective swap. *)
Lemma sizing_req_mem_up catalog host th s specs :
  sizing catalog host th = Ok s ->
  get_instance_specs catalog (InstanceType host) = Ok specs ->
  exists required_ram_up,
    req_mem_up s = (required_ram_up + effective_swap_mib s)%Q
    /\ (inject_Z (memory_mib specs) <= required_ram_up)%Q.
Proof.
  unfold sizing. intros H Hs. rewrite Hs in H.
  cbv beta iota delta [Py.bind] in H.
  destruct (_extract_ram_from_tasks (tasks host)) as [[mt mu] mp].
  destruct (scan_tasks (tasks host) _) as [sw|]; [|discriminate].
  destruct (net_pct_of (cloudwatch_network_total_pct host)) as [net|]; [|discriminate].
  destruct (family_of (InstanceType host)) as [family|]; [|discriminate].
  destruct (candidates catalog family (architectures specs)) as [cs|]; [|discriminate].
  destruct (Qeq_bool (configured_swap_mib sw) 0).
  - injection H as <-. cbn. eexists. split; [reflexivity | apply Qle_refl].
  - destruct (py_div (used_swap_mib sw * 100) (swap_upper th)) as [x|]; [|discriminate].
    destruct (py_div (used_swap_mib sw * 100) (swap_lower th)) as [y|]; [|discriminate].
    injection H as <-. cbn. eexists. split; [reflexivity|].
    destruct (Qle_bool (inject_Z (memory_mib specs))
                (inject_Z (Qceiling x) - configured_swap_mib sw)) eqn:E; cbn.
    + now apply Qle_bool_iff.
    + apply Qle_refl.
Qed.

Lemma effective_swap_pos rec_swap configured :
  (0 < rec_swap)%Z -> (0 <= configured)%Q ->
  (0 < effective_swap rec_swap configured)%Q.
Proof.
  intros Hr Hc. unfold effective_swap.
  assert (Hrq : (0 < inject_Z rec_swap)%Q) by (unfold Qlt; cbn; lia).
  destruct (Qeq_bool configured 0) eqn:E; [exact Hrq|].
  destruct (Qle_bool (inject_Z rec_swap) configured); cbn; [exact Hrq|].
  apply Qeq_bool_neq in E.
  apply Qle_lt_or_eq in Hc as [Hc | Hc]; [exact Hc|].
  exfalso. apply E. now symmetry.
Qed.

(** X11: An overloaded host is never told to stay on less memory than it has:
    when the over flag is raised and some candidate meets the need, the
    proposed type has at least the required vCPUs and strictly more memory
    than the current type, so it is not the current type.  (The type has
    memory and the swap figure read is not negative.) *)
Theorem scale_up_adds_memory
    (catalog : Catalog) (host : Host) (th : Thresholds)
    (s : Sizing) (r : Recommendation) (cur : Specs) :
  sizing catalog host th = Ok s ->
  recommend_instance catalog host th = Ok r ->
  get_instance_specs catalog (InstanceType host) = Ok cur ->
  over s = true ->
  (0 < memory_mib cur)%Z ->
  (0 <= configured_swap_mib (swap s))%Q ->
  (exists x, x ∈ cands s /\ fits (req_vcpus s) (req_mem_up s) x.2) ->
  exists tgt,
    get_instance_specs catalog (NewInstanceType r) = Ok tgt
    /\ (req_vcpus s <= vcpus tgt)%Z
    /\ (memory_mib cur < memory_mib tgt)%Z
    /\ NewInstanceType r <> InstanceType host.
Proof.
  intros Hs Hr Hcur Hover Hmem Hconf (x & Hx & Hxfit).
  destruct (recommend_instance_inv _ _ _ _ Hr) as (s' & cmp & Hs' & Ht & _).
  rewrite Hs in Hs'. injection Hs' as <-. rewrite Hover in Ht.
  destruct (sizing_inv _ _ _ _ Hs)
    as (cur' & family & Hcur' & Hf & _ & _ & Hcands & _ & _ & Hrec & Heff & _).
  rewrite Hcur in Hcur'. injection Hcur' as <-.
  destruct (sizing_req_mem_up _ _ _ _ _ Hs Hcur) as (up & Hup & Hle).
  assert (Hpos : (0 < effective_swap_mib s)%Q).
  { rewrite Heff. apply effective_swap_pos; [|exact Hconf].
    rewrite Hrec. pose proof (recommended_swap_lower _ Hmem). lia. }
  assert (Hneed : (inject_Z (memory_mib cur) < req_mem_up s)%Q).
  { rewrite Hup.
    apply Qle_lt_trans with (y := (up + 0)%Q).
    - now rewrite Qplus_0_r.
    - apply Qplus_lt_r. exact Hpos. }
  unfold pick_smallest in Ht.
  destruct (first_fit (cands s) (req_vcpus s) (req_mem_up s)) as [it|] eqn:Hff.
  - injection Ht as Ht.
    destruct (first_fit_some _ _ _ _ Hff) as (pre & tgt & post & Hsplit & [Hv Hm] & _).
    destruct (candidates_sorted_elem catalog family (architectures cur))
      as (cs & Hcs & _ & Helem).
    rewrite Hcands in Hcs. injection Hcs as <-.
    assert (Hin : (it, tgt) ∈ cands s)
      by (rewrite Hsplit; apply elem_of_app; right; left).
    apply Helem in Hin as (_ & _ & Htgt & _).
    assert (Hlt : (memory_mib cur < memory_mib tgt)%Z).
    { pose proof (Qlt_le_trans _ _ _ Hneed Hm) as H.
      unfold Qlt in H. cbn in H. lia. }
    exists tgt. rewrite <- Ht.
    split; [exact Htgt|]. split; [exact Hv|]. split; [exact Hlt|].
    intros Heq. rewrite Heq, Hcur in Htgt. injection Htgt as <-. lia.
  - exfalso. exact (first_fit_none _ _ _ Hff x Hx Hxfit).
Qed.

(** The locals of [idle_host], with the swap recommendation left as it
    is (it is a real number rounded up). *)
Definition idle_sizing : Sizing :=
  {| cpu_pct := 200 # 2; req_vcpus := 4;
     mem_total_mib := 8192; mem_used_mib := 4096; mem_pct := 50;
     swap := idle_swap;
     rec_swap_mib := recommended_swap 8192;
     effective_swap_mib := effective_swap (recommended_swap 8192) 4096;
     net_pct := 10;
     cands := [("m5.large", {| vcpus := 2; memory_mib := 8192;
                               architectures := ["x86_64"] |});
               ("m5.xlarge", {| vcpus := 4; memory_mib := 16384;
                                architectures := ["x86_64"] |})];
     over := true; under := false;
     req_mem_up := inject_Z 8192 + effective_swap (recommended_swap 8192) 4096;
     req_mem_min := inject_Z 4096 + effective_swap (recommended_swap 8192) 4096 |}.

Lemma idle_host_sizing :
  sizing m5_catalog idle_host default_thresholds = Ok idle_sizing.
Proof. reflexivity. Qed.

Lemma scale_up_adds_memory_witness :
  exists r tgt,
    recommend_instance m5_catalog idle_host default_thresholds = Ok r
    /\ get_instance_specs m5_catalog (NewInstanceType r) = Ok tgt
    /\ (8192 < memory_mib tgt)%Z.
Proof.
  destruct idle_host_scaled_up as (r & Hr & _).
  destruct (scale_up_adds_memory m5_catalog idle_host default_thresholds
              idle_sizing r
              {| vcpus := 2; memory_mib := 8192; architectures := ["x86_64"] |}
              idle_host_sizing Hr eq_refl eq_refl)
    as (tgt & Htgt & _ & Hmem & _).
  - reflexivity.
  - discriminate.
  - exists ("m5.xlarge", {| vcpus := 4; memory_mib := 16384;
                            architectures := ["x86_64"] |}).
    split; [right; left|].
    split; [cbn; lia|].
    cbn [snd memory_mib idle_sizing req_mem_up].
    destruct (effective_swap_configured (recommended_swap 8192) 4096 eq_refl)
      as [_ Hle].
    apply Qle_trans with (y := (inject_Z 8192 + 4096)%Q).
    + apply Qplus_le_r. exact Hle.
    + discriminate.
  - exists r, tgt. auto.
Defined.

(** *** Thresholds *)

(** X12: A swap threshold of zero makes [recommend_instance] raise
    ZeroDivisionError for every host that reports swap of non-zero size
    (the two RAM requirements divide by swap_upper and swap_lower before
    the flags are looked at), whatever its load. *)
Theorem recommend_instance_zero_swap_threshold
    (catalog : Catalog) (host : Host) (th : Thresholds)
    (specs : Specs) (family : string) (sw : Swap) (net : Q) :
  get_instance_specs catalog (InstanceType host) = Ok specs ->
  family_of (InstanceType host) = Some family ->
  scan_tasks (tasks host) no_swap = Ok sw ->
  net_pct_of (cloudwatch_network_total_pct host) = Ok net ->
  ~ (configured_swap_mib sw == 0)%Q ->
  ((swap_upper th == 0)%Q \/ (swap_lower th == 0)%Q) ->
  recommend_instance catalog host th = Raise ZeroDivisionError.
Proof.
  intros Hs Hf Hsw Hn Hconf Hzero.
  assert (Hc : Qeq_bool (configured_swap_mib sw) 0 = false).
  { destruct (Qeq_bool (configured_swap_mib sw) 0) eqn:E; [|reflexivity].
    apply Qeq_bool_iff in E. contradiction. }
  unfold recommend_instance, sizing. rewrite Hs.
  cbv beta iota delta [Py.bind].
  destruct (_extract_ram_from_tasks (tasks host)) as [[mt mu] mp].
  fold no_swap. rewrite Hsw, Hn, Hf.
  destruct (candidates_ok catalog family (architectures specs)) as (cs & ->).
  rewrite Hc. unfold py_div.
  destruct (Qeq_bool (swap_upper th) 0) eqn:Eu; [reflexivity|].
  destruct Hzero as [Hu | Hl].
  - apply Qeq_bool_iff in Hu. congruence.
  - apply Qeq_bool_iff in Hl. now rewrite Hl.
Qed.

Lemma recommend_instance_zero_swap_threshold_witness :
  recommend_instance m5_catalog steady_host
    {| cpu_upper := 75; cpu_lower := 25; swap_upper := 75; swap_lower := 0;
       net_upper := 75; net_lower := 25 |}
  = Raise ZeroDivisionError.
Proof.
  apply (recommend_instance_zero_swap_threshold m5_catalog steady_host _
           {| vcpus := 2; memory_mib := 8192; architectures := ["x86_64"] |}
           "m5" steady_swap 50%Q);
    [reflexivity | reflexivity | reflexivity | reflexivity | discriminate
    | right; reflexivity].
Defined.

(** X13: With every lower threshold at most its upper threshold the two flags
    exclude each other: a host is never both over and under. *)
Theorem over_under_exclusive
    (catalog : Catalog) (host : Host) (th : Thresholds) (s : Sizing) :
  sizing catalog host th = Ok s ->
  (cpu_lower th <= cpu_upper th)%Q ->
  (swap_lower th <= swap_upper th)%Q ->
  (net_lower th <= net_upper th)%Q ->
  over s && under s = false.
Proof.
  intros Hs Hc Hw Hn.
  destruct (sizing_inv _ _ _ _ Hs)
    as (_ & _ & _ & _ & _ & _ & _ & _ & _ & _ & _ & Hover & Hunder & _).
  destruct (over s) eqn:Eo; [|reflexivity].
  destruct (under s) eqn:Eu; [|reflexivity].
  exfalso. symmetry in Hover, Hunder.
  apply over_of_spec in Hover. apply under_of_spec in Hunder.
  destruct Hunder as (U1 & U2 & U3).
  destruct Hover as [O | [O | O]].
  - apply (Qlt_irrefl (cpu_pct s)).
    eapply Qlt_trans; [exact U1|]. eapply Qle_lt_trans; [exact Hc | exact O].
  - apply (Qlt_irrefl (swap_pct (swap s))).
    eapply Qlt_trans; [exact U2|]. eapply Qle_lt_trans; [exact Hw | exact O].
  - apply (Qlt_irrefl (net_pct s)).
    eapply Qlt_trans; [exact U3|]. eapply Qle_lt_trans; [exact Hn | exact O].
Qed.

Lemma over_under_exclusive_witness :
  over idle_sizing && under idle_sizing = false.
Proof.
  apply (over_under_exclusive m5_catalog idle_host default_thresholds idle_sizing
           idle_host_sizing); discriminate.
Defined.

(** *** [_to_mib] *)

Lemma Qdiv_mib_le (v : Q) : (0 <= v)%Q -> (v / BYTES_PER_MIB <= v)%Q.
Proof.
  intros Hv. apply Qle_shift_div_r; [reflexivity|].
  destruct v as [a b]. unfold Qle in *. cbn in *. nia.
Qed.

(** X14: [_to_mib] never turns a reading into more than it was, nor a non-zero
    reading into zero: for a non-negative value the result lies between 0
    and the value, and it is zero only for a zero (or absent) value. *)
Theorem to_mib_bounds (v : Q) :
  (0 <= v)%Q ->
  (0 <= _to_mib (Some v) <= v)%Q
  /\ ((_to_mib (Some v) == 0)%Q <-> (v == 0)%Q)
  /\ _to_mib None = 0%Q.
Proof.
  intros Hv. unfold _to_mib.
  destruct (Qeq_bool v 0) eqn:Ez.
  { apply Qeq_bool_iff in Ez. rewrite Ez.
    repeat split; try apply Qle_refl; auto with qarith. }
  apply Qeq_bool_neq in Ez.
  destruct (has_fraction v); [repeat split; auto using Qle_refl; tauto|].
  destruct (negb (Qle_bool 8192000 v)); [repeat split; auto using Qle_refl; tauto|].
  split; [split|split; [|reflexivity]].
  - apply Qle_shift_div_l; [reflexivity|]. now rewrite Qmult_0_l.
  - now apply Qdiv_mib_le.
  - split; [|tauto]. intros H. exfalso. apply Ez.
    assert (H' : (v / BYTES_PER_MIB * BYTES_PER_MIB == 0 * BYTES_PER_MIB)%Q)
      by now rewrite H.
    rewrite Qmult_0_l in H'. rewrite <- H'. field. discriminate.
Qed.

Lemma to_mib_bounds_witness :
  (0 <= _to_mib (Some 17179869184%Q) <= 17179869184)%Q.
Proof.
  exact (proj1 (to_mib_bounds 17179869184%Q ltac:(discriminate))).
Defined.

End InstanceUsageMore.

(** ** More on the rule evaluator *)

Module RuleEvaluatorMore.
Import RuleEvaluator RuleEvaluatorFacts.

(** *** [compare] *)

(** X15: On a string or a list, [not_equals] holds against every threshold: the
    test is [val != threshold or len(val) != threshold], and no threshold
    equals both the value and its length.  On a number it is the negation
    of [equals]. *)
Theorem compare_not_equals (threshold : value) :
  (forall s, compare (VStr s) (VStr "not_equals") threshold = Ok true)
  /\ (forall l, compare (VList l) (VStr "not_equals") threshold = Ok true)
  /\ (forall q,
        compare (VNum q) (VStr "equals") threshold
        = Ok (py_eq (VNum q) threshold)
        /\ compare (VNum q) (VStr "not_equals") threshold
           = Ok (negb (py_eq (VNum q) threshold))).
Proof.
  split; [|split].
  - intros s. unfold compare. cbn.
    destruct threshold as [| [|] | q | t | t | l | d]; cbn; try reflexivity.
    now rewrite orb_true_r.
  - intros l. unfold compare. cbn.
    destruct threshold as [| [|] | q | t | t | l' | d]; cbn; try reflexivity.
    now rewrite orb_true_r.
  - intros q. unfold compare. cbn.
    split; f_equal; apply orb_diag.
Qed.

(** *** A disk entry without [percent] *)

Definition raises {A : Type} (r : result A) : Prop := exists e, r = Raise e.

Lemma foldM_raises {S A : Type} (f : S -> A -> result S) (l : list A) (x : A) :
  In x l -> (forall s, raises (f s x)) -> forall s, raises (foldM f l s).
Proof.
  intros Hx Hf. induction l as [|a l IH]; intros s; [destruct Hx|].
  cbn. destruct Hx as [-> | Hx].
  - destruct (Hf s) as (e & ->). now exists e.
  - destruct (f s a) as [s1|e]; cbn; [now apply IH | now exists e].
Qed.

Lemma bind_raises {A B : Type} (r : result A) (k : A -> result B) :
  (forall a, raises (k a)) -> raises (Py.bind r k).
Proof.
  intros Hk. destruct r as [a|e]; cbn; [apply Hk | now exists e].
Qed.

(** X16: The disk loop reads [percent] with [d.get] and compares it without
    testing for None (the ram and dict loops test it).  So one disk entry
    that a disk rule addresses and that has no [percent] makes the whole
    check raise: it returns no result at all. *)
Theorem server_status_check_disk_without_percent
    (fail_state : dict) (tasks : list (list dict)) (snapshot : list dict)
    (service_dict : dict) (conds : list value) (cd : dict)
    (logic threshold partition : value) (ds : list value) (dd : dict) (p : value) :
  In snapshot tasks ->
  In service_dict snapshot ->
  dict_get service_dict "disk" = Some (VList ds) ->
  In (VDict dd) ds ->
  In ("disk", VList conds) fail_state ->
  In (VDict cd) conds ->
  dict_get cd "compare_logic" = Some logic ->
  dict_get cd "value" = Some threshold ->
  py_get_default (VDict cd) "partition" VNone = Ok partition ->
  py_get_default (VDict dd) "partition" VNone = Ok p ->
  py_eq p partition = true ->
  py_get_default (VDict dd) "percent" VNone = Ok VNone ->
  raises (server_status_check fail_state tasks).
Proof.
  intros Hsnap Hsd Hdata Hd Hrule Hc Hlogic Hthr Hpc Hpd Hpart Hpct.
  unfold server_status_check.
  apply (foldM_raises _ _ snapshot Hsnap). intros fr.
  unfold check_snapshot.
  apply bind_raises. intros defaults.
  apply bind_raises. intros fr1.
  apply (foldM_raises _ _ service_dict Hsd). intros fr2.
  apply (foldM_raises _ _ ("disk", VList conds) Hrule). intros fr3.
  unfold check_service. cbn [String.eqb Ascii.eqb Bool.eqb]. rewrite Hdata.
  apply (foldM_raises _ _ (VDict cd) Hc). intros fr4.
  unfold list_condition. rewrite Hpc. cbn [py_getitem py_get_default py_iter].
  rewrite Hlogic, Hthr. cbn [Py.bind String.eqb Ascii.eqb Bool.eqb].
  apply (foldM_raises _ _ (VDict dd) Hd). intros fr5.
  unfold disk_entry. rewrite Hpd, Hpct. cbn [Py.bind]. rewrite Hpart.
  unfold compare. cbn. now eexists.
Qed.

Definition root_rule : value :=
  VDict [("partition", VStr "/"); ("compare_logic", VStr "gte"); ("value", VNum 90)].

Lemma server_status_check_disk_without_percent_witness :
  raises (server_status_check [("disk", VList [root_rule])]
            [[ [("disk", VList [VDict [("partition", VStr "/");
                                       ("volume_id", VStr "vol-1")]])] ]]).
Proof.
  apply (server_status_check_disk_without_percent
           [("disk", VList [root_rule])] _
           [ [("disk", VList [VDict [("partition", VStr "/");
                                     ("volume_id", VStr "vol-1")]])] ]
           [("disk", VList [VDict [("partition", VStr "/");
                                   ("volume_id", VStr "vol-1")]])]
           [root_rule]
           [("partition", VStr "/"); ("compare_logic", VStr "gte"); ("value", VNum 90)]
           (VStr "gte") (VNum 90) (VStr "/")
           [VDict [("partition", VStr "/"); ("volume_id", VStr "vol-1")]]
           [("partition", VStr "/"); ("volume_id", VStr "vol-1")] (VStr "/"));
    first [reflexivity | now left].
Defined.

End RuleEvaluatorMore.

(** ** More on the gap-filling fetch *)

Module MetricsCacheMore.
Import MetricsCache MetricsCacheFacts.

(** *** Bulk indexing *)

Lemma chunks_concat (l : list Action) :
  forall k, (length l <= k * 500)%nat ->
    concat (map (fun i => firstn 500 (skipn (i * 500) l)) (seq 0 k)) = l.
Proof.
  intros k. revert l. induction k as [|k IH]; intros l Hlen.
  - destruct l; [reflexivity | cbn in Hlen; lia].
  - cbn [seq map concat]. rewrite <- seq_shift, map_map.
    change (skipn (0 * 500) l) with l.
    transitivity (firstn 500 l ++ skipn 500 l); [|apply firstn_skipn].
    f_equal.
    rewrite <- (IH (skipn 500 l)) by (rewrite length_skipn; lia).
    f_equal. apply map_ext. intros i.
    rewrite skipn_skipn. do 2 f_equal. lia.
Qed.

Lemma chunks_sizes (l : list Action) :
  Forall (fun c => (1 <= length c <= 500)%nat) (chunks l).
Proof.
  unfold chunks. apply Forall_forall. intros c Hc.
  apply list_elem_of_In, in_map_iff in Hc as (i & <- & Hi).
  apply in_seq in Hi. rewrite length_firstn, length_skipn.
  assert (i * 500 < length l)%nat.
  { destruct Hi as [_ Hi].
    pose proof (Nat.div_mod_eq (length l + 499) 500).
    pose proof (Nat.mod_upper_bound (length l + 499) 500 ltac:(discriminate)). lia. }
  lia.
Qed.

Lemma es_bulk_index_steps (l : list Action) :
  concat (chunks l) = l /\ Forall (fun c => (1 <= length c <= 500)%nat) (chunks l).
Proof.
  split; [|apply chunks_sizes].
  unfold chunks. apply chunks_concat.
  pose proof (Nat.div_mod_eq (length l + 499) 500).
  pose proof (Nat.mod_upper_bound (length l + 499) 500 ltac:(discriminate)).
  lia.
Qed.

(** X17: [es_bulk_index] sends all the actions, in order, in bulk requests of
    at least 1 and at most 500 actions each, and sends no metric request;
    with no action it sends nothing. *)
Theorem es_bulk_index_chunks (all_actions : list Action) (w : World) :
  let w' := snd (es_bulk_index all_actions w) in
  fetches w' = fetches w
  /\ exists sent,
       bulk_requests w' = bulk_requests w ++ sent
       /\ concat sent = all_actions
       /\ Forall (fun c => (1 <= length c <= 500)%nat) sent
       /\ length sent = ((length all_actions + 499) / 500)%nat.
Proof.
  cbn. split; [reflexivity|].
  exists (chunks all_actions). split; [reflexivity|].
  split; [|split; [apply chunks_sizes|]].
  - unfold chunks. apply chunks_concat.
    pose proof (Nat.div_mod_eq (length all_actions + 499) 500).
    pose proof (Nat.mod_upper_bound (length all_actions + 499) 500 ltac:(discriminate)).
    lia.
  - unfold chunks. now rewrite length_map, length_seq.
Qed.

(** *** Reading without fetching *)

Lemma foldG_unchanged {S A : Type} (f : S -> A -> G S) (l : list A) :
  (forall s a w, snd (f s a w) = w) ->
  forall s w, snd (foldG f l s w) = w.
Proof.
  intros Hf. induction l as [|a l IH]; intros s w; [reflexivity|].
  cbn. unfold bind. specialize (Hf s a w).
  destruct (f s a w) as [[s1|e] w1]; cbn in Hf; subst w1; [apply IH | reflexivity].
Qed.

Lemma merge_instance_metric_off env instance_id start_time end_time period loaded
    st item w :
  snd (merge_instance_metric env instance_id start_time end_time false period
         loaded st item w) = w.
Proof. now destruct item as [label [[[[ns name] dims] unit] stat]]. Qed.

Lemma merge_volume_metric_off env instance_id start_time end_time period
    partition_map loaded st task w :
  snd (merge_volume_metric env instance_id start_time end_time false period
         partition_map loaded st task w) = w.
Proof. reflexivity. Qed.

(** X18: With [active_fetch_cloudwatch] off the function only reads: whatever
    the collaborators answer and whether it returns or raises, it sends no
    metric request and no bulk request. *)
Theorem get_instance_metrics_read_only
    (env : Env) (instance_id : string) (start_time end_time : Z)
    (instance_type : string) (period : Z)
    (partition_map : option (gmap string string)) (w : World) :
  snd (get_instance_metrics env instance_id start_time end_time instance_type
         false period partition_map w) = w.
Proof.
  unfold get_instance_metrics.
  destruct (describe_instances env instance_id) as [desc|[code text|cls text]];
    [|now destruct (bool_decide _)|reflexivity].
  unfold merge_and_derive, bind, lift.
  destruct (es_bulk_load _ _ _ _ _) as [loaded|]; [|reflexivity].
  match goal with
  | |- context [foldG ?f ?l ?s0 w] =>
      pose proof (foldG_unchanged f l
                    (merge_instance_metric_off env instance_id start_time end_time
                       period loaded) s0 w) as H1;
      destruct (foldG f l s0 w) as [[st1|e1] w1]; cbn in H1; subst w1; [|reflexivity]
  end.
  match goal with
  | |- context [foldG ?f ?l st1 w] =>
      pose proof (foldG_unchanged f l
                    (merge_volume_metric_off env instance_id start_time end_time
                       period partition_map loaded) st1 w) as H2;
      destruct (foldG f l st1 w) as [[st2|e2] w2]; cbn in H2; subst w2; [|reflexivity]
  end.
  cbn [andb]. unfold ret.
  destruct (derive_network env instance_type (results st2)) as [res4|]; [|reflexivity].
  now destruct (derive_mounts period res4 (vol_data st2)).
Qed.

(** *** The points a fetch returns *)

Definition earlier (a b : Point) : Prop := Timestamp a <= Timestamp b.

Lemma insert_by_timestamp_perm p l : insert_by_timestamp p l ≡ₚ p :: l.
Proof.
  induction l as [|q l IH]; cbn; [reflexivity|].
  destruct (Z.leb (Timestamp p) (Timestamp q)); [reflexivity|].
  rewrite IH. apply Permutation_swap.
Qed.

Lemma insert_by_timestamp_sorted p l :
  StronglySorted earlier l -> StronglySorted earlier (insert_by_timestamp p l).
Proof.
  induction 1 as [|q l Hs IH Hq]; cbn.
  - repeat constructor.
  - destruct (Z.leb_spec (Timestamp p) (Timestamp q)) as [Hle | Hgt].
    + constructor; [now constructor|].
      constructor; [exact Hle|].
      eapply Forall_impl; [exact Hq|]. unfold earlier. intros x Hx. lia.
    + constructor; [exact IH|].
      rewrite insert_by_timestamp_perm. constructor; [unfold earlier; lia | exact Hq].
Qed.

Lemma sort_by_timestamp_spec l :
  StronglySorted earlier (sort_by_timestamp l) /\ sort_by_timestamp l ≡ₚ l.
Proof.
  unfold sort_by_timestamp. induction l as [|p l [IHs IHp]]; cbn.
  - split; [constructor | reflexivity].
  - split; [now apply insert_by_timestamp_sorted|].
    now rewrite insert_by_timestamp_perm, IHp.
Qed.

(** X19: [fetch_metric] sends one request, for the window and the statistic it
    was given, and returns the datapoints of the answer, each exactly
    once, by ascending timestamp, with the statistic as [Value] and the
    requested unit; a failure of the provider is raised after the request
    is sent. *)
Theorem fetch_metric_sorted
    (env : Env) (period : Z) (namespace name : string)
    (dims : list (string * string)) (unit stat : string)
    (fetch_start fetch_end : Z) (w : World) :
  let request := {| Namespace := namespace; MetricName := name; Dimensions := dims;
                    StartTime := fetch_start; EndTime := fetch_end; Period := period;
                    Statistics := stat; RequestUnit := unit |} in
  let out := fetch_metric env period namespace name dims unit stat
               fetch_start fetch_end w in
  fetches (snd out) = fetches w ++ [request]
  /\ bulk_requests (snd out) = bulk_requests w
  /\ match get_metric_statistics env request with
     | Ok dps =>
         exists pts,
           fst out = Ok pts
           /\ StronglySorted earlier pts
           /\ pts ≡ₚ map (fun dp => {| Timestamp := dp_timestamp dp;
                                       Value := dp_stat dp; Unit := unit;
                                       volume_id := None; partition := None |}) dps
     | Raise e => fst out = Raise e
     end.
Proof.
  cbv zeta. unfold fetch_metric.
  destruct (get_metric_statistics env _) as [dps|e]; cbn.
  - split; [reflexivity|]. split; [reflexivity|].
    eexists. split; [reflexivity|]. apply sort_by_timestamp_spec.
  - auto.
Qed.

(** *** A run that returns *)

Definition returns {A : Type} (m : G A) (w : World) : Prop :=
  exists a w', m w = (Ok a, w').

Section Answers.
Variable env : Env.
Variable instance_id : string.
Variable start_time end_time : Z.
Variable instance_type : string.
Variable active : bool.
Variable period : Z.
Variable partition_map : option (gmap string string).
Variable loaded : gmap string (list Point).
Hypothesis metrics_answer : forall rq, exists dps, get_metric_statistics env rq = Ok dps.

Lemma fetch_metric_returns ns name dims unit stat fetch_start fetch_end w :
  returns (fetch_metric env period ns name dims unit stat fetch_start fetch_end) w.
Proof.
  unfold returns, fetch_metric.
  destruct (metrics_answer {| Namespace := ns; MetricName := name; Dimensions := dims;
                              StartTime := fetch_start; EndTime := fetch_end;
                              Period := period; Statistics := stat;
                              RequestUnit := unit |}) as (dps & ->).
  eauto.
Qed.

Lemma merge_instance_metric_returns st item w :
  returns (merge_instance_metric env instance_id start_time end_time active period
             loaded st item) w.
Proof.
  destruct item as [label [[[[ns name] dims] unit] stat]].
  unfold returns, merge_instance_metric.
  destruct active; [|unfold ret; eauto].
  destruct (Z.ltb _ end_time); [|unfold ret; eauto].
  unfold bind.
  destruct (fetch_metric_returns ns name dims unit stat
              (fetch_start_of (default [] (loaded !! label)) start_time period)
              end_time w) as (pts & w1 & ->).
  unfold ret. eauto.
Qed.

Lemma merge_volume_metric_returns st task w :
  returns (merge_volume_metric env instance_id start_time end_time active period
             partition_map loaded st task) w.
Proof.
  unfold returns, merge_volume_metric.
  destruct active; [|unfold ret; eauto].
  destruct (Z.ltb _ end_time); [|unfold ret; eauto].
  unfold bind.
  destruct (fetch_metric_returns "AWS/EBS" (cw_name (task_metric task)) (task_dims task)
              (volume_unit (task_metric task)) "Sum"
              (fetch_start_of (default [] (loaded !! task_label task)) start_time period)
              end_time w) as (pts & w1 & ->).
  unfold ret. eauto.
Qed.

Lemma foldG_returns {S A : Type} (f : S -> A -> G S) (l : list A) :
  (forall s a w, returns (f s a) w) -> forall s w, returns (foldG f l s) w.
Proof.
  intros Hf. induction l as [|a l IH]; intros s w; cbn.
  - unfold returns, ret. eauto.
  - unfold returns, bind. destruct (Hf s a w) as (s1 & w1 & ->). apply IH.
Qed.

Lemma instance_loop_keys items :
  forall st w st' w' k,
    foldG (merge_instance_metric env instance_id start_time end_time active period
             loaded) items st w = (Ok st', w') ->
    In k (map fst items) \/ is_Some (results st !! k) ->
    is_Some (results st' !! k).
Proof.
  induction items as [|item items IH]; intros st w st' w' k Hrun Hk; cbn in Hrun.
  - injection Hrun as <- <-. destruct Hk as [[] | Hk]. exact Hk.
  - apply bind_ok in Hrun as (st1 & w1 & Hstep & Hrest).
    apply (IH _ _ _ _ k Hrest).
    apply merge_instance_metric_results in Hstep as (pts & Hres & _).
    rewrite Hres.
    destruct (decide (fst item = k)) as [<- | Hne].
    + right. rewrite lookup_insert_eq. eauto.
    + rewrite lookup_insert_ne by exact Hne.
      destruct Hk as [[Hk | Hk] | Hk]; [contradiction | now left | now right].
Qed.

End Answers.

Lemma rate_series_returns period a b unit vol_id part :
  period <> 0 -> exists l, rate_series period a b unit vol_id part = Ok l.
Proof.
  intros Hp. unfold rate_series.
  destruct (common_timestamps _ _); [eauto|].
  apply Z.eqb_neq in Hp. rewrite Hp. eauto.
Qed.

Lemma idle_series_returns period it vol_id part :
  period <> 0 -> exists l, idle_series period it vol_id part = Ok l.
Proof.
  intros Hp. unfold idle_series.
  destruct (merge_sort _ _); [eauto|].
  apply Z.eqb_neq in Hp. rewrite Hp. eauto.
Qed.

Lemma derive_mounts_returns period vd :
  period <> 0 -> forall res, exists res', derive_mounts period res vd = Ok res'.
Proof.
  intros Hp. induction vd as [|[part data] vd IH]; intros res; cbn; [eauto|].
  destruct (rate_series_returns period (read_bytes data) (write_bytes data) "Bytes"
              (entry_volume_id data) part Hp) as (t & ->).
  destruct (rate_series_returns period (read_ops data) (write_ops data) "Ops/s"
              (entry_volume_id data) part Hp) as (o & ->).
  destruct (idle_series_returns period (idle_time data) (entry_volume_id data) part Hp)
    as (i & ->).
  cbn. apply IH.
Qed.

Lemma derive_network_returns env instance_type res :
  (instance_type = EmptyString \/ exists g, bandwidth_gbps env instance_type = Ok g) ->
  exists res', derive_network env instance_type res = Ok res'.
Proof.
  intros Hbw. unfold derive_network.
  destruct (default [] (res !! "network_in")); [eauto|].
  destruct (default [] (res !! "network_out")); [eauto|].
  destruct Hbw as [-> | (g & Hg)].
  - cbn. destruct (network_totals _ _ _). eauto.
  - destruct (String.eqb instance_type EmptyString); [|rewrite Hg]; cbn;
      destruct (network_totals _ _ _); eauto.
Qed.

(** X20: When the collaborators answer (the instance is described, the cache
    search answers with well-formed documents, every metric request is
    answered, the bandwidth of the type is known or no type is given) and
    the period is not zero, [get_instance_metrics] returns, and the map it
    returns has the three instance series cpu, network_in and network_out,
    possibly empty. *)
Theorem get_instance_metrics_returns
    (env : Env) (instance_id : string) (start_time end_time : Z)
    (instance_type : string) (active_fetch_cloudwatch : bool) (period : Z)
    (partition_map : option (gmap string string)) (w : World)
    (desc : list (list (list Mapping))) (loaded : gmap string (list Point)) :
  describe_instances env instance_id = Ok desc ->
  es_bulk_load env
    (map fst (METRICS instance_id) ++ map task_label (vol_tasks_of (mappings_of desc)))
    instance_id start_time end_time = Ok loaded ->
  (forall rq, exists dps, get_metric_statistics env rq = Ok dps) ->
  (instance_type = EmptyString \/ exists g, bandwidth_gbps env instance_type = Ok g) ->
  period <> 0 ->
  exists res w',
    get_instance_metrics env instance_id start_time end_time instance_type
      active_fetch_cloudwatch period partition_map w = (Ok res, w')
    /\ is_Some (res !! "cpu")
    /\ is_Some (res !! "network_in")
    /\ is_Some (res !! "network_out").
Proof.
  intros Hd Hl Hm Hbw Hp.
  unfold get_instance_metrics. rewrite Hd.
  unfold merge_and_derive. unfold bind at 1. unfold lift at 1. rewrite Hl.
  destruct (foldG_returns _ (METRICS instance_id)
              (merge_instance_metric_returns env instance_id start_time end_time
                 active_fetch_cloudwatch period loaded Hm)
              {| results := ∅; all_actions := []; vol_data := [] |} w)
    as (st1 & w1 & H1).
  unfold bind at 1. rewrite H1.
  destruct (foldG_returns _ (vol_tasks_of (mappings_of desc))
              (merge_volume_metric_returns env instance_id start_time end_time
                 active_fetch_cloudwatch period partition_map loaded Hm) st1 w1)
    as (st2 & w2 & H2).
  unfold bind at 1. rewrite H2.
  destruct (derive_network_returns env instance_type (results st2) Hbw) as (res4 & H4).
  destruct (derive_mounts_returns period (vol_data st2) Hp res4) as (res & H5).
  unfold bind, lift. rewrite H4, H5.
  assert (Hkeys : forall k, In k ["cpu"; "network_in"; "network_out"] ->
                            is_Some (res !! k)).
  { intros k Hk.
    assert (Hnd : ~ derived_key k).
    { destruct Hk as [<- | [<- | [<- | []]]]; apply not_derived_key; reflexivity. }
    rewrite (derive_mounts_other period (vol_data st2) res4 res k Hnd H5).
    destruct (derive_network_spec env instance_type _ _ H4) as [Hother _].
    rewrite Hother
      by (destruct Hk as [<- | [<- | [<- | []]]]; discriminate).
    rewrite (volume_loop_results _ _ _ _ _ _ _ _ _ _ _ _ _ H2).
    apply (instance_loop_keys _ _ _ _ _ _ _ _ _ _ _ _ k H1).
    left. exact Hk. }
  destruct (if active_fetch_cloudwatch && _ then _ else _) as [[u|e] w3] eqn:Hbulk.
  - exists res, w3. split; [reflexivity|].
    repeat split; apply Hkeys; cbn; auto.
  - exfalso. destruct (active_fetch_cloudwatch && _); discriminate.
Qed.

(** What the cache search of [join_env] gives for the three instance
    labels. *)
Definition join_loaded : gmap string (list Point) :=
  match es_bulk_load join_env ["cpu"; "network_in"; "network_out"] "i-0abc" 0 900 with
  | Ok l => l
  | Raise _ => ∅
  end.

Lemma get_instance_metrics_returns_witness :
  exists res w',
    get_instance_metrics join_env "i-0abc" 0 900 "m5.large" true 300 None
      {| fetches := []; bulk_requests := [] |} = (Ok res, w')
    /\ is_Some (res !! "cpu").
Proof.
  destruct (get_instance_metrics_returns join_env "i-0abc" 0 900 "m5.large" true 300
              None {| fetches := []; bulk_requests := [] |} [[[]]] join_loaded)
    as (res & w' & Hrun & Hcpu & _).
  - reflexivity.
  - vm_compute. reflexivity.
  - intros rq. exists []. reflexivity.
  - right. exists 10%Q. reflexivity.
  - discriminate.
  - exists res, w'. split; assumption.
Defined.

(** *** The derived [network_total_pct] *)

(** The percent point of a total: [round((s * 8) / bw_bps * 100, 3)]. *)
Definition pct_point (bw_bps : Q) (p : Point) : Point :=
  {| Timestamp := Timestamp p; Value := round3 (Value p * 8 / bw_bps * 100);
     Unit := "Percent"; volume_id := None; partition := None |}.

(** The percent series of a total series, for a bandwidth in bits per
    second ([None] when no instance type is given). *)
Definition pct_series (bw_bps : option Q) (total : list Point) : list Point :=
  match bw_bps with
  | Some bw => if Qeq_bool bw 0 then [] else map (pct_point bw) total
  | None => []
  end.

Lemma pct_series_app bw_bps a b :
  pct_series bw_bps (a ++ b) = pct_series bw_bps a ++ pct_series bw_bps b.
Proof.
  unfold pct_series. destruct bw_bps as [bw|]; [|reflexivity].
  destruct (Qeq_bool bw 0); [reflexivity | apply map_app].
Qed.

Lemma network_totals_both in_series out_series bw_bps :
  network_totals in_series out_series bw_bps
  = (network_total_of in_series out_series,
     pct_series bw_bps (network_total_of in_series out_series)).
Proof.
  unfold network_totals, network_total_of.
  generalize (common_timestamps (by_timestamp in_series) (by_timestamp out_series)).
  intros tss.
  set (f := fun (acc : list Point * list Point) (ts : Z) => _).
  set (R := omap (total_point (by_timestamp in_series) (by_timestamp out_series))).
  assert (H : forall acc,
             fold_left f tss acc
             = (fst acc ++ R tss, snd acc ++ pct_series bw_bps (R tss))).
  { induction tss as [|ts tss IH]; intros [raw pct]; cbn [fold_left fst snd].
    - subst R. cbn. unfold pct_series.
      destruct bw_bps as [bw|]; [destruct (Qeq_bool bw 0)|]; now rewrite !app_nil_r.
    - rewrite IH. subst R. rewrite omap_cons. unfold f, total_point.
      destruct (by_timestamp in_series !! ts) as [i|]; [|reflexivity].
      destruct (by_timestamp out_series !! ts) as [o|]; [|reflexivity].
      unfold pct_series.
      destruct bw_bps as [bw|]; [destruct (Qeq_bool bw 0)|]; cbn [fst snd map];
        rewrite <- ?app_assoc; reflexivity. }
  rewrite H. reflexivity.
Qed.

Lemma pct_series_nil bw_bps : pct_series bw_bps [] = [].
Proof. unfold pct_series. destruct bw_bps as [bw|]; [now destruct (Qeq_bool bw 0)|reflexivity]. Qed.

Lemma derive_network_pct env instance_type res res' :
  derive_network env instance_type res = Ok res' ->
  res !! "network_total" = None ->
  res !! "network_total_pct" = None ->
  let total := default [] (res' !! "network_total") in
  res' !! "network_total_pct" <> Some []
  /\ (instance_type = EmptyString -> res' !! "network_total_pct" = None)
  /\ (forall g, instance_type <> EmptyString ->
        bandwidth_gbps env instance_type = Ok g ->
        default [] (res' !! "network_total_pct")
        = pct_series (Some (g * 1000000000)%Q) total).
Proof.
  unfold derive_network. intros Hrun Ht Hp.
  assert (Hunchanged : res' = res ->
            let total := default [] (res' !! "network_total") in
            res' !! "network_total_pct" <> Some []
            /\ (instance_type = EmptyString -> res' !! "network_total_pct" = None)
            /\ (forall g, instance_type <> EmptyString ->
                  bandwidth_gbps env instance_type = Ok g ->
                  default [] (res' !! "network_total_pct")
                  = pct_series (Some (g * 1000000000)%Q) total)).
  { intros ->. cbv zeta. rewrite Ht, Hp.
    split; [discriminate|]. split; [reflexivity|].
    intros g _ _. now rewrite pct_series_nil. }
  destruct (default [] (res !! "network_in")) as [|i0 ins];
    [injection Hrun as <-; now apply Hunchanged|].
  destruct (default [] (res !! "network_out")) as [|o0 outs];
    [injection Hrun as <-; now apply Hunchanged|].
  clear Hunchanged.
  set (total_of := network_total_of (i0 :: ins) (o0 :: outs)) in *.
  destruct (String.eqb_spec instance_type EmptyString) as [-> | Hne].
  - cbn [Py.bind] in Hrun. rewrite network_totals_both in Hrun.
    cbn in Hrun. injection Hrun as <-. cbv zeta.
    rewrite lookup_insert_ne by discriminate. rewrite Hp.
    split; [discriminate|]. split; [reflexivity|]. intros g Hg. contradiction.
  - destruct (bandwidth_gbps env instance_type) as [g|] eqn:Hg; [|discriminate].
    cbn [Py.bind] in Hrun. rewrite network_totals_both in Hrun.
    fold total_of in Hrun.
    cbv zeta.
    destruct (pct_series (Some (g * 1000000000)%Q) total_of) as [|p0 pct'] eqn:Hpct;
      injection Hrun as <-.
    + rewrite lookup_insert_ne by discriminate. rewrite Hp, lookup_insert_eq.
      split; [discriminate|]. split; [contradiction|].
      intros g' _ [= <-].
      change (default [] (Some total_of)) with total_of. now rewrite Hpct.
    + rewrite lookup_insert_eq.
      rewrite lookup_insert_ne by discriminate. rewrite lookup_insert_eq.
      split; [discriminate|]. split; [contradiction|].
      intros g' _ [= <-].
      change (default [] (Some total_of)) with total_of. now rewrite Hpct.
Qed.

(** X21: [network_total_pct] is the percent series of [network_total]: each of
    its points is round(total * 8 / (gbps * 1e9) * 100, 3) at the
    timestamp of a point of [network_total], in the same order and with
    unit Percent.  The key is absent when no instance type is given, when
    the advertised bandwidth is 0 and when [network_total] is empty; it
    never holds an empty list. *)
Theorem network_total_pct_spec
    (env : Env) (instance_id : string) (start_time end_time : Z)
    (instance_type : string) (active_fetch_cloudwatch : bool) (period : Z)
    (partition_map : option (gmap string string)) (w w' : World)
    (res : gmap string (list Point)) :
  get_instance_metrics env instance_id start_time end_time instance_type
    active_fetch_cloudwatch period partition_map w = (Ok res, w') ->
  let total := default [] (res !! "network_total") in
  res !! "network_total_pct" <> Some []
  /\ (instance_type = EmptyString -> res !! "network_total_pct" = None)
  /\ (forall g, instance_type <> EmptyString ->
        bandwidth_gbps env instance_type = Ok g ->
        default [] (res !! "network_total_pct")
        = (if Qeq_bool (g * 1000000000) 0 then []
           else map (pct_point (g * 1000000000)) total)).
Proof.
  intros Hrun.
  apply get_instance_metrics_ok in Hrun
    as [[-> _] | (desc & loaded & st1 & w1 & st2 & w2 & res4 & Hd & Hl & H1 & H2 & H4 & H5)].
  - cbv zeta. rewrite !lookup_empty. cbn.
    split; [discriminate|]. split; [reflexivity|].
    intros g _ _. now destruct (Qeq_bool _ 0).
  - assert (Hkeys : forall k, ~ derived_key k -> res !! k = res4 !! k).
    { intros k Hk. now apply (derive_mounts_other period (vol_data st2)). }
    cbv zeta. rewrite !Hkeys by (apply not_derived_key; reflexivity).
    assert (Hfresh : forall k, ~ In k (map fst (METRICS instance_id)) ->
                               results st2 !! k = None).
    { intros k Hk.
      rewrite (volume_loop_results _ _ _ _ _ _ _ _ _ _ _ _ _ H2).
      destruct (instance_loop_results _ _ _ _ _ _ _ _ _ _ _ _ H1) as [Hres _].
      rewrite Hres by exact Hk. apply lookup_empty. }
    apply (derive_network_pct env instance_type (results st2) res4 H4);
      apply Hfresh; cbn; intros [H | [H | [H | []]]]; discriminate.
Qed.

Lemma network_total_pct_spec_witness :
  default [] (join_result !! "network_total_pct")
  = map (pct_point (10 * 1000000000)) (default [] (join_result !! "network_total")).
Proof.
  refine (proj2 (proj2 (network_total_pct_spec join_env "i-0abc" 0 900 "m5.large"
                          false 300 None {| fetches := []; bulk_requests := [] |}
                          (snd join_run) join_result _)) 10%Q _ _).
  - vm_compute. reflexivity.
  - discriminate.
  - reflexivity.
Defined.

(** *** What is persisted *)

(** The points a request brings back, as [fetch_metric] returns them. *)
Definition fetched (env : Env) (rq : Request) : list Point :=
  match get_metric_statistics env rq with
  | Ok dps =>
      sort_by_timestamp
        (map (fun dp => {| Timestamp := dp_timestamp dp; Value := dp_stat dp;
                           Unit := RequestUnit rq; volume_id := None;
                           partition := None |}) dps)
  | Raise _ => []
  end.

(** What an action stores of a point: timestamp, value and unit. *)
Definition stored (a : Action) : Z * Q * string := (a_timestamp a, a_value a, a_unit a).

Definition sample (p : Point) : Z * Q * string := (Timestamp p, Value p, Unit p).

(** A step of the merge sent the requests [F] and queued their points. *)
Definition queues (env : Env) (instance_id : string) (st st' : Merge) (w w' : World)
    : Prop :=
  exists F A,
    fetches w' = fetches w ++ F
    /\ bulk_requests w' = bulk_requests w
    /\ all_actions st' = all_actions st ++ A
    /\ map stored A = flat_map (fun rq => map sample (fetched env rq)) F
    /\ Forall (fun a => a_index a = "ec2_metrics" /\ a_instance_id a = instance_id) A.

Lemma queues_idle env instance_id st st' w :
  all_actions st' = all_actions st -> queues env instance_id st st' w w.
Proof. intros H. exists [], []. rewrite !app_nil_r. repeat split; auto. Qed.

Lemma queues_refl env instance_id st w : queues env instance_id st st w w.
Proof. now apply queues_idle. Qed.

Lemma queues_trans env instance_id st1 st2 st3 w1 w2 w3 :
  queues env instance_id st1 st2 w1 w2 -> queues env instance_id st2 st3 w2 w3 ->
  queues env instance_id st1 st3 w1 w3.
Proof.
  intros (F1 & A1 & Hf1 & Hb1 & Ha1 & Hs1 & Ho1) (F2 & A2 & Hf2 & Hb2 & Ha2 & Hs2 & Ho2).
  exists (F1 ++ F2), (A1 ++ A2).
  rewrite Hf2, Hf1, Hb2, Hb1, Ha2, Ha1, !app_assoc, map_app, flat_map_app, Hs1, Hs2.
  repeat split. now apply Forall_app.
Qed.

Lemma fetch_metric_ok env period ns name dims unit stat fetch_start fetch_end w pts w' :
  fetch_metric env period ns name dims unit stat fetch_start fetch_end w = (Ok pts, w') ->
  let rq := {| Namespace := ns; MetricName := name; Dimensions := dims;
               StartTime := fetch_start; EndTime := fetch_end; Period := period;
               Statistics := stat; RequestUnit := unit |} in
  pts = fetched env rq
  /\ fetches w' = fetches w ++ [rq]
  /\ bulk_requests w' = bulk_requests w.
Proof.
  unfold fetch_metric, fetched. cbn.
  destruct (get_metric_statistics env _) as [dps|]; [|discriminate].
  intros [= <- <-]. auto.
Qed.

Section Persist.
Variable env : Env.
Variable instance_id : string.
Variable start_time end_time : Z.
Variable active : bool.
Variable period : Z.
Variable partition_map : option (gmap string string).
Variable loaded : gmap string (list Point).

Lemma merge_instance_metric_queues st item w st' w' :
  merge_instance_metric env instance_id start_time end_time active period
    loaded st item w = (Ok st', w') ->
  queues env instance_id st st' w w'.
Proof.
  destruct item as [label [[[[ns name] dims] unit] stat]].
  unfold merge_instance_metric.
  destruct active; [|intros [= <- <-]; now apply queues_idle].
  destruct (Z.ltb _ end_time); [|intros [= <- <-]; now apply queues_idle].
  intros Hrun. apply bind_ok in Hrun as (new_pts & w1 & Hfetch & Hret).
  injection Hret as <- <-.
  apply fetch_metric_ok in Hfetch as (-> & Hf & Hb).
  eexists [_], (map (action_of instance_id label) _).
  cbn [all_actions flat_map].
  split; [exact Hf|]. split; [exact Hb|]. split; [reflexivity|].
  split; [now rewrite app_nil_r, map_map|].
  apply Forall_forall. intros a Ha.
  apply list_elem_of_In, in_map_iff in Ha as (p & <- & _). auto.
Qed.

Lemma merge_volume_metric_queues st task w st' w' :
  merge_volume_metric env instance_id start_time end_time active period
    partition_map loaded st task w = (Ok st', w') ->
  queues env instance_id st st' w w'.
Proof.
  unfold merge_volume_metric.
  destruct active; [|intros [= <- <-]; now apply queues_idle].
  destruct (Z.ltb _ end_time); [|intros [= <- <-]; now apply queues_idle].
  intros Hrun. apply bind_ok in Hrun as (new_pts & w1 & Hfetch & Hret).
  injection Hret as <- <-.
  apply fetch_metric_ok in Hfetch as (-> & Hf & Hb).
  eexists [_], (map (action_of instance_id (task_label task)) _).
  cbn [all_actions flat_map].
  split; [exact Hf|]. split; [exact Hb|]. split; [reflexivity|].
  split; [now rewrite app_nil_r, !map_map|].
  apply Forall_forall. intros a Ha.
  apply list_elem_of_In, in_map_iff in Ha as (p & <- & _). auto.
Qed.

Lemma foldG_queues {A : Type} (f : Merge -> A -> G Merge) (l : list A) :
  (forall st a w st' w', f st a w = (Ok st', w') -> queues env instance_id st st' w w') ->
  forall st w st' w',
    foldG f l st w = (Ok st', w') -> queues env instance_id st st' w w'.
Proof.
  intros Hf. induction l as [|a l IH]; intros st w st' w' Hrun; cbn in Hrun.
  - injection Hrun as <- <-. apply queues_refl.
  - apply bind_ok in Hrun as (st1 & w1 & Hstep & Hrest).
    eapply queues_trans; [apply (Hf _ _ _ _ _ Hstep) | apply (IH _ _ _ _ Hrest)].
Qed.

End Persist.

(** X22: A run persists exactly what it fetched.  The actions of the bulk
    requests it sent, taken in order, store the points its metric requests
    brought back, request by request and by ascending timestamp within a
    request, with their value and unit, all for this instance and the
    [ec2_metrics] index; each bulk request holds between 1 and 500
    actions.  Nothing is stored that was not fetched and nothing fetched is
    dropped. *)
Theorem get_instance_metrics_persists_fetched
    (env : Env) (instance_id : string) (start_time end_time : Z)
    (instance_type : string) (active_fetch_cloudwatch : bool) (period : Z)
    (partition_map : option (gmap string string)) (w w' : World)
    (res : gmap string (list Point)) :
  get_instance_metrics env instance_id start_time end_time instance_type
    active_fetch_cloudwatch period partition_map w = (Ok res, w') ->
  exists requests sent,
    fetches w' = fetches w ++ requests
    /\ bulk_requests w' = bulk_requests w ++ sent
    /\ map stored (concat sent)
       = flat_map (fun rq => map sample (fetched env rq)) requests
    /\ Forall (fun a => a_index a = "ec2_metrics" /\ a_instance_id a = instance_id)
         (concat sent)
    /\ Forall (fun c => (1 <= length c <= 500)%nat) sent.
Proof.
  unfold get_instance_metrics. intros Hrun.
  destruct (describe_instances env instance_id) as [desc|[code text|cls text]];
    [| |discriminate].
  2:{ destruct (bool_decide _); [|discriminate]. injection Hrun as <- <-.
      exists [], []. rewrite !app_nil_r. repeat split; constructor. }
  unfold merge_and_derive in Hrun.
  apply bind_ok in Hrun as (loaded & w0 & Hload & Hrun).
  apply lift_ok in Hload as [Hload ->].
  apply bind_ok in Hrun as (st1 & w1 & H1 & Hrun).
  apply bind_ok in Hrun as (st2 & w2 & H2 & Hrun).
  apply bind_ok in Hrun as (u & w3 & H3 & Hrun).
  apply bind_ok in Hrun as (res4 & w4 & H4 & Hrun).
  apply lift_ok in H4 as [H4 Hw4]. apply lift_ok in Hrun as [Hrun Hw'].
  assert (Hww : w' = w3) by congruence. clear Hw4 Hw'. subst w'.
  assert (Hq : queues env instance_id
                 {| results := ∅; all_actions := []; vol_data := [] |} st2 w w2).
  { eapply queues_trans.
    - apply (foldG_queues env instance_id _ _
               (merge_instance_metric_queues env instance_id start_time end_time
                  active_fetch_cloudwatch period loaded) _ _ _ _ H1).
    - apply (foldG_queues env instance_id _ _
               (merge_volume_metric_queues env instance_id start_time end_time
                  active_fetch_cloudwatch period partition_map loaded) _ _ _ _ H2). }
  destruct Hq as (F & A & Hf & Hb & Ha & Hs & Ho). cbn in Ha. subst A.
  assert (Hsent : fetches w3 = fetches w2
                  /\ bulk_requests w3 = bulk_requests w2 ++ chunks (all_actions st2)).
  { destruct (active_fetch_cloudwatch
              && negb (Nat.eqb (length (all_actions st2)) 0)) eqn:E.
    - unfold es_bulk_index in H3. injection H3 as _ <-. auto.
    - injection H3 as _ <-.
      assert (Hnil : all_actions st2 = []).
      { destruct active_fetch_cloudwatch.
        - cbn in E. apply negb_false_iff, Nat.eqb_eq in E.
          now apply length_zero_iff_nil.
        - destruct F as [|rq F].
          + cbn in Hs. now apply map_eq_nil in Hs.
          + exfalso.
            clear - Hf H1 H2.
            pose proof (foldG_unchanged _ (METRICS instance_id)
                          (merge_instance_metric_off env instance_id start_time
                             end_time period loaded)
                          {| results := ∅; all_actions := []; vol_data := [] |} w) as U1.
            rewrite H1 in U1. cbn in U1. subst w1.
            pose proof (foldG_unchanged _ (vol_tasks_of (mappings_of desc))
                          (merge_volume_metric_off env instance_id start_time
                             end_time period partition_map loaded) st1 w) as U2.
            rewrite H2 in U2. cbn in U2. subst w2.
            apply (f_equal (@length _)) in Hf. rewrite length_app in Hf.
            cbn in Hf. lia. }
      rewrite Hnil. cbn. now rewrite app_nil_r. }
  destruct Hsent as [Hf' Hb'].
  exists F, (chunks (all_actions st2)).
  rewrite Hf', Hf, Hb', Hb.
  destruct (es_bulk_index_steps (all_actions st2)) as [Hc Hsz].
  rewrite Hc.
  repeat split; assumption.
Qed.

(** An empty cache and a provider that answers the cpu request with two
    datapoints, the later one first. *)
Definition fill_env : Env :=
  {| describe_instances := fun _ => Ok [[[]]];
     msearch := fun _ => Ok [ []; []; [] ];
     get_metric_statistics := fun rq =>
       if String.eqb (MetricName rq) "CPUUtilization"
       then Ok [ {| dp_timestamp := 600; dp_stat := 12 |};
                 {| dp_timestamp := 300; dp_stat := 10 |} ]
       else Ok [];
     bandwidth_gbps := fun _ => Ok 10%Q |}.

Definition fill_run : result (gmap string (list Point)) * World :=
  get_instance_metrics fill_env "i-0abc" 0 900 "m5.large" true 300 None
    {| fetches := []; bulk_requests := [] |}.

Definition fill_result : gmap string (list Point) :=
  match fst fill_run with
  | Ok res => res
  | Raise _ => ∅
  end.

Lemma get_instance_metrics_persists_fetched_witness :
  map stored (concat (bulk_requests (snd fill_run)))
  = [(300, 10%Q, "Percent"); (600, 12%Q, "Percent")]
  /\ exists requests sent,
       fetches (snd fill_run) = requests
       /\ bulk_requests (snd fill_run) = sent
       /\ map stored (concat sent)
          = flat_map (fun rq => map sample (fetched fill_env rq)) requests.
Proof.
  split; [vm_compute; reflexivity|].
  destruct (get_instance_metrics_persists_fetched fill_env "i-0abc" 0 900 "m5.large"
              true 300 None {| fetches := []; bulk_requests := [] |} (snd fill_run)
              fill_result)
    as (requests & sent & Hf & Hb & Hs & _).
  - vm_compute. reflexivity.
  - exists requests, sent. auto.
Defined.

End MetricsCacheMore.

(** ** Properties of [parse_es_shorthand] *)

Module TimeShorthandFacts.
Import TimeShorthand.

(** A string of characters. *)
Fixpoint text (cs : list ascii) (tail : string) : string :=
  match cs with
  | [] => tail
  | c :: cs => String c (text cs tail)
  end.

Definition is_sign (c : ascii) : Prop := c = "-"%char \/ c = "+"%char.

Definition signed (sign : ascii) (delta : Z) : Z :=
  if Ascii.eqb sign "-" then - delta else delta.

Lemma span_digits_text (ds : list ascii) (tail : string) :
  Forall (fun c => is_digit c = true) ds ->
  (forall c rest, tail = String c rest -> is_digit c = false) ->
  span_digits (text ds tail) = (ds, tail).
Proof.
  intros Hds Htail. induction Hds as [|d ds Hd _ IH]; cbn [text span_digits].
  - destruct tail as [|c rest]; [reflexivity|].
    cbn [span_digits]. now rewrite (Htail c rest eq_refl).
  - now rewrite Hd, IH.
Qed.

Lemma span_digits_inv (s : string) ds tail :
  span_digits s = (ds, tail) ->
  s = text ds tail
  /\ Forall (fun c => is_digit c = true) ds
  /\ (forall c rest, tail = String c rest -> is_digit c = false).
Proof.
  revert ds tail. induction s as [|c s IH]; intros ds tail; cbn [span_digits text].
  - intros [= <- <-]. repeat split; [constructor | discriminate].
  - destruct (is_digit c) eqn:Hc.
    + destruct (span_digits s) as [ds' tail'].
      intros [= <- <-]. destruct (IH ds' tail' eq_refl) as (-> & Hds & Ht).
      repeat split; [now constructor | exact Ht].
    + intros [= <- <-]. repeat split; [constructor|].
      intros c' rest [= <- <-]. exact Hc.
Qed.

Lemma unit_not_digit (u : ascii) k : unit_seconds u = Some k -> is_digit u = false.
Proof.
  unfold unit_seconds.
  destruct (Ascii.eqb_spec u "s") as [-> | _]; [reflexivity|].
  destruct (Ascii.eqb_spec u "m") as [-> | _]; [reflexivity|].
  destruct (Ascii.eqb_spec u "h") as [-> | _]; [reflexivity|].
  destruct (Ascii.eqb_spec u "d") as [-> | _]; [reflexivity | discriminate].
Qed.

Lemma match_shorthand_text sign d ds u k tail :
  is_sign sign ->
  Forall (fun c => is_digit c = true) (d :: ds) ->
  unit_seconds u = Some k ->
  match_shorthand (text ("n" :: "o" :: "w" :: sign :: d :: ds)%char (String u tail))
  = Some (sign, d :: ds, u).
Proof.
  intros Hsign Hds Hu.
  change (text ("n" :: "o" :: "w" :: sign :: d :: ds)%char (String u tail))
    with (String "n" (String "o" (String "w" (String sign
            (text (d :: ds) (String u tail)))))).
  unfold match_shorthand.
  assert (Hs : Ascii.eqb sign "-" || Ascii.eqb sign "+" = true)
    by (destruct Hsign as [-> | ->]; reflexivity).
  rewrite Hs, (span_digits_text (d :: ds) (String u tail) Hds).
  - now rewrite Hu.
  - intros c rest [= <- <-]. exact (unit_not_digit u k Hu).
Qed.

(** X23: The shorthand is read leniently.  After "now", a sign, one or more
    digits and a unit letter, whatever follows the unit is ignored: with a
    value of at most 999999999 and a result within the range of
    [datetime], the answer is now minus or plus that many seconds,
    minutes, hours or days.  (So "now-1month" is one minute ago.) *)
Theorem parse_es_shorthand_lenient
    (now : Z) (sign d : ascii) (ds : list ascii) (u : ascii) (k : Z) (tail : string) :
  is_sign sign ->
  Forall (fun c => is_digit c = true) (d :: ds) ->
  unit_seconds u = Some k ->
  int_of_digits (d :: ds) <= MAX_DELTA_DAYS ->
  let t := now + signed sign (int_of_digits (d :: ds) * k) in
  DATETIME_MIN <= t <= DATETIME_MAX ->
  parse_es_shorthand now
    (text ("n" :: "o" :: "w" :: sign :: d :: ds)%char (String u tail))
  = Ok t.
Proof.
  intros Hsign Hds Hu Hmax t Hrange.
  unfold parse_es_shorthand.
  rewrite (match_shorthand_text sign d ds u k tail Hsign Hds Hu).
  assert (Hne : String.eqb
                  (text ("n" :: "o" :: "w" :: sign :: d :: ds)%char (String u tail))
                  "now" = false) by reflexivity.
  rewrite Hne.
  apply Z.ltb_ge in Hmax. rewrite Hmax, Hu.
  subst t. unfold signed in *.
  destruct (Ascii.eqb sign "-"); unfold shift;
    (replace (Z.leb DATETIME_MIN _ && Z.leb _ DATETIME_MAX) with true; [reflexivity|]);
    symmetry; apply andb_true_iff; split; apply Z.leb_le; lia.
Qed.

Lemma parse_es_shorthand_lenient_witness :
  parse_es_shorthand 1700000000 "now-1month" = Ok (1700000000 - 60).
Proof.
  apply (parse_es_shorthand_lenient 1700000000 "-" "1" [] "m" 60 "onth").
  - now left.
  - repeat constructor.
  - reflexivity.
  - vm_compute. discriminate.
  - vm_compute. split; discriminate.
Defined.

Ltac split_char c :=
  destruct c as [[] [] [] [] [] [] [] []]; cbv beta iota;
  try (let H := fresh in intros H; discriminate H).

Lemma match_shorthand_inv (s : string) sign digits u :
  match_shorthand s = Some (sign, digits, u) ->
  exists d ds k tail,
    digits = d :: ds /\ is_sign sign
    /\ Forall (fun c => is_digit c = true) (d :: ds)
    /\ unit_seconds u = Some k
    /\ s = text ("n" :: "o" :: "w" :: sign :: d :: ds)%char (String u tail).
Proof.
  unfold match_shorthand.
  destruct s as [|c1 [|c2 [|c3 [|c4 rest]]]]; try (intros H; discriminate H).
  all: split_char c1.
  all: split_char c2.
  all: split_char c3.
  destruct (Ascii.eqb c4 "-" || Ascii.eqb c4 "+") eqn:Hs; [|intros H; discriminate H].
  destruct (span_digits rest) as [[|d ds] [|u' tail]] eqn:Hspan;
    try (intros H; discriminate H).
  destruct (unit_seconds u') as [k|] eqn:Hu; [|intros H; discriminate H].
  intros [= <- <- <-].
  destruct (span_digits_inv rest (d :: ds) (String u' tail) Hspan) as (-> & Hds & _).
  exists d, ds, k, tail. repeat split; try assumption.
  apply orb_true_iff in Hs as [H | H]; apply Ascii.eqb_eq in H; [now left | now right].
Qed.

Lemma shift_inv now delta t :
  shift now delta = Ok t -> t = now + delta /\ DATETIME_MIN <= t <= DATETIME_MAX.
Proof.
  unfold shift.
  destruct (Z.leb DATETIME_MIN (now + delta) && Z.leb (now + delta) DATETIME_MAX) eqn:H;
    [|intros H'; discriminate H'].
  intros [= <-]. apply andb_true_iff in H as [H1 H2].
  apply Z.leb_le in H1, H2. lia.
Qed.

(** X24: Nothing else is accepted.  When [parse_es_shorthand] returns a time,
    the string is either exactly "now" (and the time is now), or it
    starts with "now", a sign, one or more digits and one of the letters
    s, m, h, d; the value is then at most 999999999 and the time, now
    shifted by the value in that unit, lies within the range of
    [datetime].  Every other string (other units such as w or y, a space
    after "now", a date) raises.  Strings are ASCII here; [\d] also
    matches the decimal digits of other scripts. *)
Theorem parse_es_shorthand_accepts (now : Z) (s : string) (t : Z) :
  parse_es_shorthand now s = Ok t ->
  (s = "now" /\ t = now)
  \/ exists sign d ds u k tail,
       is_sign sign
       /\ Forall (fun c => is_digit c = true) (d :: ds)
       /\ unit_seconds u = Some k
       /\ s = text ("n" :: "o" :: "w" :: sign :: d :: ds)%char (String u tail)
       /\ int_of_digits (d :: ds) <= MAX_DELTA_DAYS
       /\ t = now + signed sign (int_of_digits (d :: ds) * k)
       /\ DATETIME_MIN <= t <= DATETIME_MAX.
Proof.
  unfold parse_es_shorthand.
  destruct (String.eqb_spec s "now") as [-> | Hne].
  - intros [= <-]. now left.
  - destruct (match_shorthand s) as [[[sign digits] u]|] eqn:Hm;
      [|intros H; discriminate H].
    destruct (match_shorthand_inv s sign digits u Hm)
      as (d & ds & k & tail & -> & Hsign & Hds & Hu & Hs).
    destruct (Z.ltb MAX_DELTA_DAYS (int_of_digits (d :: ds))) eqn:Hmax;
      [intros H; discriminate H|].
    apply Z.ltb_ge in Hmax. rewrite Hu. intros Hshift. right.
    exists sign, d, ds, u, k, tail.
    assert (Ht : t = now + signed sign (int_of_digits (d :: ds) * k)
                 /\ DATETIME_MIN <= t <= DATETIME_MAX).
    { unfold signed. destruct (Ascii.eqb sign "-");
        apply shift_inv in Hshift; exact Hshift. }
    destruct Ht as [Ht Hr]. repeat split; try assumption; apply Hr.
Qed.

Lemma parse_es_shorthand_accepts_witness :
  ("now+2h" = "now" /\ 1700007200 = 1700000000)
  \/ exists sign d ds u k tail,
       is_sign sign
       /\ Forall (fun c => is_digit c = true) (d :: ds)
       /\ unit_seconds u = Some k
       /\ "now+2h" = text ("n" :: "o" :: "w" :: sign :: d :: ds)%char (String u tail)
       /\ int_of_digits (d :: ds) <= MAX_DELTA_DAYS
       /\ 1700007200 = 1700000000 + signed sign (int_of_digits (d :: ds) * k)
       /\ DATETIME_MIN <= 1700007200 <= DATETIME_MAX.
Proof.
  apply (parse_es_shorthand_accepts 1700000000 "now+2h" 1700007200).
  vm_compute. reflexivity.
Defined.

(** X25: The value is limited whatever the unit.  All four deltas (seconds,
    minutes, hours, days) are built before the one of the unit is picked,
    and a delta of more than 999999999 days does not exist: a value above
    999999999 raises OverflowError also when the unit is s, m or h and the
    resulting time would be a valid one. *)
Theorem parse_es_shorthand_value_limit
    (now : Z) (sign d : ascii) (ds : list ascii) (u : ascii) (k : Z) (tail : string) :
  is_sign sign ->
  Forall (fun c => is_digit c = true) (d :: ds) ->
  unit_seconds u = Some k ->
  MAX_DELTA_DAYS < int_of_digits (d :: ds) ->
  exists msg,
    parse_es_shorthand now
      (text ("n" :: "o" :: "w" :: sign :: d :: ds)%char (String u tail))
    = Raise (OverflowError msg).
Proof.
  intros Hsign Hds Hu Hmax.
  unfold parse_es_shorthand.
  rewrite (match_shorthand_text sign d ds u k tail Hsign Hds Hu).
  assert (Hne : String.eqb
                  (text ("n" :: "o" :: "w" :: sign :: d :: ds)%char (String u tail))
                  "now" = false) by reflexivity.
  rewrite Hne.
  apply Z.ltb_lt in Hmax. rewrite Hmax. eexists. reflexivity.
Qed.

Lemma parse_es_shorthand_value_limit_witness :
  (exists msg, parse_es_shorthand 1700000000 "now-1000000000s" = Raise (OverflowError msg))
  /\ DATETIME_MIN <= 1700000000 - 1000000000 <= DATETIME_MAX.
Proof.
  split.
  - apply (parse_es_shorthand_value_limit 1700000000 "-" "1"
             ["0"; "0"; "0"; "0"; "0"; "0"; "0"; "0"; "0"]%char "s" 1 EmptyString).
    + now left.
    + repeat constructor.
    + reflexivity.
    + vm_compute. reflexivity.
  - vm_compute. split; discriminate.
Defined.

End TimeShorthandFacts.

(** ** Properties of [_process_host] *)

Module ProcessHostFacts.
Import RuleEvaluator ProcessHost.

(** The values of a field over a run of documents, in order. *)
Definition field_values (field : string) (items : dict) : list value :=
  map snd (List.filter (fun kv => String.eqb (fst kv) field) items).

Definition is_single (field : string) : bool :=
  existsb (String.eqb field) single_fields.

(** What the merge loop keeps true of [aggregated] after the items
    [seen]. *)
Definition merged (ip : value) (seen : dict) (aggregated : dict) : Prop :=
  dict_get aggregated "ip" = Some ip
  /\ (forall field, is_single field = true -> field <> "ip" ->
        dict_get aggregated field = head (field_values field seen))
  /\ (forall field, is_single field = false ->
        dict_get aggregated field
        = match field_values field seen with
          | [] => None
          | vs => Some (VList vs)
          end).

Lemma foldM_app {S A} (f : S -> A -> result S) l1 l2 s :
  foldM f (l1 ++ l2) s = (s' <- foldM f l1 s ;; foldM f l2 s')%result.
Proof.
  revert s. induction l1 as [|x l1 IH]; intros s; cbn; [reflexivity|].
  destruct (f s x); cbn; [apply IH | reflexivity].
Qed.

Lemma foldM_concat {S A} (f : S -> A -> result S) (ls : list (list A)) s :
  foldM (fun s l => foldM f l s) ls s = foldM f (concat ls) s.
Proof.
  revert s. induction ls as [|l ls IH]; intros s; cbn; [reflexivity|].
  rewrite foldM_app. destruct (foldM f l s); cbn; [apply IH | reflexivity].
Qed.

Lemma dict_get_setdefault d k v k' :
  dict_get (setdefault d k v) k'
  = if String.eqb k k'
    then match dict_get d k with Some x => Some x | None => Some v end
    else dict_get d k'.
Proof.
  induction d as [|[k0 v0] d IH]; cbn.
  - destruct (String.eqb k k'); reflexivity.
  - destruct (String.eqb_spec k0 k) as [-> | Hne]; cbn.
    + destruct (String.eqb_spec k k') as [-> | Hne']; [reflexivity|].
      reflexivity.
    + destruct (String.eqb_spec k0 k') as [<- | Hne'].
      * destruct (String.eqb_spec k k0) as [-> | _]; [contradiction | reflexivity].
      * exact IH.
Qed.

Lemma append_field_new d k v :
  dict_get d k = None ->
  exists d', append_field d k v = Ok d'
    /\ forall k', dict_get d' k' = if String.eqb k k' then Some (VList [v]) else dict_get d k'.
Proof.
  induction d as [|[k0 v0] d IH]; cbn.
  - intros _. eexists. split; [reflexivity|]. intros k'. cbn.
    destruct (String.eqb k k'); reflexivity.
  - destruct (String.eqb_spec k0 k) as [-> | Hne]; [discriminate|].
    intros Hd. destruct (IH Hd) as (d' & -> & Hget). cbn.
    eexists. split; [reflexivity|]. intros k'. cbn.
    destruct (String.eqb_spec k0 k') as [<- | Hne'].
    + destruct (String.eqb_spec k k0) as [-> | _]; [contradiction | reflexivity].
    + apply Hget.
Qed.

Lemma append_field_old d k v l :
  dict_get d k = Some (VList l) ->
  exists d', append_field d k v = Ok d'
    /\ forall k', dict_get d' k' = if String.eqb k k' then Some (VList (l ++ [v])) else dict_get d k'.
Proof.
  induction d as [|[k0 v0] d IH]; cbn; [discriminate|].
  destruct (String.eqb_spec k0 k) as [-> | Hne].
  - intros [= ->]. eexists. split; [reflexivity|]. intros k'. cbn.
    destruct (String.eqb k k'); reflexivity.
  - intros Hd. destruct (IH Hd) as (d' & -> & Hget). cbn.
    eexists. split; [reflexivity|]. intros k'. cbn.
    destruct (String.eqb_spec k0 k') as [<- | Hne'].
    + destruct (String.eqb_spec k k0) as [-> | _]; [contradiction | reflexivity].
    + apply Hget.
Qed.

Lemma field_values_snoc field seen k v :
  field_values field (seen ++ [(k, v)])
  = field_values field seen ++ (if String.eqb k field then [v] else []).
Proof.
  unfold field_values. rewrite List.filter_app, map_app. f_equal.
  cbn. destruct (String.eqb k field); reflexivity.
Qed.

Lemma aggregate_field_merged ip seen aggregated k v :
  merged ip seen aggregated ->
  exists aggregated', aggregate_field aggregated (k, v) = Ok aggregated'
    /\ merged ip (seen ++ [(k, v)]) aggregated'.
Proof.
  intros (Hip & Hsingle & Hlist). unfold aggregate_field.
  fold (is_single k). destruct (is_single k) eqn:Hk.
  - eexists. split; [reflexivity|]. repeat split.
    + rewrite dict_get_setdefault. destruct (String.eqb_spec k "ip") as [-> | _].
      * now rewrite Hip.
      * exact Hip.
    + intros field Hf Hne. rewrite dict_get_setdefault, field_values_snoc.
      destruct (String.eqb_spec k field) as [-> | Hkf].
      * rewrite (Hsingle field Hf Hne).
        destruct (field_values field seen); reflexivity.
      * rewrite app_nil_r. now apply Hsingle.
    + intros field Hf. rewrite dict_get_setdefault, field_values_snoc.
      destruct (String.eqb_spec k field) as [-> | Hkf]; [congruence|].
      rewrite app_nil_r. now apply Hlist.
  - pose proof (Hlist k Hk) as Hcur.
    assert (Hstep : exists d', append_field aggregated k v = Ok d'
              /\ forall k', dict_get d' k'
                   = if String.eqb k k' then Some (VList (field_values k seen ++ [v]))
                     else dict_get aggregated k').
    { destruct (field_values k seen) as [|x xs] eqn:Hvs.
      - apply append_field_new. exact Hcur.
      - apply append_field_old. exact Hcur. }
    destruct Hstep as (d' & -> & Hget). exists d'. split; [reflexivity|].
    assert (Hkip : k <> "ip") by (intros ->; discriminate).
    repeat split.
    + rewrite Hget. destruct (String.eqb_spec k "ip"); [contradiction | exact Hip].
    + intros field Hf Hne. rewrite Hget, field_values_snoc.
      destruct (String.eqb_spec k field) as [-> | Hkf]; [congruence|].
      rewrite app_nil_r. now apply Hsingle.
    + intros field Hf. rewrite Hget, field_values_snoc.
      destruct (String.eqb_spec k field) as [-> | Hkf].
      * destruct (field_values field seen); reflexivity.
      * rewrite app_nil_r. now apply Hlist.
Qed.

Lemma aggregate_fields_merged ip items seen aggregated :
  merged ip seen aggregated ->
  exists aggregated', foldM aggregate_field items aggregated = Ok aggregated'
    /\ merged ip (seen ++ items) aggregated'.
Proof.
  revert seen aggregated. induction items as [|[k v] items IH]; intros seen aggregated H.
  - exists aggregated. rewrite app_nil_r. now split.
  - destruct (aggregate_field_merged ip seen aggregated k v H) as (a1 & Hstep & H1).
    destruct (IH _ _ H1) as (a2 & Hrest & H2).
    exists a2. split.
    + cbn [foldM]. rewrite Hstep. exact Hrest.
    + now rewrite <- app_assoc in H2.
Qed.

(** X26: The merge of a host's documents never fails and is read back field by
    field: [ip] is the host's address whatever the documents say; one of
    the other single fields (name, Tags, InstanceId, ...) holds the value
    of the first document that has it; every other field holds the list of
    its values over the documents that have it, in document order, and is
    absent when no document has it.  Hence the i-th entry of one list and
    of another belong to the same document only when no document lacks
    either field. *)
Theorem aggregate_fields (ip : value) (docs : list dict) :
  exists aggregated,
    aggregate ip docs = Ok aggregated
    /\ dict_get aggregated "ip" = Some ip
    /\ (forall field, existsb (String.eqb field) single_fields = true -> field <> "ip" ->
          dict_get aggregated field = head (field_values field (concat docs)))
    /\ (forall field, existsb (String.eqb field) single_fields = false ->
          dict_get aggregated field
          = match field_values field (concat docs) with
            | [] => None
            | vs => Some (VList vs)
            end).
Proof.
  unfold aggregate. rewrite foldM_concat.
  assert (H0 : merged ip [] [("ip", ip)]).
  { repeat split.
    - intros field Hf Hne.
      change (dict_get [("ip", ip)] field)
        with (if String.eqb "ip" field then Some ip else None).
      destruct (String.eqb_spec "ip" field); [congruence | reflexivity].
    - intros field Hf.
      change (dict_get [("ip", ip)] field)
        with (if String.eqb "ip" field then Some ip else None).
      destruct (String.eqb_spec "ip" field) as [<- | _];
        [discriminate | reflexivity]. }
  destruct (aggregate_fields_merged ip (concat docs) [] _ H0) as (a & Hrun & Ha).
  exists a. split; [exact Hrun | exact Ha].
Qed.

(** *** the CloudWatch rules *)

(** A dict of series as [get_instance_metrics] builds them. *)
Definition series_dict (d : dict) : Prop :=
  Forall (fun kv => exists l, snd kv = VList (map point_value l)) d.

Lemma foldM_idle {S A} (f : S -> A -> result S) (l : list A) (s : S) :
  (forall x, In x l -> f s x = Ok s) -> foldM f l s = Ok s.
Proof.
  induction l as [|x l IH]; intros H; cbn; [reflexivity|].
  rewrite (H x (or_introl eq_refl)). cbn. apply IH.
  intros y Hy. apply H. now right.
Qed.

Lemma dict_get_In (d : dict) k v : In (k, v) d -> dict_get d k <> None.
Proof.
  induction d as [|[k0 v0] d IH]; cbn; [contradiction|].
  intros [[= -> ->] | H].
  - now rewrite String.eqb_refl.
  - destruct (String.eqb k0 k); [discriminate | now apply IH].
Qed.

Lemma dict_get_series d k v :
  series_dict d -> dict_get d k = Some v -> exists l, v = VList (map point_value l).
Proof.
  induction 1 as [|[k0 v0] d [l Hl] _ IH]; cbn; [discriminate|].
  destruct (String.eqb k0 k).
  - intros [= <-]. exists l. exact Hl.
  - exact IH.
Qed.

Lemma timestamp_key_point p :
  timestamp_key (point_value p) = Ok (VTime (MetricsCache.Timestamp p)).
Proof. reflexivity. Qed.

Lemma average_of_point p : py_get (point_value p) "Average" = Ok None.
Proof.
  unfold point_value.
  destruct (MetricsCache.volume_id p), (MetricsCache.partition p); reflexivity.
Qed.

Lemma max_from_point p l :
  exists p', max_from (point_value p) (VTime (MetricsCache.Timestamp p))
               (map point_value l) = Ok (point_value p').
Proof.
  revert p. induction l as [|q l IH]; intros p; cbn [map max_from].
  - now exists p.
  - rewrite timestamp_key_point. cbn [Py.bind py_gt].
    destruct (Z.ltb (MetricsCache.Timestamp p) (MetricsCache.Timestamp q)); apply IH.
Qed.

Lemma cloudwatch_metric_silent service d fr item :
  series_dict d ->
  cloudwatch_metric service (VDict d) fr item = Ok fr.
Proof.
  intros Hd. destruct item as [metric conditions]. unfold cloudwatch_metric.
  cbn [py_get_default Py.bind].
  destruct (dict_get d metric) as [v|] eqn:Hv; [|reflexivity].
  destruct (dict_get_series d metric v Hd Hv) as ([|p l] & ->); [reflexivity|].
  change (negb (truthy (VList (map point_value (p :: l))))) with false.
  cbn [latest_datapoint py_iter Py.bind map].
  unfold latest_datapoint. cbn [py_iter Py.bind].
  rewrite timestamp_key_point. cbn [Py.bind].
  destruct (max_from_point p l) as (p' & ->). cbn [Py.bind].
  now rewrite average_of_point.
Qed.

Lemma metrics_value_series res : exists d, metrics_value res = VDict d /\ series_dict d.
Proof.
  unfold metrics_value. eexists. split; [reflexivity|].
  unfold series_dict. apply List.Forall_forall. intros kv Hkv.
  apply in_map_iff in Hkv as ([k l] & <- & _). now exists l.
Qed.

Lemma cloudwatch_of_series loaded : exists d, cloudwatch_of loaded = VDict d /\ series_dict d.
Proof.
  destruct loaded as [res | e]; cbn [cloudwatch_of].
  - apply metrics_value_series.
  - exists []. split; [reflexivity | constructor].
Qed.

(** X27: The CloudWatch rules never fire on the series that
    [get_instance_metrics] returns.  The evaluator reads the field
    [Average] of the newest point, and the points carry [Value] instead:
    whatever the series hold and whatever the thresholds are, the check of
    [_process_host] finds nothing, so no CloudWatch entry ever reaches
    [failing_states].  Assumed of the rule document: the [default] bucket,
    when there is one, is a dict with no rule named cloudwatch, and the
    cloudwatch rules are not given as a list. *)
Theorem cloudwatch_rules_never_fire
    (fail_state : dict) (loaded : result (gmap string (list MetricsCache.Point))) :
  (forall v, dict_get fail_state "default" = Some v ->
     exists d, v = VDict d /\ dict_get d "cloudwatch" = None) ->
  (forall conditions, ~ In ("cloudwatch", VList conditions) fail_state) ->
  cloudwatch_result fail_state loaded = Ok [].
Proof.
  intros Hdefault Hshape. unfold cloudwatch_result, server_status_check.
  destruct (cloudwatch_of_series loaded) as (data & -> & Hdata).
  cbn [foldM]. unfold check_snapshot.
  assert (Hdef : exists defaults,
             match dict_get fail_state "default" with
             | Some v => py_items v
             | None => Ok []
             end = Ok defaults
             /\ dict_get defaults "cloudwatch" = None).
  { destruct (dict_get fail_state "default") as [v|].
    - destruct (Hdefault v eq_refl) as (d & -> & Hd). now exists d.
    - now exists []. }
  destruct Hdef as (defaults & -> & Hnone). cbn [Py.bind].
  rewrite foldM_idle.
  2:{ intros [metric conditions] Hin. unfold default_metric, find_default.
      cbn [fold_left dict_get].
      destruct (String.eqb_spec "cloudwatch" metric) as [<- | _]; [|reflexivity].
      now apply dict_get_In in Hin. }
  cbn [Py.bind foldM].
  rewrite foldM_idle; [reflexivity|].
  intros [service conf] Hin. unfold check_service.
  destruct (String.eqb service "default"); [reflexivity|].
  cbn [dict_get].
  destruct (String.eqb_spec "cloudwatch" service) as [<- | _]; [|reflexivity].
  destruct conf as [| | | | |conditions|metrics]; try reflexivity.
  - now apply Hshape in Hin.
  - change (String.eqb "cloudwatch" "cloudwatch") with true. cbv iota.
    apply foldM_idle. intros item _. now apply cloudwatch_metric_silent.
Qed.

(** A rule on CPU load of 90 percent or more, and a host at 99 percent. *)
Definition cpu_rule : dict :=
  [ ("cloudwatch",
     VDict [ ("cpu", VList [ VDict [ ("compare_logic", VStr "gte");
                                     ("value", VNum 90);
                                     ("description", VStr "CPU load is high") ] ]) ]) ].

Definition busy_host : gmap string (list MetricsCache.Point) :=
  {[ "cpu" := [ {| MetricsCache.Timestamp := 300; MetricsCache.Value := 99;
                   MetricsCache.Unit := "Percent";
                   MetricsCache.volume_id := None; MetricsCache.partition := None |} ] ]}.

Lemma cloudwatch_rules_never_fire_witness :
  cloudwatch_result cpu_rule (Ok busy_host) = Ok [].
Proof.
  apply (cloudwatch_rules_never_fire cpu_rule (Ok busy_host)).
  - intros v H. vm_compute in H. discriminate H.
  - intros conditions [H | []]. discriminate H.
Defined.

(** The same rule on a point that has the field the evaluator reads. *)
Lemma cpu_rule_on_average :
  server_status_check cpu_rule
    [ [ [ ("cloudwatch",
           VDict [ ("cpu", VList [ VDict [ ("Timestamp", VTime 300);
                                           ("Average", VNum 99) ] ]) ]) ] ] ]
  = Ok [ ("cloudwatch",
          [ (VStr "cpu", {| description := Given (VStr "CPU load is high");
                            result_flag := true; detail := VNum 99 |}) ]) ].
Proof. vm_compute. reflexivity. Qed.

End ProcessHostFacts.

(** ** Properties of the scroll of [cluster_status] *)

Module ClusterStatusFacts.
Import RuleEvaluator ClusterStatus.

(** A document that says which host it is from. *)
Definition has_address (doc : dict) : Prop :=
  exists s, doc_ip doc = VStr s /\ s <> EmptyString.

(** A hand-off to [_process_host]: at least one document, all of the
    address the task is given. *)
Definition host_batch (b : value * list dict) : Prop :=
  snd b <> []
  /\ exists s, fst b = VStr s /\ s <> EmptyString
       /\ Forall (fun doc => doc_ip doc = VStr s) (snd b).

(** No two neighbours are equal. *)
Fixpoint distinct_neighbours (l : list value) : Prop :=
  match l with
  | a :: rest =>
      match rest with
      | b :: _ => a <> b /\ distinct_neighbours rest
      | [] => True
      end
  | [] => True
  end.

(** The pages a scroll reads, [left] pages being allowed, the next search
    being the [k]-th: each page is the answer to the search that carries
    the sort values of the last hit of the page before, and the scroll
    ends at an empty answer or when no page is left. *)
Fixpoint reads (search : Search) (base : Query) (left k : nat) (search_after : value)
    (pages : list (list Hit)) : Prop :=
  match pages with
  | [] => left = O \/ search k (page_query base search_after) = Ok []
  | hits :: rest =>
      exists left' last_hit,
        left = S left'
        /\ last hits = Some last_hit
        /\ search k (page_query base search_after) = Ok hits
        /\ reads search base left' (S k) (hit_sort last_hit) rest
  end.

Definition start_scan : Scan :=
  {| tasks := []; host_buffer := []; current_ip := VNone |}.

(** What the hand-off keeps true after the documents [docs]. *)
Definition scanned (docs : list dict) (st : Scan) : Prop :=
  concat (map snd (tasks st)) ++ host_buffer st = docs
  /\ Forall host_batch (tasks st)
  /\ (host_buffer st = [] -> tasks st = [] /\ current_ip st = VNone)
  /\ (host_buffer st <> [] -> host_batch (current_ip st, host_buffer st))
  /\ distinct_neighbours (map fst (tasks st) ++ [current_ip st]).

Lemma distinct_neighbours_snoc l a b :
  distinct_neighbours (l ++ [a]) -> a <> b -> distinct_neighbours (l ++ [a; b]).
Proof.
  induction l as [|x l IH]; intros H Hab.
  - cbn. auto.
  - destruct l as [|y l].
    + cbn in *. intuition.
    + cbn [app distinct_neighbours] in *. destruct H as [Hxy H]. split; [exact Hxy|].
      apply IH; assumption.
Qed.

Lemma distinct_neighbours_init l a :
  distinct_neighbours (l ++ [a]) -> distinct_neighbours l.
Proof.
  induction l as [|x l IH]; intros H; [exact I|].
  destruct l as [|y l]; [exact I|].
  cbn [app distinct_neighbours] in *. destruct H as [Hxy H]. split; [exact Hxy|].
  apply IH. exact H.
Qed.

Lemma take_hit_scanned docs st hit :
  scanned docs st -> has_address (hit_source hit) ->
  scanned (docs ++ [hit_source hit]) (take_hit st hit).
Proof.
  intros (Hdocs & Htasks & Hempty & Hbuf & Hnb) (s & Hs & Hne).
  unfold take_hit. rewrite Hs.
  destruct (host_buffer st) as [|d buf] eqn:Hb.
  - destruct (Hempty eq_refl) as [Ht Hc]. rewrite Hc, Ht in *. cbn [truthy andb].
    cbn [tasks host_buffer current_ip]. rewrite Hb, Ht.
    unfold scanned; cbn [tasks host_buffer current_ip map concat app].
    rewrite <- Hdocs. repeat split; try (constructor; fail); try discriminate.
    exists s. cbn [fst snd]. repeat split; auto.
  - destruct (Hbuf ltac:(discriminate)) as (_ & c & Hc & Hcne & Hall).
    cbn [fst snd] in Hc, Hall. rewrite Hc in *.
    assert (Htruthy : truthy (VStr c) = true).
    { cbn. destruct (String.eqb_spec c EmptyString); [contradiction | reflexivity]. }
    rewrite Htruthy. cbn [andb py_eq].
    destruct (String.eqb_spec s c) as [-> | Hsc]; cbn [negb].
    + cbn [tasks host_buffer current_ip]. rewrite Hb.
      unfold scanned; cbn [tasks host_buffer current_ip].
      repeat split; try assumption; try discriminate.
      * rewrite <- Hdocs, <- app_assoc. reflexivity.
      * exists c. cbn [fst snd]. repeat split; auto.
        apply Forall_app. split; [exact Hall | now constructor].
    + cbn [tasks host_buffer current_ip].
      unfold scanned; cbn [tasks host_buffer current_ip app].
      repeat split; try discriminate.
      * rewrite <- Hdocs, map_app, concat_app. cbn [map concat snd].
        rewrite app_nil_r, <- app_assoc. reflexivity.
      * apply Forall_app. split; [exact Htasks|]. constructor; [|constructor].
        split; [cbn; discriminate|]. exists c. cbn [fst snd]. repeat split; auto.
      * exists s. cbn [fst snd]. repeat split; auto.
      * rewrite map_app. cbn [map fst]. rewrite <- app_assoc. cbn [app].
        apply distinct_neighbours_snoc; [exact Hnb|].
        intros [= ->]. contradiction.
Qed.

Lemma take_hits_scanned hits docs st :
  scanned docs st -> Forall (fun h => has_address (hit_source h)) hits ->
  scanned (docs ++ map hit_source hits) (fold_left take_hit hits st).
Proof.
  revert docs st. induction hits as [|h hits IH]; intros docs st Hst Hall.
  - cbn. now rewrite app_nil_r.
  - apply Forall_cons in Hall as [Hh Hall]. cbn [fold_left map].
    replace (docs ++ hit_source h :: map hit_source hits)
      with ((docs ++ [hit_source h]) ++ map hit_source hits)
      by (now rewrite <- app_assoc).
    apply IH; [|exact Hall]. now apply take_hit_scanned.
Qed.

Lemma dispatch_last_scanned docs st :
  scanned docs st ->
  concat (map snd (dispatch_last st)) = docs
  /\ Forall host_batch (dispatch_last st)
  /\ distinct_neighbours (map fst (dispatch_last st)).
Proof.
  intros (Hdocs & Htasks & Hempty & Hbuf & Hnb). unfold dispatch_last.
  destruct (host_buffer st) as [|d buf] eqn:Hb.
  - cbn [length Nat.eqb negb andb]. rewrite app_nil_r in Hdocs.
    repeat split; [exact Hdocs | exact Htasks|].
    apply distinct_neighbours_init in Hnb. exact Hnb.
  - pose proof (Hbuf ltac:(discriminate)) as Hlast.
    destruct Hlast as (Hne & c & Hc & Hcne & Hall). cbn [fst snd] in Hc, Hall.
    cbn [length Nat.eqb negb andb]. rewrite Hc.
    assert (Htruthy : truthy (VStr c) = true).
    { cbn. destruct (String.eqb_spec c EmptyString); [contradiction | reflexivity]. }
    rewrite Htruthy. repeat split.
    + rewrite map_app, concat_app. cbn [map concat snd]. now rewrite app_nil_r.
    + apply Forall_app. split; [exact Htasks|]. constructor; [|constructor].
      split; [cbn; discriminate|]. exists c. cbn [fst snd]. repeat split; auto.
    + rewrite map_app. cbn [map fst]. now rewrite <- Hc.
Qed.

Lemma scroll_reads search base :
  (forall n q, exists hits, search n q = Ok hits) ->
  forall left k search_after st,
  exists pages,
    reads search base left k search_after pages
    /\ scroll search base left k search_after st
       = Ok (fold_left take_hit (concat pages) st).
Proof.
  intros Hanswer. induction left as [|left IH]; intros k sa st.
  - exists []. split; [now left | reflexivity].
  - destruct (Hanswer k (page_query base sa)) as (hits & Hhits).
    destruct (last hits) as [last_hit|] eqn:Hlast.
    + destruct (IH (S k) (hit_sort last_hit) (fold_left take_hit hits st))
        as (rest & Hreads & Hrun).
      exists (hits :: rest). split.
      * cbn [reads]. exists left, last_hit. repeat split; assumption.
      * cbn [scroll]. rewrite Hhits. cbn [Py.bind]. rewrite Hlast, Hrun.
        cbn [concat]. now rewrite fold_left_app.
    + exists []. apply last_None in Hlast. subst hits.
      split; [now right|]. cbn [scroll]. rewrite Hhits. reflexivity.
Qed.

Lemma reads_length search base pages :
  forall left k search_after,
    reads search base left k search_after pages -> (length pages <= left)%nat.
Proof.
  induction pages as [|hits rest IH]; intros left k sa H; cbn [length]; [lia|].
  destruct H as (left' & last_hit & -> & _ & _ & Hrest).
  apply IH in Hrest. lia.
Qed.

Lemma reads_pages search base pages :
  forall left k search_after,
    reads search base left k search_after pages ->
    forall hits, In hits pages -> exists n q, search n q = Ok hits.
Proof.
  induction pages as [|hits rest IH]; intros left k sa H page Hin; [contradiction|].
  destruct H as (left' & last_hit & -> & _ & Hhits & Hrest).
  destruct Hin as [<- | Hin].
  - now exists k, (page_query base sa).
  - exact (IH _ _ _ Hrest page Hin).
Qed.

(** X28: The scroll hands every document to exactly one task.  When every
    search answers and every document carries a non-empty address, at most
    100 pages are read, each asked for with the sort values of the last hit
    of the page before; the documents of all pages, in the order read, are
    cut into consecutive batches, none empty, each with the one address all
    its documents have, and neighbouring batches have different addresses.
    No document is dropped or handed over twice, also across pages. *)
Theorem cluster_status_batches
    (search : Search) (now : Z) (start_date end_date : option Z)
    (instance_id : option string) :
  let e := match end_date with Some e => e | None => now end in
  let s := match start_date with Some s => s | None => e - 1800 end in
  (forall n q, exists hits, search n q = Ok hits) ->
  (forall n q hits h, search n q = Ok hits -> In h hits -> has_address (hit_source h)) ->
  TimeShorthand.DATETIME_MIN + 1800 <= e <= TimeShorthand.DATETIME_MAX ->
  exists pages batches,
    cluster_status_tasks search now start_date end_date instance_id = Ok batches
    /\ reads search (base_query s e instance_id) 100 0 VNone pages
    /\ (length pages <= 100)%nat
    /\ concat (map snd batches) = map hit_source (concat pages)
    /\ Forall host_batch batches
    /\ distinct_neighbours (map fst batches).
Proof.
  intros e s Hanswer Haddr Hrange.
  unfold cluster_status_tasks. fold e.
  assert (Hstart : match start_date with
                   | Some s => Ok s
                   | None => TimeShorthand.shift e (- (30 * 60))
                   end = Ok s).
  { subst s. destruct start_date as [s0|]; [reflexivity|].
    unfold TimeShorthand.shift.
    replace (e + - (30 * 60)) with (e - 1800) by lia.
    replace (Z.leb TimeShorthand.DATETIME_MIN (e - 1800)
             && Z.leb (e - 1800) TimeShorthand.DATETIME_MAX) with true; [reflexivity|].
    symmetry. apply andb_true_iff. split; apply Z.leb_le; lia. }
  rewrite Hstart. cbn [Py.bind].
  destruct (scroll_reads search (base_query s e instance_id) Hanswer 100%nat 0%nat VNone
              start_scan) as (pages & Hreads & Hrun).
  fold start_scan. rewrite Hrun. cbn [Py.bind].
  exists pages, (dispatch_last (fold_left take_hit (concat pages) start_scan)).
  assert (Hscan : scanned ([] ++ map hit_source (concat pages))
                    (fold_left take_hit (concat pages) start_scan)).
  { apply take_hits_scanned.
    - unfold scanned, start_scan; cbn. repeat split; auto; contradiction.
    - apply List.Forall_forall. intros h Hh. apply in_concat in Hh as (hits & Hpage & Hh).
      destruct (reads_pages _ _ _ _ _ _ Hreads hits Hpage) as (n & q & Hq).
      exact (Haddr n q hits h Hq Hh). }
  cbn [app] in Hscan. apply dispatch_last_scanned in Hscan as (H1 & H2 & H3).
  split; [reflexivity|]. split; [exact Hreads|].
  split; [exact (reads_length _ _ _ _ _ _ Hreads)|].
  repeat split; assumption.
Qed.

(** Three documents of two hosts on two pages; the second host's
    documents straddle the page break. *)
Definition report (ip : string) (ts : Z) : Hit :=
  {| hit_source := [("ip", VStr ip); ("timestamp", VTime ts)];
     hit_sort := VList [VStr ip; VTime ts] |}.

Definition two_pages : Search :=
  fun n _ =>
    match n with
    | 0%nat => Ok [report "10.0.0.1" 60; report "10.0.0.2" 120]
    | 1%nat => Ok [report "10.0.0.2" 60]
    | _ => Ok []
    end.

Lemma cluster_status_batches_witness :
  cluster_status_tasks two_pages 1700000000 None None None
  = Ok [ (VStr "10.0.0.1", [hit_source (report "10.0.0.1" 60)]);
         (VStr "10.0.0.2", [hit_source (report "10.0.0.2" 120);
                            hit_source (report "10.0.0.2" 60)]) ]
  /\ exists pages batches,
       cluster_status_tasks two_pages 1700000000 None None None = Ok batches
       /\ reads two_pages (base_query (1700000000 - 1800) 1700000000 None)
            100 0 VNone pages
       /\ (length pages <= 100)%nat
       /\ concat (map snd batches) = map hit_source (concat pages)
       /\ Forall host_batch batches
       /\ distinct_neighbours (map fst batches).
Proof.
  split; [vm_compute; reflexivity|].
  apply (cluster_status_batches two_pages 1700000000 None None None).
  - intros [|[|n]] q; eexists; reflexivity.
  - intros [|[|n]] q hits h [= <-] Hin; cbn in Hin;
      repeat (destruct Hin as [<- | Hin]); try contradiction;
      eexists; (split; [reflexivity | discriminate]).
  - vm_compute. split; discriminate.
Defined.

End ClusterStatusFacts.

(** ** Properties of [scale_using_recommendation] *)

Module ScaleConfirmFacts.
Import InstanceScaling ScaleConfirm.

Definition internal_error : Outcome :=
  {| reply := HTTPException 500 "Internal server error while preparing scaling operation.";
     scaled := [] |}.

Definition reply_code (r : Reply) : Z :=
  match r with
  | JSONResponse c _ => c
  | HTTPException c _ => c
  end.

Lemma respond_code g : reply_code (reply (respond g)) = 200 \/ reply_code (reply (respond g)) = 403.
Proof.
  unfold respond.
  destruct (0 <? length (safe_to_scale_names g))%nat; cbn [reply reply_code]; [now left|].
  destruct (0 <? length (not_safe_to_scale_names g))%nat; [now right | now left].
Qed.

(** X29: A caller without an MFA login is not answered 401.  The check raises
    HTTPException(401, "MFA required") inside the [try] whose handler
    catches every Exception, so the caller gets the 500 "Internal server
    error" reply and nothing is scaled; and no input at all makes the
    endpoint answer 401. *)
Theorem scale_using_recommendation_mfa
    (now : Z) (log : gmap string Ec2Scaling.LogDoc)
    (search : PeerQuery -> result (list Hit)) (environments : list Environment)
    (user : result User) (previous_recommendation : result (option string))
    (current_state : result (option HostState)) (instance_id : string) (u : User) :
  user = Ok u ->
  is_mfa_login u = false ->
  scale_using_recommendation now log search environments user
    previous_recommendation current_state instance_id = internal_error
  /\ forall user' previous' state' id',
       reply_code (reply (scale_using_recommendation now log search environments user'
                            previous' state' id')) <> 401.
Proof.
  intros Hu Hmfa. split.
  - unfold scale_using_recommendation, confirm. rewrite Hu. cbn [Py.bind].
    rewrite Hmfa. reflexivity.
  - intros user' previous' state' id'.
    unfold scale_using_recommendation, confirm.
    destruct user' as [u'|e]; cbn [Py.bind]; [|cbn; discriminate].
    destruct (is_mfa_login u'); cbn [negb]; [|cbn; discriminate].
    destruct previous' as [[ty|]|e]; cbn [Py.bind]; try (cbn; discriminate).
    destruct state' as [[st|]|e]; cbn [Py.bind]; try (cbn; discriminate).
    destruct (Tags st !! "aws:autoscaling:groupName") as [[|c s]|];
      try (cbn; discriminate);
      (destruct (safety_gate now log search st environments) as [g|e]; cbn [Py.bind];
       [|cbn; discriminate];
       destruct (respond_code g) as [-> | ->]; discriminate).
Qed.

Lemma scale_using_recommendation_mfa_witness :
  scale_using_recommendation 0 ∅ (fun _ => Ok []) []
    (Ok {| is_mfa_login := false; sub := "alice" |}) (Ok (Some "m5.large"))
    (Ok None) "i-0abc" = internal_error
  /\ forall user' previous' state' id',
       reply_code (reply (scale_using_recommendation 0 ∅ (fun _ => Ok []) [] user'
                            previous' state' id')) <> 401.
Proof.
  apply (scale_using_recommendation_mfa 0 ∅ (fun _ => Ok []) []
           (Ok {| is_mfa_login := false; sub := "alice" |}) (Ok (Some "m5.large"))
           (Ok None) "i-0abc" {| is_mfa_login := false; sub := "alice" |});
    reflexivity.
Defined.

Lemma gate_environments_idle now log search st envs g :
  (forall env, In env envs -> peer_query st env = Ok None) ->
  gate_environments now log search st envs g = Ok g.
Proof.
  induction envs as [|env envs IH]; intros H; cbn [gate_environments]; [reflexivity|].
  rewrite (H env (or_introl eq_refl)). cbn [Py.bind].
  apply IH. intros env' Hin. apply H. now right.
Qed.

(** X30: Only group scaling scales.  The instances to scale are taken from the
    peer search alone, so when no configured environment applies to the
    host or names a group tag for its program, the confirmed instance
    itself is not scaled either: no background task is started, and the
    caller still gets 200 OK, with an empty message.  (The caller has an
    MFA login, a recommendation is stored, the host has tags and is in no
    Auto Scaling group.) *)
Theorem scale_using_recommendation_without_group
    (now : Z) (log : gmap string Ec2Scaling.LogDoc)
    (search : PeerQuery -> result (list Hit)) (environments : list Environment)
    (user : result User) (previous_recommendation : result (option string))
    (current_state : result (option HostState)) (instance_id : string)
    (u : User) (new_type : string) (st : HostState) :
  user = Ok u ->
  is_mfa_login u = true ->
  previous_recommendation = Ok (Some new_type) ->
  current_state = Ok (Some st) ->
  (Tags st !! "aws:autoscaling:groupName" = None
   \/ Tags st !! "aws:autoscaling:groupName" = Some EmptyString) ->
  (forall env, In env environments -> peer_query st env = Ok None) ->
  scale_using_recommendation now log search environments user
    previous_recommendation current_state instance_id
  = {| reply := JSONResponse 200 EmptyString; scaled := [] |}.
Proof.
  intros Hu Hmfa Hprev Hstate Hasg Henvs.
  unfold scale_using_recommendation, confirm.
  rewrite Hu. cbn [Py.bind]. rewrite Hmfa. cbn [negb].
  rewrite Hprev. cbn [Py.bind]. rewrite Hstate. cbn [Py.bind].
  unfold safety_gate.
  destruct Hasg as [-> | ->];
    rewrite (gate_environments_idle now log search st environments _ Henvs);
    reflexivity.
Qed.

(** A host of a program that has no group tag configured. *)
Definition lone_state : HostState :=
  {| Tags := {[ "Project" := "aida"; "Environment" := "prod"; "Program" := "web" ]};
     Region := Some "us-east-1";
     InstanceType := Some "m5.large" |}.

Definition lone_envs : list Environment :=
  [ {| project := Some "aida"; environment := Some "prod"; region := Some "us-east-1";
       programs := Some {[ "web" := {| scale_as_group_tag := None |} ]} |} ].

Lemma scale_using_recommendation_without_group_witness :
  scale_using_recommendation 0 ∅ (fun _ => Ok [ {| InstanceId := "i-0abc"; name := None |} ])
    lone_envs (Ok {| is_mfa_login := true; sub := "alice" |}) (Ok (Some "m5.xlarge"))
    (Ok (Some lone_state)) "i-0abc"
  = {| reply := JSONResponse 200 EmptyString; scaled := [] |}.
Proof.
  apply (scale_using_recommendation_without_group 0 ∅ _ lone_envs _ _ _ "i-0abc"
           {| is_mfa_login := true; sub := "alice" |} "m5.xlarge" lone_state);
    try reflexivity.
  - left. reflexivity.
  - intros env [<- | []]. vm_compute. reflexivity.
Defined.

End ScaleConfirmFacts.
